(** * super-payment: invoice pricing, tenant isolation and invoice listing

    A shallow embedding of the Go packages [models], [repository], [service]
    and of the handlers of package [api], followed by their properties:
    invoice creation, retrieval and listing, business partners, companies,
    registration and login.

    Conventions of the embedding
    - Go [float64] is Rocq's primitive binary64 [float]; every operation is
      rounded on its own (no fused multiply-add).
    - Go [int] is a [Z] with the 64-bit two's complement wrap-around written out.
    - Go [uint] identifiers are [N]; only equality and AUTO_INCREMENT use them.
    - [time.Time] is an instant in nanoseconds counted from the zero time, so
      that the zero value [time.Time{}] is [0]; every call of [time.Now()] is
      a parameter.  An instant has no zone: the times of a request body are
      taken to be written in UTC, where the zero instant decodes to the zero
      value (written with another offset it decodes to a value that is not
      the zero value, although [IsZero] holds of it).
    - A Go [error] is its message; [fmt.Errorf("p: %w", err)] prepends ["p: "].
    - The database is a record of tables (row lists in insertion order) with
      AUTO_INCREMENT counters.  A row of table [invoices] holds what its
      DECIMAL and DATE columns keep of the arguments of the INSERT; the
      fraction of a second that a TIMESTAMP column drops is left in place.
    - The server answers every statement: connection failures are not
      modelled, and no INSERT is refused for a number or a text that is too
      long for its column.
    - A compiled regular expression is the syntax tree of its pattern, and a
      text is matched byte by byte.
    - What lies outside the repository is a parameter of the definitions that
      use it: bcrypt, the generator of tokens, the validator behind the
      binding of the registration and login bodies, [time.Parse], and the
      database server: the collation under which it compares texts, what its
      DECIMAL and DATE columns keep, and the order in which it returns rows
      that the ORDER BY list does not tell apart. *)

From Stdlib Require Import ZArith NArith List String Bool Lia.
From Stdlib Require Import Permutation Sorted.
From Stdlib Require Import PrimFloat FloatOps SpecFloat FloatAxioms.
From Stdlib Require Uint63.
Import ListNotations.

Set Warnings "-inexact-float".
Local Open Scope string_scope.
Local Open Scope list_scope.
Local Open Scope Z_scope.

(** ** Go base types *)

Definition float64 := float.
Definition uint := N.
Definition Time := Z.
Bind Scope float_scope with float64.
Bind Scope N_scope with uint.
Bind Scope Z_scope with Time.

Module GoInt.

(** 64-bit signed [int]: results of arithmetic wrap around. *)
Definition min_int : Z := - 2 ^ 63.
Definition max_int : Z := 2 ^ 63 - 1.
Definition wrap (z : Z) : Z := (z + 2 ^ 63) mod 2 ^ 64 - 2 ^ 63.
Definition in_range (z : Z) : Prop := min_int <= z <= max_int.
Definition sub (a b : Z) : Z := wrap (a - b).
Definition mul (a b : Z) : Z := wrap (a * b).

End GoInt.

Module math.

(** Go's [math.Round]: "Round returns the nearest integer, rounding half
    away from zero"; [±0], [±Inf] and [NaN] are returned unchanged.  A finite
    [x] is [(-1)^s * m * 2^e]; when [e < 0] the magnitude is rounded to
    [floor (m / 2^-e + 1/2)], which is below [2^53] and hence exact. *)
Definition Round (x : float64) : float64 :=
  match Prim2SF x with
  | S754_finite s m e =>
      if (0 <=? e)%Z then x
      else
        let d := (2 ^ (- e))%Z in
        match ((Zpos m + d / 2) / d)%Z with
        | Zpos n => SF2Prim (S754_finite s n 0)
        | _ => SF2Prim (S754_zero s)
        end
  | _ => x
  end.

(** The IEEE 754 binary representation, [math.Float64bits] and
    [math.Float64frombits]: sign bit, 11 exponent bits, 52 fraction bits. *)
Definition Float64bits (x : float64) : Z :=
  let sign (s : bool) := if s then 2 ^ 63 else 0 in
  match Prim2SF x with
  | S754_zero s => sign s
  | S754_infinity s => sign s + 2047 * 2 ^ 52
  | S754_nan => 0x7FF8000000000001
  | S754_finite s m e =>
      if Zpos m <? 2 ^ 52 then sign s + Zpos m
      else sign s + (e + 1075) * 2 ^ 52 + (Zpos m - 2 ^ 52)
  end.

Definition Float64frombits (b : Z) : float64 :=
  let s := Z.testbit b 63 in
  let e := Z.land (Z.shiftr b 52) 0x7FF in
  let frac := Z.land b (2 ^ 52 - 1) in
  if e =? 2047 then
    if frac =? 0 then (if s then neg_infinity else infinity) else nan
  else if e =? 0 then
    match frac with
    | Zpos p => SF2Prim (S754_finite s p (- 1074))
    | _ => SF2Prim (S754_zero s)
    end
  else SF2Prim (S754_finite s (Z.to_pos (frac + 2 ^ 52)) (e - 1075)).

(** [Round] as package [math] implements it, on the bits: [shift = 52],
    [mask = 0x7FF], [bias = 1023]. *)
Definition Round_bits (x : float64) : float64 :=
  let shift := 52 in
  let mask := 0x7FF in
  let bias := 1023 in
  let signMask := 2 ^ 63 in
  let fracMask := 2 ^ shift - 1 in
  let uvone := 0x3FF0000000000000 in
  let bits := Float64bits x in
  let e := Z.land (Z.shiftr bits shift) mask in
  let bits :=
    if e <? bias then
      let bits := Z.land bits signMask in
      if e =? bias - 1 then Z.lor bits uvone else bits
    else if e <? bias + shift then
      let half := 2 ^ (shift - 1) in
      let e := e - bias in
      let bits := (bits + Z.shiftr half e) mod 2 ^ 64 in
      Z.ldiff bits (Z.shiftr fracMask e)
    else bits in
  Float64frombits bits.

(** [math.RoundToEven], the banker's rounding the code does not use; kept
    for comparison only. *)
Definition RoundToEven (x : float64) : float64 :=
  match Prim2SF x with
  | S754_finite s m e =>
      if (0 <=? e)%Z then x
      else
        let d := (2 ^ (- e))%Z in
        let q := (Zpos m / d)%Z in
        let r := (Zpos m mod d)%Z in
        let q' := if (d <? 2 * r)%Z then (q + 1)%Z
                  else if (2 * r =? d)%Z then (if Z.even q then q else q + 1)%Z
                  else q in
        match q' with
        | Zpos n => SF2Prim (S754_finite s n 0)
        | _ => SF2Prim (S754_zero s)
        end
  | _ => x
  end.

End math.

(** ** Results and the store monad *)

Inductive result (A : Type) : Type :=
| Ok (a : A)
| Err (msg : string).
Arguments Ok {A} a.
Arguments Err {A} msg.

(** [fmt.Errorf(prefix + "%w", err)] on the error branch of a call. *)
Definition Errorf_w {A : Type} (prefix : string) (r : result A) : result A :=
  match r with
  | Ok a => Ok a
  | Err e => Err (prefix ++ e)%string
  end.

(** ** Package regexp, as far as the two patterns of package models go

    The syntax covers what the patterns use: [^], [$], [\d], literal
    characters and counted repetition [{n}], [{n,m}].  A text is a string of
    bytes; [\d] is the ASCII class [0-9], and without the [m] flag [^] and
    [$] match at the two ends of the text only. *)

Module regexp.

Import Ascii.

Inductive Regexp : Type :=
| NoMatch
| EmptyMatch
| BeginText
| EndText
| Literal (c : Ascii.ascii)
| Digit
| Concat (r1 r2 : Regexp)
| Quest (r : Regexp).

Definition is_digit (c : Ascii.ascii) : bool :=
  (48 <=? Ascii.nat_of_ascii c)%nat && (Ascii.nat_of_ascii c <=? 57)%nat.

(** [r{0,n}] as the nested [(r(r(r)?)?)?] the compiler expands it to. *)
Fixpoint AtMost (r : Regexp) (n : nat) : Regexp :=
  match n with
  | O => EmptyMatch
  | S n' => Quest (Concat r (AtMost r n'))
  end.

(** [n] copies of [r] in front of [rest]. *)
Fixpoint Times (r : Regexp) (n : nat) (rest : Regexp) : Regexp :=
  match n with
  | O => rest
  | S n' => Concat r (Times r n' rest)
  end.

(** [r{min,max}]. *)
Definition Repeat (r : Regexp) (min max : nat) : Regexp :=
  Times r min (AtMost r (max - min)).

Fixpoint Sequence (rs : list Regexp) : Regexp :=
  match rs with
  | [] => EmptyMatch
  | [r] => r
  | r :: rs' => Concat r (Sequence rs')
  end.

(** *** Parsing of a pattern *)

(** A decimal number at the front of [s]: its value so far in [acc], the
    rest of [s], and whether a digit was read. *)
Fixpoint read_number (acc : nat) (seen : bool) (s : string) : nat * bool * string :=
  match s with
  | String c s' =>
      if is_digit c
      then read_number (10 * acc + (Ascii.nat_of_ascii c - 48)) true s'
      else (acc, seen, s)
  | EmptyString => (acc, seen, s)
  end.

(** The text after an opening brace: [n}] or [n,m}]. *)
Definition read_repeat (s : string) : option (nat * nat * string) :=
  match read_number 0 false s with
  | (min, true, String "}"%char rest) => Some (min, min, rest)
  | (min, true, String ","%char s') =>
      match read_number 0 false s' with
      | (max, true, String "}"%char rest) =>
          if (min <=? max)%nat then Some (min, max, rest) else None
      | _ => None
      end
  | _ => None
  end.

(** Characters with a meaning of their own that the patterns do not use. *)
Definition is_operator (c : Ascii.ascii) : bool :=
  existsb (Ascii.eqb c)
          ["."; "["; "]"; "("; ")"; "{"; "}"; "*"; "+"; "?"; "|"; "\"]%char.

(** The pieces of a pattern, left to right; [fuel] bounds the number of
    pieces by the length of the pattern. *)
Fixpoint parse (fuel : nat) (s : string) : option (list Regexp) :=
  match fuel with
  | O => match s with EmptyString => Some [] | _ => None end
  | S fuel' =>
      let with_repeat (r : Regexp) (s' : string) : option (list Regexp) :=
        match s' with
        | String "{"%char s'' =>
            match read_repeat s'' with
            | Some (min, max, rest) => option_map (cons (Repeat r min max)) (parse fuel' rest)
            | None => None
            end
        | _ => option_map (cons r) (parse fuel' s')
        end in
      match s with
      | EmptyString => Some []
      | String "^"%char s' => option_map (cons BeginText) (parse fuel' s')
      | String "$"%char s' => option_map (cons EndText) (parse fuel' s')
      | String "\"%char (String "d"%char s') => with_repeat Digit s'
      | String c s' => if is_operator c then None else with_repeat (Literal c) s'
      end
  end.

(** [None] for a pattern outside this syntax. *)
Definition Compile (pattern : string) : option Regexp :=
  option_map Sequence (parse (String.length pattern) pattern).

(** [MustCompile] panics on a pattern that does not parse; the package
    would then not initialise, and nothing could be matched.  The two
    patterns of package models parse. *)
Definition MustCompile (pattern : string) : Regexp :=
  match Compile pattern with
  | Some re => re
  | None => NoMatch
  end.

(** *** Matching *)

(** The rests of [s] after each way [re] matches at its front, in the
    matcher's order of preference.  [at_start] tells whether [s] is the whole
    text. *)
Fixpoint run (re : Regexp) (at_start : bool) (s : string) : list string :=
  match re with
  | NoMatch => []
  | EmptyMatch => [s]
  | BeginText => if at_start then [s] else []
  | EndText => match s with EmptyString => [s] | _ => [] end
  | Literal c =>
      match s with
      | String c' s' => if Ascii.eqb c' c then [s'] else []
      | EmptyString => []
      end
  | Digit =>
      match s with
      | String c' s' => if is_digit c' then [s'] else []
      | EmptyString => []
      end
  | Concat r1 r2 =>
      flat_map (fun m => run r2 (at_start && (String.length m =? String.length s)%nat) m)
               (run r1 at_start s)
  | Quest r => (run r at_start s ++ [s])%list
  end.

(** A match may start at any position of the text. *)
Fixpoint search (re : Regexp) (at_start : bool) (s : string) : bool :=
  match run re at_start s with
  | _ :: _ => true
  | [] =>
      match s with
      | EmptyString => false
      | String _ s' => search re false s'
      end
  end.

(** [re.MatchString(s)]: whether [s] contains a match of [re]. *)
Definition MatchString (re : Regexp) (s : string) : bool := search re true s.

End regexp.

(** ** Package strconv: [Atoi] *)

Module strconv.

Import Ascii.

(** The value of a run of decimal digits, most significant first; [None]
    when a byte is not a digit. *)
Fixpoint digits_value (acc : Z) (s : string) : option Z :=
  match s with
  | EmptyString => Some acc
  | String c s' =>
      if regexp.is_digit c
      then digits_value (10 * acc + (Z.of_nat (nat_of_ascii c) - 48)) s'
      else None
  end.

(** [Atoi(s)] on a 64-bit platform; [None] stands for a non-nil error
    ([ErrSyntax] on an empty text, a lone sign or a byte that is not a digit,
    [ErrRange] on a value outside [int]).  Callers here test the error only. *)
Definition Atoi (s : string) : option Z :=
  let (neg, body) :=
    match s with
    | String "-"%char s' => (true, s')
    | String "+"%char s' => (false, s')
    | _ => (false, s)
    end in
  match body with
  | EmptyString => None
  | _ =>
      match digits_value 0 body with
      | None => None
      | Some v =>
          let n := if neg then - v else v in
          if (GoInt.min_int <=? n) && (n <=? GoInt.max_int) then Some n else None
      end
  end.

End strconv.

(** ** Package bcrypt

    The two functions the service calls, as parameters of the
    development: the hash is whatever the library computes. *)

Module bcrypt.

Record API := {
  (* GenerateFromPassword(password, DefaultCost): the hash, or an error *)
  GenerateFromPassword : string -> result string;
  (* CompareHashAndPassword(hash, password): [None] is the [nil] error *)
  CompareHashAndPassword : string -> string -> option string
}.

(** A hash the library generated for a password compares equal to it. *)
Definition sound (B : API) : Prop :=
  forall password hash,
    GenerateFromPassword B password = Ok hash ->
    CompareHashAndPassword B hash password = None.

End bcrypt.

(** ** Package models *)

Module models.

Record Company := {
  c_ID : uint;
  c_CorporateName : string;
  c_Representative : string;
  c_PhoneNumber : string;
  c_PostalCode : string;
  c_Address : string;
  c_CreatedAt : Time;
  c_UpdatedAt : Time
}.

Record User := {
  u_ID : uint;
  u_CompanyID : uint;
  u_FullName : string;
  u_Email : string;
  u_Password : string;
  u_CreatedAt : Time;
  u_UpdatedAt : Time;
  u_Company : option Company
}.

Record BusinessPartner := {
  bp_ID : uint;
  bp_CompanyID : uint;
  bp_CorporateName : string;
  bp_Representative : string;
  bp_PhoneNumber : string;
  bp_PostalCode : string;
  bp_Address : string;
  bp_CreatedAt : Time;
  bp_UpdatedAt : Time
}.

Inductive InvoiceStatus : Type :=
| InvoiceStatusUnprocessed
| InvoiceStatusProcessing
| InvoiceStatusPaid
| InvoiceStatusError.

(** The string constants behind the [InvoiceStatus] values. *)
Definition InvoiceStatus_string (s : InvoiceStatus) : string :=
  match s with
  | InvoiceStatusUnprocessed => "unprocessed"
  | InvoiceStatusProcessing => "processing"
  | InvoiceStatusPaid => "paid"
  | InvoiceStatusError => "error"
  end.

Record Invoice := {
  i_ID : uint;
  i_CompanyID : uint;
  i_BusinessPartnerID : uint;
  i_IssueDate : Time;
  i_PaymentAmount : float64;
  i_Fee : float64;
  i_FeeRate : float64;
  i_ConsumptionTax : float64;
  i_ConsumptionTaxRate : float64;
  i_InvoiceAmount : float64;
  i_PaymentDueDate : Time;
  i_Status : InvoiceStatus;
  i_CreatedAt : Time;
  i_UpdatedAt : Time;
  i_Company : option Company;
  i_BusinessPartner : option BusinessPartner
}.

Record CreateInvoiceRequest := {
  BusinessPartnerID : uint;
  PaymentAmount : float64;
  PaymentDueDate : Time
}.

Record GetInvoicesRequest := {
  StartDate : option Time;
  EndDate : option Time;
  Status : option string;
  Page : Z;
  Limit : Z
}.

Record BusinessPartnerCreateRequest := {
  req_CorporateName : string;
  req_Representative : string;
  req_PhoneNumber : string;
  req_PostalCode : string;
  req_Address : string
}.

(** Zero values of the fields a composite literal leaves out. *)
Definition ToBusinessPartner (req : BusinessPartnerCreateRequest) : BusinessPartner :=
  {| bp_ID := 0%N; bp_CompanyID := 0%N;
     bp_CorporateName := req_CorporateName req;
     bp_Representative := req_Representative req;
     bp_PhoneNumber := req_PhoneNumber req;
     bp_PostalCode := req_PostalCode req;
     bp_Address := req_Address req;
     bp_CreatedAt := 0%Z; bp_UpdatedAt := 0%Z |}.

(** [time.Second], a duration in nanoseconds. *)
Definition Second : Z := 1000000000.

(** [t.Before(u)]: the instant [t] is strictly earlier than [u]. *)
Definition Before (t u : Time) : bool := (t <? u)%Z.

(** [ValidatePaymentDueDate]; [None] is the [nil] error.  [now] is the
    value [time.Now()] returns inside the function. *)
Definition ValidatePaymentDueDate (now : Time) (dueDate : Time) : option string :=
  if Before dueDate now
  then Some "payment due date must be in the future"
  else None.

(** Method [Validate] of [CreateInvoiceRequest]. *)
Definition Validate (now : Time) (req : CreateInvoiceRequest) : option string :=
  match ValidatePaymentDueDate now (PaymentDueDate req) with
  | Some err => Some err
  | None => None
  end.

Definition phoneRegex : regexp.Regexp := regexp.MustCompile "^0\d{1,4}-\d{1,4}-\d{4}$".

Definition postalCodeRegex : regexp.Regexp := regexp.MustCompile "^\d{3}-\d{4}$".

Definition ValidatePhoneNumber (phone : string) : option string :=
  if negb (regexp.MatchString phoneRegex phone)
  then Some "invalid phone number format. Expected format: XXX-XXXX-XXXX"
  else None.

Definition ValidatePostalCode (postalCode : string) : option string :=
  if negb (regexp.MatchString postalCodeRegex postalCode)
  then Some "invalid postal code format. Expected format: XXX-XXXX"
  else None.

(** Method [Validate] of [BusinessPartnerCreateRequest]. *)
Definition BusinessPartnerCreateRequest_Validate (req : BusinessPartnerCreateRequest)
  : option string :=
  match ValidatePhoneNumber (req_PhoneNumber req) with
  | Some err => Some err
  | None =>
      match ValidatePostalCode (req_PostalCode req) with
      | Some err => Some err
      | None => None
      end
  end.

Record UserRegistrationRequest := {
  reg_FullName : string;
  reg_Email : string;
  reg_Password : string
}.

Record LoginRequest := {
  login_Email : string;
  login_Password : string
}.

Record AuthResponse := {
  Token : string;
  AuthUser : User
}.

End models.

(** ** The database server

    What the server does with the values of a statement, as far as the
    schema decides it: the DECIMAL and DATE columns of table [invoices], and
    the comparison of texts. *)

Module mysql.

Import Ascii.

(** The two DECIMAL types of table [invoices]. *)
Inductive Decimal : Type :=
| DECIMAL_15_2      (* payment_amount, fee, consumption_tax, invoice_amount *)
| DECIMAL_5_4.      (* fee_rate, consumption_tax_rate *)

(** The number of decimal places of a type. *)
Definition scale (ty : Decimal) : Z :=
  match ty with
  | DECIMAL_15_2 => 2
  | DECIMAL_5_4 => 4
  end.

(** The number of decimal digits of a type. *)
Definition precision (ty : Decimal) : Z :=
  match ty with
  | DECIMAL_15_2 => 15
  | DECIMAL_5_4 => 5
  end.

(** The float64 of an integer, exact below [2^53]. *)
Definition of_Z (z : Z) : float64 :=
  match z with
  | Z0 => 0%float
  | Zpos _ => PrimFloat.of_uint63 (Uint63.of_Z z)
  | Zneg p => (- PrimFloat.of_uint63 (Uint63.of_Z (Zpos p)))%float
  end.

(** The float64 a column of type [ty] that holds [n] units is read back
    as: the float64 nearest to [n / 10^scale]. *)
Definition of_units (ty : Decimal) (n : Z) : float64 :=
  (of_Z n / of_Z (10 ^ scale ty))%float.

(** The float64 nearest to [n] units and a half. *)
Definition of_half_units (ty : Decimal) (n : Z) : float64 :=
  (of_Z (2 * n + 1) / of_Z (2 * 10 ^ scale ty))%float.

(** What a column of type [ty] keeps of the float64 [x], in units of the
    last decimal place of the type.  The server writes [x] as the shortest
    decimal text that reads back as [x] and rounds that text to the scale of
    the column, half away from zero.  For a half unit of at most 15 digits,
    the text lies on it exactly when [x] is the float64 nearest to it; in
    every other case no half unit lies between the text and [x], and rounding
    the text is rounding [x] itself, [Zpos m * 2^e].  With [n] the mantissa
    times [10^scale], [Z.shiftl n e] is [n * 2^e] rounded down (a shift to
    the right for [e < 0]), and [nearest] is [n * 2^e] rounded to the nearest
    integer, half up.  [0] for a NaN or an infinity. *)
Definition units (ty : Decimal) (x : float64) : Z :=
  match Prim2SF x with
  | S754_finite s m e =>
      let n := Zpos m * 10 ^ scale ty in
      let below := Z.shiftl n e in
      let nearest := Z.shiftr (Z.shiftl n (e + 1) + 1) 1 in
      let r :=
        if PrimFloat.Leibniz.eqb (abs x) (of_half_units ty below) then below + 1
        else nearest in
      if s then - r else r
  | _ => 0
  end.

(** [x] is the float64 of a number of type [ty]: it is within the digits
    of the type and, stored and read back, it is [x] again. *)
Definition fixed (ty : Decimal) (x : float64) : bool :=
  let n := units ty x in
  (Z.abs n <? 10 ^ precision ty) && PrimFloat.Leibniz.eqb (of_units ty n) x.

(** A stand-in for a column of type [ty]: the float64 read back after [x]
    was stored.  (Beyond the digits of the column, where the server refuses
    the INSERT in strict mode, the stand-in stores 0.) *)
Definition DECIMAL (ty : Decimal) (x : float64) : float64 :=
  let n := units ty x in
  let y := of_units ty n in
  if (Z.abs n <? 10 ^ precision ty) && fixed ty y then y else 0%float.

(** The length of a day. *)
Definition day : Z := 86400 * models.Second.

(** A stand-in for a DATE column on a connection in UTC, read back as the
    midnight of its day.  The server rounds the time of day to whole seconds
    before it drops it, so that the last half second of a day falls on the
    next day. *)
Definition DATE (t : Time) : Time :=
  let u := t + models.Second / 2 in
  u - u mod day.

(** A stand-in for the collation [utf8mb4_unicode_ci] of the database on
    texts of ASCII: letters compare without regard to case, and spaces at the
    end are ignored. *)
Definition fold_case (c : ascii) : ascii :=
  let n := nat_of_ascii c in
  if (65 <=? n)%nat && (n <=? 90)%nat then ascii_of_nat (n + 32) else c.

Fixpoint fold (s : string) : string :=
  match s with
  | EmptyString => EmptyString
  | String c s' => String (fold_case c) (fold s')
  end.

Fixpoint rstrip (s : string) : string :=
  match s with
  | EmptyString => EmptyString
  | String c s' =>
      match rstrip s' with
      | EmptyString => if Ascii.eqb c " " then EmptyString else String c EmptyString
      | r => String c r
      end
  end.

Definition unicode_ci (a b : string) : bool :=
  String.eqb (rstrip (fold a)) (rstrip (fold b)).

End mysql.

(** ** Package repository *)

Module repository.

Import models.

(** *** The database

    One row list per table of the schema, in insertion order, and the
    AUTO_INCREMENT counters of the two tables this development inserts into.
    An [Invoice] or [User] row leaves the joined pointer fields [None]. *)
Record DB := {
  companies : list Company;
  users : list User;
  business_partners : list BusinessPartner;
  invoices : list Invoice;
  next_business_partner_id : uint;
  next_invoice_id : uint
}.

Definition find_company (db : DB) (id : uint) : option Company :=
  find (fun c => N.eqb (c_ID c) id) (companies db).

Definition find_business_partner (db : DB) (id : uint) : option BusinessPartner :=
  find (fun p => N.eqb (bp_ID p) id) (business_partners db).

(** Stand-ins for the two server errors the model can raise; the driver's
    own wording is not fixed by this repository. *)
Definition ErrForeignKey : string := "a foreign key constraint fails".
Definition ErrNegativeOffset : string := "negative OFFSET".

(** *** The server

    The columns an ORDER BY list may name, and the two directions. *)
Inductive Column : Type := col_id | col_payment_due_date.
Inductive Direction : Type := ASC | DESC.

(** The server's comparison of two texts with [=] and in a UNIQUE index,
    which depends on the collation of the column. *)
Definition Collation : Type := string -> string -> bool.

(** A database server, as far as table [invoices] goes:
    - how it carries out ORDER BY on the rows a statement selected, given
      the ORDER BY list, the LIMIT and the row the statement starts at (each
      page of a listing is a statement of its own, and rows that compare
      equal may come in another order in each);
    - how it compares the [status] column with a text;
    - what a DECIMAL column keeps of a float64 argument, as the float64 read
      back;
    - what a DATE column keeps of a [time.Time] argument, as the instant
      read back. *)
Record Engine := {
  order_by : list (Column * Direction) -> option Z -> Z -> list Invoice -> list Invoice;
  collation : Collation;
  decimal : mysql.Decimal -> float64 -> float64;
  date : Time -> Time
}.

(** What the column types promise of a server: a float64 that is the
    float64 of a number of the type is kept, what is read back is always
    such a float64, and of two instants the later has no earlier DATE. *)
Definition storing (E : Engine) : Prop :=
  (forall ty x, mysql.fixed ty x = true -> decimal E ty x = x) /\
  (forall ty x, mysql.fixed ty (decimal E ty x) = true) /\
  (forall t u, t <= u -> date E t <= date E u).

(** The rows of [users u JOIN companies c ON u.company_id = c.id]. *)
Definition join_user (db : DB) (u : User) : option User :=
  match find_company db (u_CompanyID u) with
  | Some c =>
      Some {| u_ID := u_ID u; u_CompanyID := u_CompanyID u;
              u_FullName := u_FullName u; u_Email := u_Email u;
              u_Password := u_Password u;
              u_CreatedAt := u_CreatedAt u; u_UpdatedAt := u_UpdatedAt u;
              u_Company := Some c |}
  | None => None
  end.

Definition joined_users (db : DB) : list User :=
  flat_map (fun u => match join_user db u with Some j => [j] | None => [] end)
           (users db).

(** [... WHERE u.id = ?] through [QueryRow]: the first row, and
    [sql.ErrNoRows] when there is none. *)
Definition GetUserByID (db : DB) (id : uint) : result User :=
  match find (fun u => N.eqb (u_ID u) id) (joined_users db) with
  | None => Err "user not found"
  | Some u => Ok u
  end.

Definition GetBusinessPartnerByID (db : DB) (id : uint) : result BusinessPartner :=
  match find_business_partner db id with
  | None => Err "business partner not found"
  | Some p => Ok p
  end.

(** The struct after [partner.ID = uint(id)], [partner.CreatedAt = now],
    [partner.UpdatedAt = now]; it is also the row the INSERT writes. *)
Definition stamp_business_partner (id : uint) (now : Time) (p : BusinessPartner)
  : BusinessPartner :=
  {| bp_ID := id; bp_CompanyID := bp_CompanyID p;
     bp_CorporateName := bp_CorporateName p;
     bp_Representative := bp_Representative p;
     bp_PhoneNumber := bp_PhoneNumber p;
     bp_PostalCode := bp_PostalCode p;
     bp_Address := bp_Address p;
     bp_CreatedAt := now; bp_UpdatedAt := now |}.

(** INSERT INTO business_partners; the row's [company_id] is a foreign key
    into [companies].  Returns the updated struct and the new database. *)
Definition CreateBusinessPartner (now : Time) (partner : BusinessPartner) (db : DB)
  : result (BusinessPartner * DB) :=
  match find_company db (bp_CompanyID partner) with
  | None => Err ("failed to create business partner: " ++ ErrForeignKey)
  | Some _ =>
      let row := stamp_business_partner (next_business_partner_id db) now partner in
      Ok (row,
          {| companies := companies db;
             users := users db;
             business_partners := (business_partners db ++ [row])%list;
             invoices := invoices db;
             next_business_partner_id := N.succ (next_business_partner_id db);
             next_invoice_id := next_invoice_id db |})
  end.

(** The struct after [invoice.ID = uint(id)], [invoice.CreatedAt = now],
    [invoice.UpdatedAt = now]. *)
Definition stamp_invoice (id : uint) (now : Time) (i : Invoice) : Invoice :=
  {| i_ID := id; i_CompanyID := i_CompanyID i;
     i_BusinessPartnerID := i_BusinessPartnerID i;
     i_IssueDate := i_IssueDate i;
     i_PaymentAmount := i_PaymentAmount i;
     i_Fee := i_Fee i; i_FeeRate := i_FeeRate i;
     i_ConsumptionTax := i_ConsumptionTax i;
     i_ConsumptionTaxRate := i_ConsumptionTaxRate i;
     i_InvoiceAmount := i_InvoiceAmount i;
     i_PaymentDueDate := i_PaymentDueDate i;
     i_Status := i_Status i;
     i_CreatedAt := now; i_UpdatedAt := now;
     i_Company := i_Company i; i_BusinessPartner := i_BusinessPartner i |}.

(** A struct with the given joined pointers; with [None None] it is the
    row of table [invoices] (the columns alone). *)
Definition with_joins (c : option Company) (p : option BusinessPartner) (i : Invoice)
  : Invoice :=
  {| i_ID := i_ID i; i_CompanyID := i_CompanyID i;
     i_BusinessPartnerID := i_BusinessPartnerID i;
     i_IssueDate := i_IssueDate i;
     i_PaymentAmount := i_PaymentAmount i;
     i_Fee := i_Fee i; i_FeeRate := i_FeeRate i;
     i_ConsumptionTax := i_ConsumptionTax i;
     i_ConsumptionTaxRate := i_ConsumptionTaxRate i;
     i_InvoiceAmount := i_InvoiceAmount i;
     i_PaymentDueDate := i_PaymentDueDate i;
     i_Status := i_Status i;
     i_CreatedAt := i_CreatedAt i; i_UpdatedAt := i_UpdatedAt i;
     i_Company := c; i_BusinessPartner := p |}.

(** What the columns of [invoices] keep of the arguments of the INSERT:
    the two dates are DATE columns, the four amounts DECIMAL(15,2) and the
    two rates DECIMAL(5,4).  (The TIMESTAMP columns keep whole seconds; the
    fraction of [created_at] and [updated_at] is left as it is.) *)
Definition invoice_columns (E : Engine) (i : Invoice) : Invoice :=
  {| i_ID := i_ID i; i_CompanyID := i_CompanyID i;
     i_BusinessPartnerID := i_BusinessPartnerID i;
     i_IssueDate := date E (i_IssueDate i);
     i_PaymentAmount := decimal E mysql.DECIMAL_15_2 (i_PaymentAmount i);
     i_Fee := decimal E mysql.DECIMAL_15_2 (i_Fee i);
     i_FeeRate := decimal E mysql.DECIMAL_5_4 (i_FeeRate i);
     i_ConsumptionTax := decimal E mysql.DECIMAL_15_2 (i_ConsumptionTax i);
     i_ConsumptionTaxRate := decimal E mysql.DECIMAL_5_4 (i_ConsumptionTaxRate i);
     i_InvoiceAmount := decimal E mysql.DECIMAL_15_2 (i_InvoiceAmount i);
     i_PaymentDueDate := date E (i_PaymentDueDate i);
     i_Status := i_Status i;
     i_CreatedAt := i_CreatedAt i; i_UpdatedAt := i_UpdatedAt i;
     i_Company := i_Company i; i_BusinessPartner := i_BusinessPartner i |}.

(** INSERT INTO invoices; [company_id] and [business_partner_id] are
    foreign keys.  Returns the updated struct, which holds the values Go
    computed, and the new database, whose row holds what the columns keep
    of them. *)
Definition CreateInvoice (E : Engine) (now : Time) (invoice : Invoice) (db : DB)
  : result (Invoice * DB) :=
  match find_company db (i_CompanyID invoice),
        find_business_partner db (i_BusinessPartnerID invoice) with
  | Some _, Some _ =>
      let invoice' := stamp_invoice (next_invoice_id db) now invoice in
      Ok (invoice',
          {| companies := companies db;
             users := users db;
             business_partners := business_partners db;
             invoices :=
               (invoices db ++ [with_joins None None (invoice_columns E invoice')])%list;
             next_business_partner_id := next_business_partner_id db;
             next_invoice_id := N.succ (next_invoice_id db) |})
  | _, _ => Err ("failed to create invoice: " ++ ErrForeignKey)
  end.

(** The rows of [invoices i JOIN companies c ON i.company_id = c.id
    JOIN business_partners bp ON i.business_partner_id = bp.id]. *)
Definition join_invoice (db : DB) (i : Invoice) : option Invoice :=
  match find_company db (i_CompanyID i),
        find_business_partner db (i_BusinessPartnerID i) with
  | Some c, Some p => Some (with_joins (Some c) (Some p) i)
  | _, _ => None
  end.

Definition joined_invoices (db : DB) : list Invoice :=
  flat_map (fun i => match join_invoice db i with Some j => [j] | None => [] end)
           (invoices db).

(** [... WHERE i.id = ?] through [QueryRow]: the first row, and
    [sql.ErrNoRows] when there is none.  The server answering every
    statement, this is the one failure; read right after its INSERT a row is
    found, so that the service's "failed to get created invoice" needs a
    failure of the connection, and the properties below that speak of a
    failed creation make no promise for it. *)
Definition GetInvoiceByID (db : DB) (id : uint) : result Invoice :=
  match find (fun i => N.eqb (i_ID i) id) (joined_invoices db) with
  | None => Err "invoice not found"
  | Some i => Ok i
  end.

(** *** The query of [GetInvoicesByCompanyID]

    The SQL text the function assembles, clause by clause. *)
Inductive Condition : Type :=
| company_id_eq (v : uint)            (* WHERE i.company_id = ? *)
| payment_due_date_ge (v : Time)      (* AND i.payment_due_date >= ? *)
| payment_due_date_le (v : Time)      (* AND i.payment_due_date <= ? *)
| status_eq (v : string).             (* AND i.status = ? *)

Record Query := {
  q_where : list Condition;
  q_order_by : list (Column * Direction);
  q_limit : option Z;
  q_offset : option Z
}.

Definition opt_clause {A B : Type} (f : A -> B) (o : option A) : list B :=
  match o with
  | Some a => [f a]
  | None => []
  end.

Definition invoices_query (companyID : uint) (req : GetInvoicesRequest) : Query :=
  {| q_where :=
       ([company_id_eq companyID]
        ++ opt_clause payment_due_date_ge (StartDate req)
        ++ opt_clause payment_due_date_le (EndDate req)
        ++ opt_clause status_eq (Status req))%list;
     q_order_by := [(col_payment_due_date, DESC)];
     q_limit := if 0 <? Limit req then Some (Limit req) else None;
     q_offset :=
       if 0 <? Limit req
       then if 1 <? Page req
            then Some (GoInt.mul (GoInt.sub (Page req) 1) (Limit req))
            else None
       else None |}.

(** *** Evaluation of a query *)

(** [=] on the status column compares the text of the status with the
    argument under the collation [eq] of the column. *)
Definition eval_condition (eq : Collation) (c : Condition) (i : Invoice) : bool :=
  match c with
  | company_id_eq v => N.eqb (i_CompanyID i) v
  | payment_due_date_ge v => v <=? i_PaymentDueDate i
  | payment_due_date_le v => i_PaymentDueDate i <=? v
  | status_eq v => eq (InvoiceStatus_string (i_Status i)) v
  end.

Definition eval_where (eq : Collation) (q : Query) (i : Invoice) : bool :=
  forallb (fun c => eval_condition eq c i) (q_where q).

Definition column_value (c : Column) (i : Invoice) : Z :=
  match c with
  | col_id => Z.of_N (i_ID i)
  | col_payment_due_date => i_PaymentDueDate i
  end.

(** Lexicographic comparison of two rows under an ORDER BY list. *)
Fixpoint compare_rows (keys : list (Column * Direction)) (a b : Invoice) : comparison :=
  match keys with
  | [] => Eq
  | (c, d) :: keys' =>
      let r := Z.compare (column_value c a) (column_value c b) in
      match (match d with ASC => r | DESC => CompOpp r end) with
      | Eq => compare_rows keys' a b
      | r' => r'
      end
  end.

(** [a] may stand before [b] in the result. *)
Definition row_leb (keys : list (Column * Direction)) (a b : Invoice) : bool :=
  match compare_rows keys a b with
  | Gt => false
  | _ => true
  end.

(** What ORDER BY promises of a server: the rows it was given, in an order
    that respects the ORDER BY list.  Rows that compare equal under the list
    may come in any order, and in another order for another LIMIT or
    OFFSET. *)
Definition conforming (E : Engine) : Prop :=
  forall keys limit offset l,
    Permutation l (order_by E keys limit offset l) /\
    Sorted (fun a b => row_leb keys a b = true) (order_by E keys limit offset l).

Definition apply_limit (limit : option Z) (l : list Invoice) : list Invoice :=
  match limit with
  | Some n => firstn (Z.to_nat n) l
  | None => l
  end.

(** WHERE, then ORDER BY, then OFFSET and LIMIT; a statement without an
    OFFSET clause starts at row 0, and the server rejects a negative
    OFFSET. *)
Definition run_query (E : Engine) (db : DB) (q : Query) : result (list Invoice) :=
  let sorted :=
    order_by E (q_order_by q) (q_limit q)
             (match q_offset q with Some o => o | None => 0 end)
             (filter (eval_where (collation E) q) (joined_invoices db)) in
  match q_offset q with
  | Some o =>
      if o <? 0 then Err ErrNegativeOffset
      else Ok (apply_limit (q_limit q) (skipn (Z.to_nat o) sorted))
  | None => Ok (apply_limit (q_limit q) sorted)
  end.

Definition GetInvoicesByCompanyID (E : Engine) (db : DB) (companyID : uint)
           (req : GetInvoicesRequest) : result (list Invoice) :=
  Errorf_w "failed to get invoices: " (run_query E db (invoices_query companyID req)).

(** *** Three servers

    Insertion sort under [row_leb]; [insert] puts a row before the first
    row it may precede, so [isort] keeps equal rows in their input order.
    The three servers differ in the order of equal rows; their columns and
    their collation are the stand-ins of [mysql]. *)
Fixpoint insert (leb : Invoice -> Invoice -> bool) (x : Invoice) (l : list Invoice)
  : list Invoice :=
  match l with
  | [] => [x]
  | y :: l' => if leb x y then x :: y :: l' else y :: insert leb x l'
  end.

Definition isort (leb : Invoice -> Invoice -> bool) (l : list Invoice) : list Invoice :=
  fold_right (insert leb) [] l.

(** Equal rows stay in insertion order. *)
Definition stable_engine : Engine :=
  {| order_by := fun keys _ _ l => isort (row_leb keys) l;
     collation := mysql.unicode_ci;
     decimal := mysql.DECIMAL;
     date := mysql.DATE |}.

(** Equal rows come out in reverse insertion order. *)
Definition reversing_engine : Engine :=
  {| order_by := fun keys _ _ l => isort (row_leb keys) (rev l);
     collation := mysql.unicode_ci;
     decimal := mysql.DECIMAL;
     date := mysql.DATE |}.

(** Equal rows stay in insertion order in a statement that starts at row
    0 and come out in reverse order in every other statement. *)
Definition paging_engine : Engine :=
  {| order_by := fun keys _ offset l =>
                   if offset =? 0 then isort (row_leb keys) l
                   else isort (row_leb keys) (rev l);
     collation := mysql.unicode_ci;
     decimal := mysql.DECIMAL;
     date := mysql.DATE |}.

(** *** Companies, partner lists and the status of an invoice *)

Definition GetCompanyByID (db : DB) (id : uint) : result Company :=
  match find_company db id with
  | None => Err "company not found"
  | Some c => Ok c
  end.

(** A database server, as far as a SELECT without ORDER BY goes: the order
    in which it returns the rows it selected. *)
Definition Scan : Type := list BusinessPartner -> list BusinessPartner.

(** What such a SELECT promises of a server: the selected rows, each once. *)
Definition scanning (S : Scan) : Prop := forall l, Permutation l (S l).

(** [SELECT ... FROM business_partners WHERE company_id = ?], every row
    appended to the slice in the order the server sends it. *)
Definition GetBusinessPartnersByCompanyID (S : Scan) (db : DB) (companyID : uint)
  : result (list BusinessPartner) :=
  Ok (S (filter (fun p => N.eqb (bp_CompanyID p) companyID) (business_partners db))).

(** A row after [SET status = ?, updated_at = ?]. *)
Definition set_status (status : InvoiceStatus) (now : Time) (i : Invoice) : Invoice :=
  {| i_ID := i_ID i; i_CompanyID := i_CompanyID i;
     i_BusinessPartnerID := i_BusinessPartnerID i;
     i_IssueDate := i_IssueDate i;
     i_PaymentAmount := i_PaymentAmount i;
     i_Fee := i_Fee i; i_FeeRate := i_FeeRate i;
     i_ConsumptionTax := i_ConsumptionTax i;
     i_ConsumptionTaxRate := i_ConsumptionTaxRate i;
     i_InvoiceAmount := i_InvoiceAmount i;
     i_PaymentDueDate := i_PaymentDueDate i;
     i_Status := status;
     i_CreatedAt := i_CreatedAt i; i_UpdatedAt := now;
     i_Company := i_Company i; i_BusinessPartner := i_BusinessPartner i |}.

(** [UPDATE invoices SET status = ?, updated_at = ? WHERE id = ?] with
    [now] for [time.Now()] and one of the four constants for [status].  The
    number of rows the statement touched is dropped with the [Exec] result,
    so the call returns [nil] whether or not a row has identifier [id]. *)
Definition UpdateInvoiceStatus (now : Time) (id : uint) (status : InvoiceStatus) (db : DB)
  : result (unit * DB) :=
  Ok (tt,
      {| companies := companies db;
         users := users db;
         business_partners := business_partners db;
         invoices :=
           map (fun i => if N.eqb (i_ID i) id then set_status status now i else i)
               (invoices db);
         next_business_partner_id := next_business_partner_id db;
         next_invoice_id := next_invoice_id db |}).

(** *** Companies and users

    The database together with the AUTO_INCREMENT counters of [companies]
    and [users]. *)
Record Store := {
  tables : DB;
  next_company_id : uint;
  next_user_id : uint
}.

Definition ErrDuplicateEntry : string := "duplicate entry".

(** The struct after [company.ID = uint(id)], [company.CreatedAt = now],
    [company.UpdatedAt = now]; it is also the row the INSERT writes. *)
Definition stamp_company (id : uint) (now : Time) (c : Company) : Company :=
  {| c_ID := id;
     c_CorporateName := c_CorporateName c;
     c_Representative := c_Representative c;
     c_PhoneNumber := c_PhoneNumber c;
     c_PostalCode := c_PostalCode c;
     c_Address := c_Address c;
     c_CreatedAt := now; c_UpdatedAt := now |}.

Definition set_companies (db : DB) (l : list Company) : DB :=
  {| companies := l;
     users := users db;
     business_partners := business_partners db;
     invoices := invoices db;
     next_business_partner_id := next_business_partner_id db;
     next_invoice_id := next_invoice_id db |}.

Definition set_users (db : DB) (l : list User) : DB :=
  {| companies := companies db;
     users := l;
     business_partners := business_partners db;
     invoices := invoices db;
     next_business_partner_id := next_business_partner_id db;
     next_invoice_id := next_invoice_id db |}.

(** INSERT INTO companies: the table has no key an INSERT of the seven
    columns can violate. *)
Definition CreateCompany (now : Time) (company : Company) (st : Store)
  : result (Company * Store) :=
  let row := stamp_company (next_company_id st) now company in
  Ok (row,
      {| tables := set_companies (tables st) (companies (tables st) ++ [row])%list;
         next_company_id := N.succ (next_company_id st);
         next_user_id := next_user_id st |}).

(** The struct after [user.ID = uint(id)], [user.CreatedAt = now],
    [user.UpdatedAt = now]. *)
Definition stamp_user (id : uint) (now : Time) (u : User) : User :=
  {| u_ID := id; u_CompanyID := u_CompanyID u;
     u_FullName := u_FullName u; u_Email := u_Email u;
     u_Password := u_Password u;
     u_CreatedAt := now; u_UpdatedAt := now;
     u_Company := u_Company u |}.

(** The row of [users] for a struct: the columns alone. *)
Definition user_row (u : User) : User :=
  {| u_ID := u_ID u; u_CompanyID := u_CompanyID u;
     u_FullName := u_FullName u; u_Email := u_Email u;
     u_Password := u_Password u;
     u_CreatedAt := u_CreatedAt u; u_UpdatedAt := u_UpdatedAt u;
     u_Company := None |}.

(** INSERT INTO users: [company_id] is a foreign key into [companies] and
    [email] is UNIQUE.  The store after a failed INSERT is the store before
    it. *)
Definition CreateUser (eq : Collation) (now : Time) (user : User) (st : Store)
  : result (User * Store) :=
  match find_company (tables st) (u_CompanyID user) with
  | None => Err ("failed to create user: " ++ ErrForeignKey)
  | Some _ =>
      if existsb (fun u => eq (u_Email u) (u_Email user)) (users (tables st))
      then Err ("failed to create user: " ++ ErrDuplicateEntry)
      else
        let user' := stamp_user (next_user_id st) now user in
        Ok (user',
            {| tables := set_users (tables st) (users (tables st) ++ [user_row user'])%list;
               next_company_id := next_company_id st;
               next_user_id := N.succ (next_user_id st) |})
  end.

(** [... WHERE u.email = ?] through [QueryRow]: the first row. *)
Definition GetUserByEmail (eq : Collation) (db : DB) (email : string) : result User :=
  match find (fun u => eq (u_Email u) email) (joined_users db) with
  | None => Err "user not found"
  | Some u => Ok u
  end.

End repository.

(** ** Package service *)

Module service.

Import models.
Import repository.

(** Calls on the store: a call returns a result and the store after it;
    a failing call leaves the store as it was. *)
Definition M (A : Type) : Type := DB -> result A * DB.

Definition ret {A : Type} (a : A) : M A := fun db => (Ok a, db).

Definition fail {A : Type} (msg : string) : M A := fun db => (Err msg, db).

Definition bind {A B : Type} (m : M A) (k : A -> M B) : M B :=
  fun db =>
    match m db with
    | (Ok a, db') => k a db'
    | (Err e, db') => (Err e, db')
    end.

(** A repository call that only reads. *)
Definition query {A : Type} (f : DB -> result A) : M A :=
  fun db => (f db, db).

(** A repository call that inserts. *)
Definition exec {A : Type} (f : DB -> result (A * DB)) : M A :=
  fun db =>
    match f db with
    | Ok (a, db') => (Ok a, db')
    | Err e => (Err e, db)
    end.

(** [if err != nil { return nil, fmt.Errorf(prefix + "%w", err) }]. *)
Definition or_wrap {A : Type} (prefix : string) (m : M A) : M A :=
  fun db => let (r, db') := m db in (Errorf_w prefix r, db').

Notation "x <- m ;; k" := (bind m (fun x => k))
  (at level 61, m at next level, right associativity).

(** The struct [CreateInvoice] hands to the repository: the composite
    literal followed by the three assignments.  [now] is the [time.Now()]
    of [IssueDate]. *)
Definition new_invoice (now : Time) (user : User) (req : CreateInvoiceRequest) : Invoice :=
  let PaymentAmount := PaymentAmount req in
  let FeeRate := 0.04%float in
  let ConsumptionTaxRate := 0.10%float in
  let Fee := (PaymentAmount * FeeRate)%float in
  let ConsumptionTax := (Fee * ConsumptionTaxRate)%float in
  let InvoiceAmount :=
    (math.Round ((PaymentAmount + Fee + ConsumptionTax) * 100) / 100)%float in
  {| i_ID := 0%N;
     i_CompanyID := u_CompanyID user;
     i_BusinessPartnerID := BusinessPartnerID req;
     i_IssueDate := now;
     i_PaymentAmount := PaymentAmount;
     i_Fee := Fee;
     i_FeeRate := FeeRate;
     i_ConsumptionTax := ConsumptionTax;
     i_ConsumptionTaxRate := ConsumptionTaxRate;
     i_InvoiceAmount := InvoiceAmount;
     i_PaymentDueDate := PaymentDueDate req;
     i_Status := InvoiceStatusUnprocessed;
     i_CreatedAt := 0; i_UpdatedAt := 0;
     i_Company := None; i_BusinessPartner := None |}.

(** [now] is the service's [time.Now()], [now'] the repository's. *)
Definition CreateInvoice (E : Engine) (now now' : Time) (userID : uint)
           (req : CreateInvoiceRequest) : M Invoice :=
  user <- or_wrap "user not found: " (query (fun db => GetUserByID db userID)) ;;
  partner <- or_wrap "business partner not found: "
               (query (fun db => GetBusinessPartnerByID db (BusinessPartnerID req))) ;;
  if negb (N.eqb (bp_CompanyID partner) (u_CompanyID user))
  then fail "business partner does not belong to your company"
  else
    invoice <- or_wrap "failed to create invoice: "
                 (exec (repository.CreateInvoice E now' (new_invoice now user req))) ;;
    or_wrap "failed to get created invoice: "
      (query (fun db => repository.GetInvoiceByID db (i_ID invoice))).

Definition set_Page (req : GetInvoicesRequest) (page : Z) : GetInvoicesRequest :=
  {| StartDate := StartDate req; EndDate := EndDate req; Status := Status req;
     Page := page; Limit := Limit req |}.

Definition set_Limit (req : GetInvoicesRequest) (limit : Z) : GetInvoicesRequest :=
  {| StartDate := StartDate req; EndDate := EndDate req; Status := Status req;
     Page := Page req; Limit := limit |}.

(** The three [if] statements of [GetInvoices], in their order. *)
Definition default_pagination (req : GetInvoicesRequest) : GetInvoicesRequest :=
  let req := if Page req <? 1 then set_Page req 1 else req in
  let req := if Limit req <? 1 then set_Limit req 20 else req in
  let req := if 100 <? Limit req then set_Limit req 100 else req in
  req.

Definition GetInvoices (E : Engine) (userID : uint) (req : GetInvoicesRequest)
  : M (list Invoice) :=
  user <- or_wrap "user not found: " (query (fun db => GetUserByID db userID)) ;;
  or_wrap "failed to get invoices: "
    (query (fun db =>
              GetInvoicesByCompanyID E db (u_CompanyID user) (default_pagination req))).

Definition GetInvoiceByID (userID invoiceID : uint) : M Invoice :=
  user <- or_wrap "user not found: " (query (fun db => GetUserByID db userID)) ;;
  invoice <- or_wrap "invoice not found: "
               (query (fun db => repository.GetInvoiceByID db invoiceID)) ;;
  if negb (N.eqb (i_CompanyID invoice) (u_CompanyID user))
  then fail "invoice not found"
  else ret invoice.

Definition set_CompanyID (partner : BusinessPartner) (companyID : uint) : BusinessPartner :=
  {| bp_ID := bp_ID partner; bp_CompanyID := companyID;
     bp_CorporateName := bp_CorporateName partner;
     bp_Representative := bp_Representative partner;
     bp_PhoneNumber := bp_PhoneNumber partner;
     bp_PostalCode := bp_PostalCode partner;
     bp_Address := bp_Address partner;
     bp_CreatedAt := bp_CreatedAt partner; bp_UpdatedAt := bp_UpdatedAt partner |}.

(** Returns the struct behind the caller's pointer after the call. *)
Definition CreateBusinessPartner (now : Time) (userID : uint) (partner : BusinessPartner)
  : M BusinessPartner :=
  user <- or_wrap "user not found: " (query (fun db => GetUserByID db userID)) ;;
  let partner := set_CompanyID partner (u_CompanyID user) in
  or_wrap "failed to create business partner: "
    (exec (repository.CreateBusinessPartner now partner)).

Definition GetBusinessPartners (S : Scan) (userID : uint) : M (list BusinessPartner) :=
  user <- or_wrap "user not found: " (query (fun db => GetUserByID db userID)) ;;
  or_wrap "failed to get business partners: "
    (query (fun db => GetBusinessPartnersByCompanyID S db (u_CompanyID user))).

Definition set_Password (user : User) (password : string) : User :=
  {| u_ID := u_ID user; u_CompanyID := u_CompanyID user;
     u_FullName := u_FullName user; u_Email := u_Email user;
     u_Password := password;
     u_CreatedAt := u_CreatedAt user; u_UpdatedAt := u_UpdatedAt user;
     u_Company := u_Company user |}.

(** Returns the struct behind the caller's pointer after the call. *)
Definition RegisterUser (B : bcrypt.API) (eq : Collation) (now : Time) (user : User)
           (st : Store) : result User * Store :=
  match bcrypt.GenerateFromPassword B (u_Password user) with
  | Err err => (Err ("failed to hash password: " ++ err)%string, st)
  | Ok hashedPassword =>
      let user := set_Password user hashedPassword in
      match CreateUser eq now user st with
      | Err err => (Err ("failed to create user: " ++ err)%string, st)
      | Ok (user, st') => (Ok user, st')
      end
  end.

Definition LoginUser (B : bcrypt.API) (eq : Collation) (email password : string) : M User :=
  fun db =>
    match GetUserByEmail eq db email with
    | Err _ => (Err "invalid credentials", db)
    | Ok user =>
        match bcrypt.CompareHashAndPassword B (u_Password user) password with
        | Some _ => (Err "invalid credentials", db)
        | None => (Ok (set_Password user ""), db)
        end
    end.

(** Returns the struct behind the caller's pointer after the call. *)
Definition CreateCompany (now : Time) (company : Company) (st : Store)
  : result Company * Store :=
  match repository.CreateCompany now company st with
  | Err err => (Err ("failed to create company: " ++ err)%string, st)
  | Ok (company, st') => (Ok company, st')
  end.

End service.

(** ** Package api: the invoice handlers *)

Module api.

Import models.
Import repository.

Inductive Body : Type :=
| ErrorResponse (Error Message : string)
| SuccessResponse (Message : string) (Data : Invoice).

Record Response := {
  StatusCode : Z;
  ResponseBody : Body
}.

(** The [binding] tags of [CreateInvoiceRequest], as the validator behind
    [ShouldBindJSON] reads them: [required] fails on the zero value of the
    field's type, [gt=0] on a number that is not greater than [0].  Each
    field reports its first failing tag.  The zero value of [time.Time] is
    the zero instant as a body in UTC gives it. *)
Definition binding_CreateInvoiceRequest (req : CreateInvoiceRequest)
  : list (string * string) :=
  ((if N.eqb (BusinessPartnerID req) 0 then [("BusinessPartnerID", "required")] else [])
   ++ (if (PaymentAmount req =? 0)%float then [("PaymentAmount", "required")]
       else if (0 <? PaymentAmount req)%float then []
            else [("PaymentAmount", "gt")])
   ++ (if PaymentDueDate req =? 0 then [("PaymentDueDate", "required")] else []))%list.

Definition newline : string := String (Ascii.ascii_of_nat 10) EmptyString.

(** The validator's rendering of its field errors. *)
Fixpoint validation_message (errs : list (string * string)) : string :=
  match errs with
  | [] => ""
  | (field, tag) :: errs' =>
      "Key: 'CreateInvoiceRequest." ++ field ++ "' Error:Field validation for '"
      ++ field ++ "' failed on the '" ++ tag ++ "' tag"
      ++ match errs' with
         | [] => ""
         | _ => newline ++ validation_message errs'
         end
  end%string.

(** [c.ShouldBindJSON(&req)] on a body that decodes to [req]; [None] is
    the [nil] error. *)
Definition ShouldBindJSON (req : CreateInvoiceRequest) : option string :=
  match binding_CreateInvoiceRequest req with
  | [] => None
  | errs => Some (validation_message errs)
  end.

(** Handler of [POST /api/invoices] for the authenticated [userID].
    [now0] is the [time.Now()] of [Validate]. *)
Definition createInvoice (E : Engine) (now0 now now' : Time) (userID : uint)
           (req : CreateInvoiceRequest) (db : DB) : Response * DB :=
  match ShouldBindJSON req with
  | Some err =>
      ({| StatusCode := 400; ResponseBody := ErrorResponse "validation_error" err |}, db)
  | None =>
      match Validate now0 req with
      | Some err =>
          ({| StatusCode := 400; ResponseBody := ErrorResponse "validation_error" err |}, db)
      | None =>
          match service.CreateInvoice E now now' userID req db with
          | (Err err, db') =>
              ({| StatusCode := 500;
                  ResponseBody := ErrorResponse "invoice_creation_failed" err |}, db')
          | (Ok invoice, db') =>
              ({| StatusCode := 200;
                  ResponseBody := SuccessResponse "Invoice created successfully" invoice |},
               db')
          end
      end
  end.

(** Handler of [GET /api/invoices/:id] once [:id] has parsed to [invoiceID]. *)
Definition getInvoiceByID (userID invoiceID : uint) (db : DB) : Response :=
  match service.GetInvoiceByID userID invoiceID db with
  | (Err err, _) =>
      {| StatusCode := 404; ResponseBody := ErrorResponse "invoice_not_found" err |}
  | (Ok invoice, _) =>
      {| StatusCode := 200;
         ResponseBody := SuccessResponse "Invoice retrieved successfully" invoice |}
  end.

(** *** The other handlers

    [c.JSON(code, body)] where the [Data] of a [SuccessResponse] has type
    [A]. *)
Inductive BodyOf (A : Type) : Type :=
| ErrorResponseOf (Error Message : string)
| SuccessResponseOf (Message : string) (Data : A).
Arguments ErrorResponseOf {A} Error Message.
Arguments SuccessResponseOf {A} Message Data.

Record JSON (A : Type) := {
  Code : Z;
  Content : BodyOf A
}.
Arguments Code {A} j.
Arguments Content {A} j.

(** The [binding] tags of [BusinessPartnerCreateRequest]: [required] fails
    on the empty string. *)
Definition binding_BusinessPartnerCreateRequest (req : BusinessPartnerCreateRequest)
  : list (string * string) :=
  let required (field value : string) : list (string * string) :=
    if String.eqb value "" then [(field, "required")] else [] in
  (required "CorporateName" (req_CorporateName req)
   ++ required "Representative" (req_Representative req)
   ++ required "PhoneNumber" (req_PhoneNumber req)
   ++ required "PostalCode" (req_PostalCode req)
   ++ required "Address" (req_Address req))%list.

(** The validator's rendering of the field errors of struct [name]. *)
Fixpoint validation_message_of (name : string) (errs : list (string * string)) : string :=
  match errs with
  | [] => ""
  | (field, tag) :: errs' =>
      "Key: '" ++ name ++ "." ++ field ++ "' Error:Field validation for '"
      ++ field ++ "' failed on the '" ++ tag ++ "' tag"
      ++ match errs' with
         | [] => ""
         | _ => newline ++ validation_message_of name errs'
         end
  end%string.

(** [c.ShouldBindJSON(&req)] on a body that decodes to [req]. *)
Definition ShouldBindJSON_BusinessPartnerCreateRequest (req : BusinessPartnerCreateRequest)
  : option string :=
  match binding_BusinessPartnerCreateRequest req with
  | [] => None
  | errs => Some (validation_message_of "BusinessPartnerCreateRequest" errs)
  end.

(** Handler of [POST /api/business-partners] for the authenticated
    [userID]; [now] is the repository's [time.Now()]. *)
Definition createBusinessPartner (now : Time) (userID : uint)
           (req : BusinessPartnerCreateRequest) (db : DB) : JSON BusinessPartner * DB :=
  match ShouldBindJSON_BusinessPartnerCreateRequest req with
  | Some err =>
      ({| Code := 400; Content := ErrorResponseOf "validation_error" err |}, db)
  | None =>
      match BusinessPartnerCreateRequest_Validate req with
      | Some err =>
          ({| Code := 400; Content := ErrorResponseOf "validation_error" err |}, db)
      | None =>
          let partner := ToBusinessPartner req in
          match service.CreateBusinessPartner now userID partner db with
          | (Err err, db') =>
              ({| Code := 500;
                  Content := ErrorResponseOf "business_partner_creation_failed" err |}, db')
          | (Ok partner, db') =>
              ({| Code := 201;
                  Content := SuccessResponseOf "Business partner created successfully" partner |},
               db')
          end
      end
  end.

(** Handler of [GET /api/business-partners]. *)
Definition getBusinessPartners (S : Scan) (userID : uint) (db : DB)
  : JSON (list BusinessPartner) :=
  match service.GetBusinessPartners S userID db with
  | (Err err, _) =>
      {| Code := 500; Content := ErrorResponseOf "business_partner_retrieval_failed" err |}
  | (Ok partners, _) =>
      {| Code := 200;
         Content := SuccessResponseOf "Business partners retrieved successfully" partners |}
  end.

(** The query parameters of [getInvoices] once parsed: [Ok] of the request
    handed to the service, or the message of the 400 response.  [Query] is
    [c.Query], which gives the empty string for a parameter that is absent,
    and [Parse] is [time.Parse(time.RFC3339, _)]. *)
Definition parse_GetInvoicesRequest (Parse : string -> result Time)
           (Query : string -> string) : result GetInvoicesRequest :=
  match (if String.eqb (Query "start_date") "" then Ok None
         else match Parse (Query "start_date") with
              | Err err => Err ("Invalid start_date format: " ++ err)%string
              | Ok startDate => Ok (Some startDate)
              end) with
  | Err msg => Err msg
  | Ok StartDate =>
      match (if String.eqb (Query "end_date") "" then Ok None
             else match Parse (Query "end_date") with
                  | Err err => Err ("Invalid end_date format: " ++ err)%string
                  | Ok endDate => Ok (Some endDate)
                  end) with
      | Err msg => Err msg
      | Ok EndDate =>
          let Status :=
            if String.eqb (Query "status") "" then None else Some (Query "status") in
          let Page :=
            if String.eqb (Query "page") "" then 1
            else match strconv.Atoi (Query "page") with
                 | Some page => if 0 <? page then page else 0
                 | None => 0
                 end in
          let Limit :=
            if String.eqb (Query "limit") "" then 20
            else match strconv.Atoi (Query "limit") with
                 | Some limit => if 0 <? limit then limit else 0
                 | None => 0
                 end in
          Ok {| StartDate := StartDate; EndDate := EndDate; Status := Status;
                Page := Page; Limit := Limit |}
      end
  end.

(** Handler of [GET /api/invoices]. *)
Definition getInvoices (Parse : string -> result Time) (E : Engine) (userID : uint)
           (Query : string -> string) (db : DB) : JSON (list Invoice) :=
  match parse_GetInvoicesRequest Parse Query with
  | Err msg => {| Code := 400; Content := ErrorResponseOf "validation_error" msg |}
  | Ok req =>
      match service.GetInvoices E userID req db with
      | (Err err, _) =>
          {| Code := 500; Content := ErrorResponseOf "invoice_retrieval_failed" err |}
      | (Ok invoices, _) =>
          {| Code := 200;
             Content := SuccessResponseOf "Invoices retrieved successfully" invoices |}
      end
  end.

(** *** Registration and login *)

(** The body the [register] handler binds. *)
Record RegisterRequest := {
  rr_Company : Company;
  rr_User : UserRegistrationRequest
}.

Inductive AuthBody : Type :=
| AuthError (Error Message : string)
| AuthOk (resp : AuthResponse).

Record AuthReply := {
  AuthCode : Z;
  AuthContent : AuthBody
}.

Definition set_Company (user : User) (company : Company) : User :=
  {| u_ID := u_ID user; u_CompanyID := u_CompanyID user;
     u_FullName := u_FullName user; u_Email := u_Email user;
     u_Password := u_Password user;
     u_CreatedAt := u_CreatedAt user; u_UpdatedAt := u_UpdatedAt user;
     u_Company := Some company |}.

(** Handler of [POST /api/auth/register].  [Bind] is [c.ShouldBindJSON]
    with the validator behind it ([None] is the [nil] error), and
    [GenerateJWT] the function of package middleware; [now] and [now'] are
    the [time.Now()] of the two INSERT statements. *)
Definition register (Bind : RegisterRequest -> option string) (B : bcrypt.API)
           (eq : Collation) (GenerateJWT : User -> result string)
           (now now' : Time) (req : RegisterRequest) (st : Store) : AuthReply * Store :=
  match Bind req with
  | Some err =>
      ({| AuthCode := 400; AuthContent := AuthError "validation_error" err |}, st)
  | None =>
      match service.CreateCompany now (rr_Company req) st with
      | (Err err, st1) =>
          ({| AuthCode := 500; AuthContent := AuthError "company_creation_failed" err |}, st1)
      | (Ok company, st1) =>
          let user :=
            {| u_ID := 0%N; u_CompanyID := c_ID company;
               u_FullName := reg_FullName (rr_User req);
               u_Email := reg_Email (rr_User req);
               u_Password := reg_Password (rr_User req);
               u_CreatedAt := 0; u_UpdatedAt := 0; u_Company := None |} in
          match service.RegisterUser B eq now' user st1 with
          | (Err err, st2) =>
              ({| AuthCode := 500;
                  AuthContent := AuthError "user_registration_failed" err |}, st2)
          | (Ok user, st2) =>
              let user := set_Company user company in
              match GenerateJWT user with
              | Err err =>
                  ({| AuthCode := 500;
                      AuthContent := AuthError "token_generation_failed" err |}, st2)
              | Ok token =>
                  ({| AuthCode := 201;
                      AuthContent := AuthOk {| Token := token; AuthUser := user |} |}, st2)
              end
          end
      end
  end.

(** Handler of [POST /api/auth/login]. *)
Definition login (Bind : LoginRequest -> option string) (B : bcrypt.API)
           (eq : Collation) (GenerateJWT : User -> result string)
           (req : LoginRequest) (db : DB) : AuthReply :=
  match Bind req with
  | Some err => {| AuthCode := 400; AuthContent := AuthError "validation_error" err |}
  | None =>
      match service.LoginUser B eq (login_Email req) (login_Password req) db with
      | (Err _, _) =>
          {| AuthCode := 401;
             AuthContent := AuthError "authentication_failed" "Invalid email or password" |}
      | (Ok user, _) =>
          match GenerateJWT user with
          | Err err =>
              {| AuthCode := 500; AuthContent := AuthError "token_generation_failed" err |}
          | Ok token =>
              {| AuthCode := 200;
                 AuthContent := AuthOk {| Token := token; AuthUser := user |} |}
          end
      end
  end.

(** The [binding] tags of [Company]: [required] on the five texts. *)
Definition binding_Company (company : Company) : list (string * string) :=
  let required (field value : string) : list (string * string) :=
    if String.eqb value "" then [(field, "required")] else [] in
  (required "CorporateName" (c_CorporateName company)
   ++ required "Representative" (c_Representative company)
   ++ required "PhoneNumber" (c_PhoneNumber company)
   ++ required "PostalCode" (c_PostalCode company)
   ++ required "Address" (c_Address company))%list.

(** Handler of [POST /api/companies]. *)
Definition createCompany (now : Time) (company : Company) (st : Store)
  : JSON Company * Store :=
  match binding_Company company with
  | [] =>
      match service.CreateCompany now company st with
      | (Err err, st') =>
          ({| Code := 500; Content := ErrorResponseOf "company_creation_failed" err |}, st')
      | (Ok company, st') =>
          ({| Code := 201;
              Content := SuccessResponseOf "Company created successfully" company |}, st')
      end
  | errs =>
      ({| Code := 400;
          Content := ErrorResponseOf "validation_error"
                                     (validation_message_of "Company" errs) |}, st)
  end.

End api.

(** ** The sample database of migrations/002_insert_sample_data.sql *)

Module sample.

Import models.
Import repository.

(** Midnight of the day with the given number of days since the zero time. *)
Definition day (n : Z) : Time := n * 86400 * Second.

Definition d_2024_01_01 : Time := day 738885.
Definition d_2024_01_15 : Time := day 738899.
Definition d_2024_01_20 : Time := day 738904.
Definition d_2024_01_25 : Time := day 738909.
Definition d_2024_02_15 : Time := day 738930.
Definition d_2024_02_20 : Time := day 738935.
Definition d_2024_02_25 : Time := day 738940.

Definition company (id : uint) (name rep phone postal addr : string) : Company :=
  {| c_ID := id; c_CorporateName := name; c_Representative := rep;
     c_PhoneNumber := phone; c_PostalCode := postal; c_Address := addr;
     c_CreatedAt := d_2024_01_01; c_UpdatedAt := d_2024_01_01 |}.

Definition user (id cid : uint) (name email : string) : User :=
  {| u_ID := id; u_CompanyID := cid; u_FullName := name; u_Email := email;
     u_Password := "$2a$10$rR6tqOZEOjgCEWXNDXz8uOhXqGKOQGUfxWVJYJ8eQqPKKFjqFQEXS";
     u_CreatedAt := d_2024_01_01; u_UpdatedAt := d_2024_01_01;
     u_Company := None |}.

Definition partner (id cid : uint) (name rep phone postal addr : string)
  : BusinessPartner :=
  {| bp_ID := id; bp_CompanyID := cid; bp_CorporateName := name;
     bp_Representative := rep; bp_PhoneNumber := phone; bp_PostalCode := postal;
     bp_Address := addr;
     bp_CreatedAt := d_2024_01_01; bp_UpdatedAt := d_2024_01_01 |}.

Definition invoice (id cid pid : uint) (issue : Time) (amount fee tax total : float64)
           (due : Time) (status : InvoiceStatus) : Invoice :=
  {| i_ID := id; i_CompanyID := cid; i_BusinessPartnerID := pid;
     i_IssueDate := issue; i_PaymentAmount := amount;
     i_Fee := fee; i_FeeRate := 0.04%float;
     i_ConsumptionTax := tax; i_ConsumptionTaxRate := 0.10%float;
     i_InvoiceAmount := total; i_PaymentDueDate := due; i_Status := status;
     i_CreatedAt := d_2024_01_01; i_UpdatedAt := d_2024_01_01;
     i_Company := None; i_BusinessPartner := None |}.

Definition tech_solutions : Company :=
  company 1 "Tech Solutions Inc." "John Smith" "03-1234-5678" "100-0001"
          "Tokyo, Chiyoda-ku, Chiyoda 1-1-1".
Definition digital_services : Company :=
  company 2 "Digital Services Corp." "Jane Doe" "03-8765-4321" "150-0002"
          "Tokyo, Shibuya-ku, Shibuya 2-2-2".

Definition supplier_a : BusinessPartner :=
  partner 1 1 "Supplier A Ltd." "Michael Brown" "03-1111-2222" "101-0001"
          "Tokyo, Chiyoda-ku, Marunouchi 1-1-1".
Definition vendor_b : BusinessPartner :=
  partner 2 1 "Vendor B Corp." "Sarah Davis" "03-3333-4444" "102-0002"
          "Tokyo, Chiyoda-ku, Nihonbashi 2-2-2".
Definition partner_c : BusinessPartner :=
  partner 3 2 "Partner C Inc." "David Wilson" "03-5555-6666" "103-0003"
          "Tokyo, Chuo-ku, Ginza 3-3-3".

Definition invoice_1 : Invoice :=
  invoice 1 1 1 d_2024_01_15 100000 4000 400 104400 d_2024_02_15
          InvoiceStatusUnprocessed.
Definition invoice_2 : Invoice :=
  invoice 2 1 2 d_2024_01_20 50000 2000 200 52200 d_2024_02_20
          InvoiceStatusProcessing.
Definition invoice_3 : Invoice :=
  invoice 3 2 3 d_2024_01_25 75000 3000 300 78300 d_2024_02_25
          InvoiceStatusPaid.

Definition db : DB :=
  {| companies := [tech_solutions; digital_services];
     users :=
       [ user 1 1 "Alice Johnson" "alice@techsolutions.com";
         user 2 2 "Bob Wilson" "bob@digitalservices.com" ];
     business_partners := [supplier_a; vendor_b; partner_c];
     invoices := [invoice_1; invoice_2; invoice_3];
     next_business_partner_id := 4;
     next_invoice_id := 4 |}.

(** Alice as [GetUserByID] returns her: with her company joined. *)
Definition alice : User :=
  {| u_ID := 1; u_CompanyID := 1; u_FullName := "Alice Johnson";
     u_Email := "alice@techsolutions.com";
     u_Password := "$2a$10$rR6tqOZEOjgCEWXNDXz8uOhXqGKOQGUfxWVJYJ8eQqPKKFjqFQEXS";
     u_CreatedAt := d_2024_01_01; u_UpdatedAt := d_2024_01_01;
     u_Company := Some tech_solutions |}.

(** A partner struct as a caller might pass it, with company 2 filled in. *)
Definition supplier_corp : BusinessPartner :=
  {| bp_ID := 0; bp_CompanyID := 2; bp_CorporateName := "Supplier Corp.";
     bp_Representative := "Jane Smith"; bp_PhoneNumber := "03-9876-5432";
     bp_PostalCode := "101-0001"; bp_Address := "Tokyo, Chiyoda-ku, Supplier 2-2-2";
     bp_CreatedAt := 0; bp_UpdatedAt := 0 |}.

(** A create-invoice request against partner [pid], due on 2024-02-25. *)
Definition request (pid : uint) (amount : float64) : CreateInvoiceRequest :=
  {| BusinessPartnerID := pid; PaymentAmount := amount;
     PaymentDueDate := d_2024_02_25 |}.

(** The sample database with invoice 2 due on the day invoice 1 is due. *)
Definition invoice_2_same_day : Invoice :=
  invoice 2 1 2 d_2024_01_20 50000 2000 200 52200 d_2024_02_15
          InvoiceStatusProcessing.

Definition tied_db : DB :=
  {| companies := companies db;
     users := users db;
     business_partners := business_partners db;
     invoices := [invoice_1; invoice_2_same_day; invoice_3];
     next_business_partner_id := 4;
     next_invoice_id := 4 |}.

(** A listing request without filters. *)
Definition listing (page limit : Z) : GetInvoicesRequest :=
  {| StartDate := None; EndDate := None; Status := None;
     Page := page; Limit := limit |}.


(** A create-partner request as a client of company 1 might send it. *)
Definition partner_request : BusinessPartnerCreateRequest :=
  {| req_CorporateName := "Supplier Corp."; req_Representative := "Jane Smith";
     req_PhoneNumber := "03-9876-5432"; req_PostalCode := "101-0001";
     req_Address := "Tokyo, Chiyoda-ku, Supplier 2-2-2" |}.

(** Bob as [GetUserByID] returns him. *)
Definition bob : User :=
  {| u_ID := 2; u_CompanyID := 2; u_FullName := "Bob Wilson";
     u_Email := "bob@digitalservices.com";
     u_Password := "$2a$10$rR6tqOZEOjgCEWXNDXz8uOhXqGKOQGUfxWVJYJ8eQqPKKFjqFQEXS";
     u_CreatedAt := d_2024_01_01; u_UpdatedAt := d_2024_01_01;
     u_Company := Some digital_services |}.

(** Query parameters: a list of keys and values, read as [c.Query] does. *)
Fixpoint query_of (params : list (string * string)) (key : string) : string :=
  match params with
  | [] => ""
  | (k, v) :: params' => if String.eqb k key then v else query_of params' key
  end.

(** A stand-in for [time.Parse] that knows one date. *)
Definition parse_one_date (s : string) : result Time :=
  if String.eqb s "2024-02-20T00:00:00Z" then Ok d_2024_02_20
  else Err "cannot parse".

(** The sample database with its two other counters. *)
Definition store : Store :=
  {| tables := db; next_company_id := 3; next_user_id := 3 |}.

(** Stand-ins for the libraries: a hash that is the password behind a
    prefix, a token that is the email behind a prefix, a validator that
    accepts every body. *)
Definition toy_bcrypt : bcrypt.API :=
  {| bcrypt.GenerateFromPassword := fun password => Ok ("$toy$" ++ password)%string;
     bcrypt.CompareHashAndPassword :=
       fun hash password =>
         if String.eqb hash ("$toy$" ++ password)%string then None
         else Some "hashedPassword is not the hash of the given password" |}.

Definition toy_jwt (user : User) : result string := Ok ("token:" ++ u_Email user)%string.

Definition new_company : Company :=
  {| c_ID := 0; c_CorporateName := "New Company Ltd."; c_Representative := "Carol White";
     c_PhoneNumber := "not validated"; c_PostalCode := "160-0003";
     c_Address := "Tokyo, Shinjuku-ku, Shinjuku 3-3-3";
     c_CreatedAt := 0; c_UpdatedAt := 0 |}.

Definition registration (email : string) : api.RegisterRequest :=
  {| api.rr_Company := new_company;
     api.rr_User := {| reg_FullName := "Carol White"; reg_Email := email;
                       reg_Password := "correct horse" |} |}.

End sample.

(** ** Vocabulary of the properties *)

Import models.

(** The AUTO_INCREMENT counter of [invoices] lies above every identifier in
    the table. *)
Definition fresh_invoice_id (db : repository.DB) : bool :=
  forallb (fun i => N.ltb (i_ID i) (repository.next_invoice_id db)) (repository.invoices db).

(** The database after the INSERT of [row] into [invoices]. *)
Definition insert_invoice (row : Invoice) (db : repository.DB) : repository.DB :=
  {| repository.companies := repository.companies db;
     repository.users := repository.users db;
     repository.business_partners := repository.business_partners db;
     repository.invoices := (repository.invoices db ++ [row])%list;
     repository.next_business_partner_id := repository.next_business_partner_id db;
     repository.next_invoice_id := N.succ (repository.next_invoice_id db) |}.

(** [x] is finite and lies exactly half way between two integers. *)
Definition half_way (x : float64) : bool :=
  match Prim2SF x with
  | S754_finite _ m e => (e <? 0) && (Zpos m mod 2 ^ (- e) =? 2 ^ (- e - 1))
  | _ => false
  end.

(** The integer part of the magnitude of a finite [x]. *)
Definition integer_part (x : float64) : Z :=
  match Prim2SF x with
  | S754_finite _ m e => if e <? 0 then Zpos m / 2 ^ (- e) else Zpos m * 2 ^ e
  | _ => 0
  end.

(** The sign bit of [x]. *)
Definition sign_bit (x : float64) : bool :=
  match Prim2SF x with
  | S754_finite s _ _ | S754_zero s | S754_infinity s => s
  | S754_nan => false
  end.

(** The float64 of magnitude [n] and sign bit [s]. *)
Definition signed_integer (s : bool) (n : Z) : float64 :=
  match n with
  | Zpos p => SF2Prim (S754_finite s p 0)
  | _ => SF2Prim (S754_zero s)
  end.

(** The row a query starts at: a missing OFFSET clause starts at row 0. *)
Definition offset_of (q : repository.Query) : Z :=
  match repository.q_offset q with
  | Some o => o
  | None => 0
  end.

Definition set_offset (q : repository.Query) (o : Z) : repository.Query :=
  {| repository.q_where := repository.q_where q;
     repository.q_order_by := repository.q_order_by q;
     repository.q_limit := repository.q_limit q;
     repository.q_offset := Some o |}.

(** [b] is due no later than [a]: [a] may be listed before [b]. *)
Definition due_no_later (a b : Invoice) : Prop :=
  i_PaymentDueDate b <= i_PaymentDueDate a.

(** Invoice [i] belongs to company [companyID] and passes the filters the
    request supplies: due on or after [StartDate], due on or before
    [EndDate], of a status equal to [Status] under the collation [eq]. *)
Definition passes_filter (eq : repository.Collation) (companyID : uint)
           (req : GetInvoicesRequest) (i : Invoice) : Prop :=
  i_CompanyID i = companyID /\
  (forall d, StartDate req = Some d -> d <= i_PaymentDueDate i) /\
  (forall d, EndDate req = Some d -> i_PaymentDueDate i <= d) /\
  (forall s, Status req = Some s -> eq (InvoiceStatus_string (i_Status i)) s = true).


(** An ORDER BY list the code does not use: due date descending, then
    identifier ascending. *)
Definition due_then_id : list (repository.Column * repository.Direction) :=
  [(repository.col_payment_due_date, repository.DESC); (repository.col_id, repository.ASC)].

(** [r] matches, at the front of a text, exactly the strings of [L]. *)
Definition consumes (r : regexp.Regexp) (L : string -> Prop) : Prop :=
  forall (b : bool) (s t : string),
    In t (regexp.run r b s) <-> exists p, L p /\ s = (p ++ t)%string.

(** [r] matches exactly the texts of [L], each to its end. *)
Definition ends (r : regexp.Regexp) (L : string -> Prop) : Prop :=
  forall (b : bool) (s t : string),
    In t (regexp.run r b s) <-> L s /\ t = "".

Fixpoint all_digits (s : string) : bool :=
  match s with
  | EmptyString => true
  | String c s' => regexp.is_digit c && all_digits s'
  end.

(** A run of between [lo] and [hi] decimal digits. *)
Definition digits (lo hi : nat) (s : string) : Prop :=
  all_digits s = true /\ (lo <= String.length s <= hi)%nat.

(** [0], one to four digits, [-], one to four digits, [-], four digits. *)
Definition phone_number_shape (s : string) : Prop :=
  exists a b c,
    s = ("0" ++ a ++ "-" ++ b ++ "-" ++ c)%string /\
    digits 1 4 a /\ digits 1 4 b /\ digits 4 4 c.

(** Three digits, [-], four digits. *)
Definition postal_code_shape (s : string) : Prop :=
  exists a b, s = (a ++ "-" ++ b)%string /\ digits 3 3 a /\ digits 4 4 b.

(** The AUTO_INCREMENT counter of [business_partners] lies above every
    identifier in the table. *)
Definition fresh_business_partner_id (db : repository.DB) : bool :=
  forallb (fun p => N.ltb (bp_ID p) (repository.next_business_partner_id db))
          (repository.business_partners db).

(** The database after the INSERT of [row] into [business_partners]. *)
Definition insert_business_partner (row : BusinessPartner) (db : repository.DB)
  : repository.DB :=
  {| repository.companies := repository.companies db;
     repository.users := repository.users db;
     repository.business_partners := (repository.business_partners db ++ [row])%list;
     repository.invoices := repository.invoices db;
     repository.next_business_partner_id := N.succ (repository.next_business_partner_id db);
     repository.next_invoice_id := repository.next_invoice_id db |}.

(** The five texts of a request are all present. *)
Definition all_present (req : BusinessPartnerCreateRequest) : Prop :=
  req_CorporateName req <> "" /\ req_Representative req <> "" /\
  req_PhoneNumber req <> "" /\ req_PostalCode req <> "" /\ req_Address req <> "".

(** The rows of [business_partners] that belong to company [companyID]. *)
Definition partners_of (companyID : uint) (db : repository.DB) : list BusinessPartner :=
  filter (fun p => N.eqb (bp_CompanyID p) companyID) (repository.business_partners db).

(** The row [CreateInvoice] writes for [user] and [req] into [db]: what
    the columns of server [E] keep of the struct. *)
Definition invoice_row (E : repository.Engine) (now now' : Time) (user : User)
           (req : CreateInvoiceRequest) (db : repository.DB) : Invoice :=
  repository.with_joins None None
    (repository.invoice_columns E
       (repository.stamp_invoice (repository.next_invoice_id db) now'
          (service.new_invoice now user req))).

(** Every row of [invoices] points to a company and to a business partner
    of that same company. *)
Definition linked (db : repository.DB) : Prop :=
  forall i, In i (repository.invoices db) ->
    exists c p,
      repository.find_company db (i_CompanyID i) = Some c /\
      repository.find_business_partner db (i_BusinessPartnerID i) = Some p /\
      bp_CompanyID p = i_CompanyID i.

(** The condition of the store the calls keep. *)
Definition consistent (db : repository.DB) : Prop :=
  fresh_invoice_id db = true /\ fresh_business_partner_id db = true /\ linked db.

(** The calls that write to the tables of [repository.DB]. *)
(** [db'] is [db] with the row of the invoice that [userID] creates from
    [req] appended. *)
Definition invoice_inserted (E : repository.Engine) (now now' : Time) (userID : uint)
           (req : CreateInvoiceRequest) (db db' : repository.DB) : Prop :=
  exists user partner,
    repository.GetUserByID db userID = Ok user /\
    repository.GetBusinessPartnerByID db (BusinessPartnerID req) = Ok partner /\
    bp_CompanyID partner = u_CompanyID user /\
    db' = insert_invoice (invoice_row E now now' user req db) db.

Inductive Call : Type :=
| call_CreateInvoice (now now' : Time) (userID : uint) (req : CreateInvoiceRequest)
| call_CreateBusinessPartner (now : Time) (userID : uint) (partner : BusinessPartner)
| call_UpdateInvoiceStatus (now : Time) (id : uint) (status : InvoiceStatus).

(** The store after a call, failed or not. *)
Definition after_call (E : repository.Engine) (db : repository.DB) (c : Call)
  : repository.DB :=
  match c with
  | call_CreateInvoice now now' userID req =>
      snd (service.CreateInvoice E now now' userID req db)
  | call_CreateBusinessPartner now userID partner =>
      snd (service.CreateBusinessPartner now userID partner db)
  | call_UpdateInvoiceStatus now id status =>
      match repository.UpdateInvoiceStatus now id status db with
      | Ok (_, db') => db'
      | Err _ => db
      end
  end.

Definition after_calls (E : repository.Engine) (db : repository.DB) (cs : list Call)
  : repository.DB :=
  fold_left (after_call E) cs db.

(** The change [UpdateInvoiceStatus] makes to a row or to a joined
    invoice. *)
Definition update_status (id : uint) (status : InvoiceStatus) (now : Time) (i : Invoice)
  : Invoice :=
  if N.eqb (i_ID i) id then repository.set_status status now i else i.

(** The page a [page] parameter stands for: the positive integer it
    spells, and 1 otherwise. *)
Definition effective_page (s : string) : Z :=
  match strconv.Atoi s with
  | Some n => if 0 <? n then n else 1
  | None => 1
  end.

(** The limit a [limit] parameter stands for: the positive integer it
    spells, at most 100, and 20 otherwise. *)
Definition effective_limit (s : string) : Z :=
  match strconv.Atoi s with
  | Some n => if 0 <? n then Z.min n 100 else 20
  | None => 20
  end.

(** The AUTO_INCREMENT counter of [companies] lies above every identifier
    in the table. *)
Definition fresh_company_id (st : repository.Store) : bool :=
  forallb (fun c => N.ltb (c_ID c) (repository.next_company_id st))
          (repository.companies (repository.tables st)).

(** The company row a registration or [createCompany] writes. *)
Definition company_row (now : Time) (company : Company) (st : repository.Store) : Company :=
  repository.stamp_company (repository.next_company_id st) now company.

(** The user struct a registration ends with. *)
Definition registered_user (now now' : Time) (req : api.RegisterRequest) (hash : string)
           (st : repository.Store) : User :=
  {| u_ID := repository.next_user_id st;
     u_CompanyID := repository.next_company_id st;
     u_FullName := reg_FullName (api.rr_User req);
     u_Email := reg_Email (api.rr_User req);
     u_Password := hash;
     u_CreatedAt := now'; u_UpdatedAt := now';
     u_Company := Some (company_row now (api.rr_Company req) st) |}.

(** The five texts of a company are all present. *)
Definition company_present (c : Company) : Prop :=
  c_CorporateName c <> "" /\ c_Representative c <> "" /\
  c_PhoneNumber c <> "" /\ c_PostalCode c <> "" /\ c_Address c <> "".

(** The rows a listing pages through: the joined rows of the company that
    pass the filters, as server [E] selects them. *)
Definition selected (E : repository.Engine) (db : repository.DB) (companyID : uint)
           (req : GetInvoicesRequest) : list Invoice :=
  filter (repository.eval_where (repository.collation E)
            (repository.invoices_query companyID req))
         (repository.joined_invoices db).

(** Those rows in the one order that respects the ORDER BY list when no
    two of them are due on the same day. *)
Definition listed (E : repository.Engine) (db : repository.DB) (companyID : uint)
           (req : GetInvoicesRequest) : list Invoice :=
  repository.isort (repository.row_leb [(repository.col_payment_due_date, repository.DESC)])
                   (selected E db companyID req).

(** The invoices of page [page] of a listing; an error gives no invoice. *)
Definition page_of (E : repository.Engine) (userID : uint) (req : GetInvoicesRequest)
           (db : repository.DB) (page : Z) : list Invoice :=
  match fst (service.GetInvoices E userID (service.set_Page req page) db) with
  | Ok invoices => invoices
  | Err _ => []
  end.

(** *** The total in decimal arithmetic

    The float64 of an amount of [c] hundredths of a yen. *)
Definition cents (c : Z) : float64 := mysql.of_units mysql.DECIMAL_15_2 c.

(** For a payment of [c] hundredths of a yen, the sum of the payment, 4%
    of it as the fee and 10% of the fee as the tax, in hundred-thousandths of
    a yen: 1.044 times the payment, with no rounding. *)
Definition decimal_sum (c : Z) : Z := 1000 * c + 40 * c + 4 * c.

(** A number [n >= 0] of hundred-thousandths rounded to two decimal places,
    in hundredths: half away from zero, and half to even (banker's
    rounding). *)
Definition round_half_away (n : Z) : Z := (n + 500) / 1000.

Definition round_half_even (n : Z) : Z :=
  let q := n / 1000 in
  let r := n mod 1000 in
  if r <? 500 then q
  else if 500 <? r then q + 1
  else if Z.even q then q else q + 1.

(** The float64 of a whole amount of [p] yen. *)
Definition yen (p : Z) : float64 := PrimFloat.of_uint63 (Uint63.of_Z p).

(** The total for a payment of [p] yen, in hundredths of a yen: 104.4
    times [p], rounded half up. *)
Definition total_cents (p : Z) : Z := (1044 * p + 5) / 10.

(** The total [new_invoice] computes for [p] yen is the float64 of the
    exact total. *)
Definition total_exact (p : Z) : bool :=
  PrimFloat.Leibniz.eqb
    (math.Round ((yen p + yen p * 0.04 + yen p * 0.04 * 0.10) * 100) / 100)%float
    (yen (total_cents p) / 100)%float.

(** The payment of [p] yen and its exact total are numbers of the type of
    their columns. *)
Definition whole_yen_fixed (p : Z) : bool :=
  mysql.fixed mysql.DECIMAL_15_2 (yen p)
  && mysql.fixed mysql.DECIMAL_15_2 (yen (total_cents p) / 100)%float.

(** [f] holds of the [n] integers from [p] on. *)
Fixpoint all_from (f : Z -> bool) (n : nat) (p : Z) : bool :=
  match n with
  | O => true
  | S n' => f p && all_from f n' (p + 1)
  end.

(** * Properties *)

(** ** The sample servers *)

Section servers.

Import repository.

Lemma compare_rows_antisym (keys : list (Column * Direction)) (a b : Invoice) :
  compare_rows keys b a = CompOpp (compare_rows keys a b).
Proof.
  induction keys as [|[c d] keys IH]; simpl; [reflexivity|].
  rewrite (Z.compare_antisym (column_value c a) (column_value c b)).
  destruct (column_value c a ?= column_value c b), d; simpl; auto.
Qed.

Lemma row_leb_total (keys : list (Column * Direction)) (a b : Invoice) :
  row_leb keys a b = false -> row_leb keys b a = true.
Proof.
  unfold row_leb. rewrite (compare_rows_antisym keys a b).
  destruct (compare_rows keys a b); simpl; congruence.
Qed.

Lemma insert_perm (leb : Invoice -> Invoice -> bool) (x : Invoice) (l : list Invoice) :
  Permutation (x :: l) (insert leb x l).
Proof.
  induction l as [|y l IH]; simpl; [apply Permutation_refl|].
  destruct (leb x y); [apply Permutation_refl|].
  eapply perm_trans; [apply perm_swap|]. now apply perm_skip.
Qed.

Lemma isort_perm (leb : Invoice -> Invoice -> bool) (l : list Invoice) :
  Permutation l (isort leb l).
Proof.
  induction l as [|x l IH]; simpl; [constructor|].
  eapply perm_trans; [apply perm_skip, IH|apply insert_perm].
Qed.

Lemma insert_sorted (keys : list (Column * Direction)) (x : Invoice) (l : list Invoice) :
  Sorted (fun a b => row_leb keys a b = true) l ->
  Sorted (fun a b => row_leb keys a b = true) (insert (row_leb keys) x l).
Proof.
  induction 1 as [|y l Hl IH Hy]; simpl; [repeat constructor|].
  destruct (row_leb keys x y) eqn:Hxy.
  - repeat constructor; assumption.
  - constructor; [assumption|].
    destruct l as [|z l]; simpl in *.
    + constructor. now apply row_leb_total.
    + destruct (row_leb keys x z); constructor.
      * now apply row_leb_total.
      * now inversion Hy.
Qed.

Lemma isort_sorted (keys : list (Column * Direction)) (l : list Invoice) :
  Sorted (fun a b => row_leb keys a b = true) (isort (row_leb keys) l).
Proof.
  induction l as [|x l IH]; simpl; [constructor|]. now apply insert_sorted.
Qed.

Lemma stable_engine_conforming : conforming stable_engine.
Proof.
  intros keys limit offset l. split; [apply isort_perm|apply isort_sorted].
Qed.

Lemma reversing_engine_conforming : conforming reversing_engine.
Proof.
  intros keys limit offset l. cbn [order_by reversing_engine]. split.
  - eapply Permutation_trans; [apply Permutation_rev|apply isort_perm].
  - apply isort_sorted.
Qed.

Lemma paging_engine_conforming : conforming paging_engine.
Proof.
  intros keys limit offset l. cbn [order_by paging_engine].
  destruct (offset =? 0); split;
    try apply isort_perm; try apply isort_sorted.
  eapply Permutation_trans; [apply Permutation_rev|apply isort_perm].
Qed.

(** The stand-ins of [mysql] keep what the column types promise. *)
Lemma mysql_DECIMAL_fixed (ty : mysql.Decimal) (x : float64) :
  mysql.fixed ty (mysql.DECIMAL ty x) = true.
Proof.
  unfold mysql.DECIMAL. cbv zeta.
  destruct (Z.abs (mysql.units ty x) <? 10 ^ mysql.precision ty); cbn [andb];
    [destruct (mysql.fixed ty (mysql.of_units ty (mysql.units ty x))) eqn:Hf;
     [exact Hf|]|];
    destruct ty; vm_compute; reflexivity.
Qed.

Lemma mysql_DECIMAL_keeps (ty : mysql.Decimal) (x : float64) :
  mysql.fixed ty x = true -> mysql.DECIMAL ty x = x.
Proof.
  intros Hf. unfold mysql.DECIMAL. cbv zeta.
  pose proof Hf as Hf'. unfold mysql.fixed in Hf'. apply andb_prop in Hf'.
  destruct Hf' as [Hr Hy]. apply FloatAxioms.Leibniz.eqb_spec in Hy.
  rewrite Hr, Hy, Hf. reflexivity.
Qed.

Lemma mysql_DATE_mono (t u : Time) : t <= u -> mysql.DATE t <= mysql.DATE u.
Proof.
  intros Htu. unfold mysql.DATE. cbv zeta.
  assert (Hd : 0 < mysql.day) by (vm_compute; reflexivity).
  set (h := Second / 2).
  rewrite (Z.div_mod (t + h) mysql.day) at 1 by lia.
  rewrite (Z.div_mod (u + h) mysql.day) at 1 by lia.
  assert (Hle : t + h <= u + h) by lia.
  pose proof (Z.div_le_mono (t + h) (u + h) mysql.day Hd Hle). nia.
Qed.

Lemma mysql_storing
      (ob : list (Column * Direction) -> option Z -> Z -> list Invoice -> list Invoice)
      (eq : Collation) :
  storing {| order_by := ob; collation := eq;
             decimal := mysql.DECIMAL; date := mysql.DATE |}.
Proof.
  unfold storing. cbn [decimal date].
  split; [exact mysql_DECIMAL_keeps|].
  split; [exact mysql_DECIMAL_fixed|exact mysql_DATE_mono].
Qed.

Lemma stable_engine_storing : storing stable_engine.
Proof. apply mysql_storing. Qed.

End servers.

(** ** [math.Round] on sample values *)

Example Round_examples :
  math.Round 0.5 = 1%float /\
  math.Round (-0.5) = (-1)%float /\
  math.Round 1.5 = 2%float /\
  math.Round 2.5 = 3%float /\
  math.Round (-2.5) = (-3)%float /\
  math.Round 0.49999999999999994 = 0%float /\
  math.Round (-0.2) = (-0)%float /\
  math.Round 1288817.9999999998 = 1288818%float /\
  math.Round 4503599627370497 = 4503599627370497%float /\
  math.Round nan = nan /\
  math.Round infinity = infinity /\
  math.Round neg_infinity = neg_infinity.
Proof. repeat split; vm_compute; reflexivity. Qed.

(** The arithmetic [math.Round] above and the bit-level [math.Round_bits]
    agree on these values, the amounts of the examples below among them. *)
Example Round_bits_agrees :
  Forall (fun x => math.Round_bits x = math.Round x)
         [0.5; -0.5; 1.5; 2.5; -2.5; 0.49999999999999994; -0.2; 0; -0; 1; -1;
          130.5; -130.5; 1288817.9999999998; 104.4; 0.01; 5e-324; 1e300;
          4503599627370495.5; 4503599627370496; 4503599627370497;
          9007199254740991; infinity; neg_infinity; nan]%float.
Proof. repeat constructor. Qed.

(** ** Facts about the repository *)

Lemma find_flat_map_opt {A B : Type} (f : A -> option B) (p : B -> bool)
      (l : list A) (b : B) :
  find p (flat_map (fun a => match f a with Some j => [j] | None => [] end) l) = Some b ->
  exists a, In a l /\ f a = Some b /\ p b = true.
Proof.
  intros H. apply find_some in H. destruct H as [Hin Hp].
  apply in_flat_map in Hin. destruct Hin as [a [Ha Hb]].
  exists a. destruct (f a) as [j|]; simpl in Hb; [|contradiction].
  destruct Hb as [->|[]]. auto.
Qed.

(** A user the repository returns carries the columns of a [users] row and
    the company that row points to. *)
Lemma GetUserByID_inv (db : repository.DB) (id : uint) (user : User) :
  repository.GetUserByID db id = Ok user ->
  u_ID user = id /\
  exists c, repository.find_company db (u_CompanyID user) = Some c /\
            u_Company user = Some c.
Proof.
  unfold repository.GetUserByID, repository.joined_users. intros H.
  destruct (find _ _) as [u|] eqn:Hf; [|discriminate].
  injection H as ->.
  apply find_flat_map_opt in Hf. destruct Hf as [u0 [_ [Hj Hid]]].
  apply N.eqb_eq in Hid. split; [exact Hid|].
  unfold repository.join_user in Hj.
  destruct (repository.find_company db (u_CompanyID u0)) as [c|] eqn:Hc; [|discriminate].
  injection Hj as <-. simpl. eauto.
Qed.

Lemma GetBusinessPartnerByID_inv (db : repository.DB) (id : uint) (p : BusinessPartner) :
  repository.GetBusinessPartnerByID db id = Ok p ->
  repository.find_business_partner db id = Some p /\ bp_ID p = id.
Proof.
  unfold repository.GetBusinessPartnerByID, repository.find_business_partner.
  destruct (find _ _) as [q|] eqn:Hf; [|discriminate].
  intros H. injection H as ->. split; [reflexivity|].
  apply find_some in Hf. now apply N.eqb_eq.
Qed.

(** An invoice the repository returns carries the columns of an [invoices]
    row. *)
Lemma GetInvoiceByID_inv (db : repository.DB) (id : uint) (inv : Invoice) :
  repository.GetInvoiceByID db id = Ok inv ->
  i_ID inv = id /\
  exists row c p, In row (repository.invoices db) /\
                  inv = repository.with_joins (Some c) (Some p) row.
Proof.
  unfold repository.GetInvoiceByID, repository.joined_invoices. intros H.
  destruct (find _ _) as [j|] eqn:Hf; [|discriminate].
  injection H as ->.
  apply find_flat_map_opt in Hf. destruct Hf as [row [Hin [Hj Hid]]].
  apply N.eqb_eq in Hid. split; [exact Hid|].
  unfold repository.join_invoice in Hj.
  destruct (repository.find_company db _) as [c|]; [|discriminate].
  destruct (repository.find_business_partner db _) as [p|]; [|discriminate].
  injection Hj as <-. eauto.
Qed.

(** Unfolding of the store monad in service methods. *)
Ltac run_service :=
  unfold service.bind, service.or_wrap, service.query, service.exec,
         service.fail, service.ret, Errorf_w.

(** ** Invoice creation across tenants *)

(** C2. For every acting user and every create-invoice request that names
    an existing business partner of another company, [CreateInvoice] fails
    with the error "business partner does not belong to your company" and
    leaves the store unchanged: no invoice is persisted. *)
Theorem CreateInvoice_foreign_partner_rejected (E : repository.Engine)
        (now now' : Time) (userID : uint) (req : CreateInvoiceRequest)
        (db : repository.DB) (user : User) (partner : BusinessPartner) :
  repository.GetUserByID db userID = Ok user ->
  repository.GetBusinessPartnerByID db (BusinessPartnerID req) = Ok partner ->
  bp_CompanyID partner <> u_CompanyID user ->
  service.CreateInvoice E now now' userID req db
  = (Err "business partner does not belong to your company", db).
Proof.
  intros HU HP Hneq.
  unfold service.CreateInvoice. run_service.
  rewrite HU, HP.
  apply N.eqb_neq in Hneq. rewrite Hneq. reflexivity.
Qed.

Lemma CreateInvoice_foreign_partner_rejected_witness :
  service.CreateInvoice repository.stable_engine 0 0 1 (sample.request 3 12345) sample.db
  = (Err "business partner does not belong to your company", sample.db).
Proof.
  eapply CreateInvoice_foreign_partner_rejected.
  - reflexivity.
  - reflexivity.
  - simpl. discriminate.
Defined.

(** Through the handler that failure is answered 500
    "invoice_creation_failed" with the same message. *)
Example createInvoice_foreign_partner_response :
  api.createInvoice repository.stable_engine
                    sample.d_2024_01_15 sample.d_2024_01_15 sample.d_2024_01_15 1
                    (sample.request 3 12345) sample.db
  = ({| api.StatusCode := 500;
        api.ResponseBody :=
          api.ErrorResponse "invoice_creation_failed"
                            "business partner does not belong to your company" |},
     sample.db).
Proof. vm_compute. reflexivity. Qed.

(** ** Retrieval of one invoice *)

(** An invoice of another company: the error is "invoice not found". *)
Lemma GetInvoiceByID_foreign (userID invoiceID : uint) (db : repository.DB)
      (user : User) (invoice : Invoice) :
  repository.GetUserByID db userID = Ok user ->
  repository.GetInvoiceByID db invoiceID = Ok invoice ->
  i_CompanyID invoice <> u_CompanyID user ->
  service.GetInvoiceByID userID invoiceID db = (Err "invoice not found", db).
Proof.
  intros HU HI Hneq. unfold service.GetInvoiceByID. run_service.
  rewrite HU, HI. apply N.eqb_neq in Hneq. rewrite Hneq. reflexivity.
Qed.

(** No invoice with that identifier: the repository's "invoice not found"
    comes back wrapped. *)
Lemma GetInvoiceByID_absent (userID invoiceID : uint) (db : repository.DB) (user : User) :
  repository.GetUserByID db userID = Ok user ->
  repository.GetInvoiceByID db invoiceID = Err "invoice not found" ->
  service.GetInvoiceByID userID invoiceID db
  = (Err "invoice not found: invoice not found", db).
Proof.
  intros HU HI. unfold service.GetInvoiceByID. run_service.
  rewrite HU, HI. reflexivity.
Qed.

(** Whatever the database, a foreign invoice and a missing one are told
    apart by the error they produce. *)
Lemma GetInvoiceByID_foreign_distinguishable
      (userID invoiceID invoiceID' : uint) (db : repository.DB)
      (user : User) (invoice : Invoice) :
  repository.GetUserByID db userID = Ok user ->
  repository.GetInvoiceByID db invoiceID = Ok invoice ->
  i_CompanyID invoice <> u_CompanyID user ->
  repository.GetInvoiceByID db invoiceID' = Err "invoice not found" ->
  service.GetInvoiceByID userID invoiceID db <> service.GetInvoiceByID userID invoiceID' db.
Proof.
  intros HU HI Hneq HI'.
  rewrite (GetInvoiceByID_foreign _ _ _ _ _ HU HI Hneq).
  rewrite (GetInvoiceByID_absent _ _ _ _ HU HI').
  discriminate.
Qed.

(** C3. In the sample database Alice (user 1, company 1) asks for invoice 3,
    which belongs to company 2, and for invoice 99999, which does not exist.
    Both calls fail and both answers are 404 "invoice_not_found", but the
    error messages differ, so the caller can tell a foreign invoice from a
    missing one. *)
Theorem GetInvoiceByID_foreign_vs_absent :
  fst (service.GetInvoiceByID 1 3 sample.db) = Err "invoice not found" /\
  fst (service.GetInvoiceByID 1 99999 sample.db)
  = Err "invoice not found: invoice not found" /\
  fst (service.GetInvoiceByID 1 3 sample.db)
  <> fst (service.GetInvoiceByID 1 99999 sample.db) /\
  api.StatusCode (api.getInvoiceByID 1 3 sample.db) = 404 /\
  api.StatusCode (api.getInvoiceByID 1 99999 sample.db) = 404 /\
  api.getInvoiceByID 1 3 sample.db <> api.getInvoiceByID 1 99999 sample.db.
Proof.
  assert (H1 : service.GetInvoiceByID 1 3 sample.db
               = (Err "invoice not found", sample.db))
    by (eapply GetInvoiceByID_foreign; [reflexivity|reflexivity|simpl; discriminate]).
  assert (H2 : service.GetInvoiceByID 1 99999 sample.db
               = (Err "invoice not found: invoice not found", sample.db))
    by (eapply GetInvoiceByID_absent; reflexivity).
  unfold api.getInvoiceByID. rewrite H1, H2. simpl.
  repeat split; discriminate.
Qed.

(** ** Creation of business partners *)

(** C10. For every acting user that exists and every business partner
    struct, [CreateBusinessPartner] succeeds, appends one row to
    [business_partners] whose [company_id] is the acting user's, and gives
    the same outcome whatever [CompanyID] the caller had put in the struct. *)
Theorem CreateBusinessPartner_company_overwritten
        (now : Time) (userID : uint) (partner : BusinessPartner)
        (db : repository.DB) (user : User) :
  repository.GetUserByID db userID = Ok user ->
  exists row db',
    service.CreateBusinessPartner now userID partner db = (Ok row, db') /\
    bp_CompanyID row = u_CompanyID user /\
    repository.business_partners db' = (repository.business_partners db ++ [row])%list /\
    repository.invoices db' = repository.invoices db /\
    forall companyID : uint,
      service.CreateBusinessPartner now userID (service.set_CompanyID partner companyID) db
      = service.CreateBusinessPartner now userID partner db.
Proof.
  intros HU. destruct (GetUserByID_inv _ _ _ HU) as [_ [c [Hc _]]].
  unfold service.CreateBusinessPartner. run_service. rewrite HU.
  unfold repository.CreateBusinessPartner. simpl. rewrite Hc.
  eexists. eexists. repeat split.
Qed.

Lemma CreateBusinessPartner_company_overwritten_witness :
  exists row db',
    service.CreateBusinessPartner sample.d_2024_01_15 1 sample.supplier_corp sample.db
    = (Ok row, db') /\
    bp_CompanyID row = 1%N.
Proof.
  destruct (CreateBusinessPartner_company_overwritten
              sample.d_2024_01_15 1 sample.supplier_corp sample.db sample.alice eq_refl)
    as [row [db' [H1 [H2 _]]]].
  exists row, db'. split; assumption.
Defined.

(** ** Invoice creation: the amounts *)

Lemma find_none_of_all_false {A : Type} (p : A -> bool) (l : list A) :
  (forall x, In x l -> p x = false) -> find p l = None.
Proof.
  induction l as [|a l IH]; simpl; intros H; [reflexivity|].
  rewrite (H a (or_introl eq_refl)). apply IH. intros x Hx. apply H. now right.
Qed.

Lemma find_app_none {A : Type} (p : A -> bool) (l1 l2 : list A) :
  find p l1 = None -> find p (l1 ++ l2) = find p l2.
Proof.
  induction l1 as [|a l1 IH]; simpl; [reflexivity|].
  destruct (p a); [discriminate|exact IH].
Qed.

(** Reading back the row that was just inserted under a fresh identifier. *)
Lemma GetInvoiceByID_inserted (db : repository.DB) (row : Invoice)
      (c : Company) (p : BusinessPartner) :
  fresh_invoice_id db = true ->
  i_ID row = repository.next_invoice_id db ->
  repository.find_company db (i_CompanyID row) = Some c ->
  repository.find_business_partner db (i_BusinessPartnerID row) = Some p ->
  repository.GetInvoiceByID (insert_invoice row db) (i_ID row)
  = Ok (repository.with_joins (Some c) (Some p) row).
Proof.
  intros Hfresh Hid Hc Hp.
  unfold repository.GetInvoiceByID, repository.joined_invoices, insert_invoice.
  cbn [repository.invoices]. rewrite flat_map_app, find_app_none.
  - cbn [flat_map]. unfold repository.join_invoice at 1.
    unfold repository.find_company, repository.find_business_partner in *.
    cbn [repository.companies repository.business_partners].
    rewrite Hc, Hp. cbn. rewrite N.eqb_refl. reflexivity.
  - apply find_none_of_all_false. intros j Hj.
    apply in_flat_map in Hj. destruct Hj as [i [Hi Hj]].
    unfold repository.join_invoice in Hj.
    destruct (repository.find_company _ (i_CompanyID i)); [|contradiction].
    destruct (repository.find_business_partner _ (i_BusinessPartnerID i)); [|contradiction].
    destruct Hj as [<-|[]]. cbn.
    unfold fresh_invoice_id in Hfresh. rewrite forallb_forall in Hfresh.
    specialize (Hfresh i Hi). apply N.ltb_lt in Hfresh.
    apply N.eqb_neq. rewrite Hid. lia.
Qed.

(** Invoice creation for a partner of the acting user's own company: the
    struct of [new_invoice] is inserted under the next identifier, and what
    the columns keep of it is read back with its company and partner
    joined. *)
Lemma CreateInvoice_ok (E : repository.Engine) (now now' : Time) (userID : uint)
      (req : CreateInvoiceRequest)
      (db : repository.DB) (user : User) (partner : BusinessPartner) :
  repository.GetUserByID db userID = Ok user ->
  repository.GetBusinessPartnerByID db (BusinessPartnerID req) = Ok partner ->
  bp_CompanyID partner = u_CompanyID user ->
  fresh_invoice_id db = true ->
  let invoice :=
    repository.stamp_invoice (repository.next_invoice_id db) now'
                             (service.new_invoice now user req) in
  service.CreateInvoice E now now' userID req db
  = (Ok (repository.with_joins (u_Company user) (Some partner)
                               (repository.invoice_columns E invoice)),
     insert_invoice (repository.with_joins None None
                                           (repository.invoice_columns E invoice)) db).
Proof.
  intros HU HP Heq Hfresh invoice.
  destruct (GetUserByID_inv _ _ _ HU) as [_ [c [Hc HuC]]].
  destruct (GetBusinessPartnerByID_inv _ _ _ HP) as [Hp _].
  unfold service.CreateInvoice. run_service.
  rewrite HU, HP, Heq, N.eqb_refl. cbn [negb].
  unfold repository.CreateInvoice.
  cbn [service.new_invoice i_CompanyID i_BusinessPartnerID].
  rewrite Hc, Hp.
  pose proof (GetInvoiceByID_inserted
                db (repository.with_joins None None (repository.invoice_columns E invoice))
                c partner Hfresh eq_refl Hc Hp) as Hget.
  subst invoice.
  cbn [i_ID repository.with_joins repository.invoice_columns repository.stamp_invoice]
    in Hget.
  unfold insert_invoice in *. cbn [i_ID repository.stamp_invoice].
  rewrite Hget, HuC. reflexivity.
Qed.

(** The counter stays above the identifiers: after an insertion by the
    repository, and after any call of [CreateInvoice], failed or not. *)
Lemma insert_invoice_fresh (row : Invoice) (db : repository.DB) :
  fresh_invoice_id db = true ->
  i_ID row = repository.next_invoice_id db ->
  fresh_invoice_id (insert_invoice row db) = true.
Proof.
  unfold fresh_invoice_id, insert_invoice. cbn [repository.invoices repository.next_invoice_id].
  intros Hfresh Hid. rewrite forallb_app. apply andb_true_intro. split.
  - rewrite forallb_forall in *. intros i Hi. specialize (Hfresh i Hi).
    apply N.ltb_lt in Hfresh. apply N.ltb_lt. lia.
  - cbn. rewrite Hid, andb_true_r. apply N.ltb_lt. lia.
Qed.

Lemma repository_CreateInvoice_fresh (E : repository.Engine) (now : Time)
      (invoice invoice' : Invoice)
      (db db' : repository.DB) :
  fresh_invoice_id db = true ->
  repository.CreateInvoice E now invoice db = Ok (invoice', db') ->
  fresh_invoice_id db' = true.
Proof.
  unfold repository.CreateInvoice. intros Hfresh.
  destruct (repository.find_company db _); [|discriminate].
  destruct (repository.find_business_partner db _); [|discriminate].
  intros H. injection H as _ <-.
  now apply (insert_invoice_fresh _ db Hfresh).
Qed.

Lemma CreateInvoice_preserves_fresh (E : repository.Engine) (now now' : Time) (userID : uint)
      (req : CreateInvoiceRequest) (db : repository.DB) :
  fresh_invoice_id db = true ->
  fresh_invoice_id (snd (service.CreateInvoice E now now' userID req db)) = true.
Proof.
  intros Hfresh. unfold service.CreateInvoice. run_service.
  destruct (repository.GetUserByID db userID) as [user|]; [|exact Hfresh].
  destruct (repository.GetBusinessPartnerByID db _) as [partner|]; [|exact Hfresh].
  destruct (negb _); [exact Hfresh|].
  destruct (repository.CreateInvoice E now' _ db) as [[invoice db']|] eqn:Hins;
    [|exact Hfresh].
  apply (repository_CreateInvoice_fresh _ _ _ _ _ _ Hfresh) in Hins.
  destruct (repository.GetInvoiceByID db' _); exact Hins.
Qed.

Lemma sample_db_fresh : fresh_invoice_id sample.db = true.
Proof. reflexivity. Qed.

(** What a server that keeps the column types' promises reads back of a
    float64 that is already a number of the column's type. *)
Ltac kept Hst :=
  match goal with
  | |- repository.decimal _ _ ?x = _ =>
      let v := eval vm_compute in x in
      replace x with v by (vm_compute; reflexivity);
      apply (proj1 Hst); vm_compute; reflexivity
  end.

(** C1. Creating an invoice for a partner of the acting user's own company
    succeeds, on every server that keeps the promises of its column types.
    For a payment amount of 12345 the invoice returned has fee 493.8, tax
    49.38 and total 12888.18, as claimed.  For a payment amount of 28.75 the
    invoice returned has the total 30.01, although the sum
    28.75 + 1.15 + 0.115 = 30.015 rounded to two decimal places is 30.02,
    half away from zero and half to even alike: the two float64 additions
    end below 30.015, so [math.Round] sees a value below 3001.5. *)
Theorem CreateInvoice_total_28_75 (E : repository.Engine)
        (now now' : Time) (userID : uint) (req : CreateInvoiceRequest)
        (db : repository.DB) (user : User) (partner : BusinessPartner) :
  repository.storing E ->
  repository.GetUserByID db userID = Ok user ->
  repository.GetBusinessPartnerByID db (BusinessPartnerID req) = Ok partner ->
  bp_CompanyID partner = u_CompanyID user ->
  fresh_invoice_id db = true ->
  exists invoice db',
    service.CreateInvoice E now now' userID req db = (Ok invoice, db') /\
    (PaymentAmount req = 12345%float ->
     i_Fee invoice = 493.8%float /\
     i_ConsumptionTax invoice = 49.38%float /\
     i_InvoiceAmount invoice = 12888.18%float) /\
    (PaymentAmount req = 28.75%float ->
     i_InvoiceAmount invoice = 30.01%float /\
     28.75%float = cents 2875 /\
     decimal_sum 2875 = 3001500 /\
     round_half_away (decimal_sum 2875) = 3002 /\
     round_half_even (decimal_sum 2875) = 3002 /\
     30.01%float = cents 3001 /\
     cents 3001 <> cents 3002).
Proof.
  intros Hst HU HP Heq Hfresh.
  eexists. eexists. split; [apply (CreateInvoice_ok E now now' _ _ _ _ _ HU HP Heq Hfresh)|].
  cbn [i_Fee i_ConsumptionTax i_InvoiceAmount repository.with_joins
       repository.invoice_columns repository.stamp_invoice service.new_invoice].
  split; intros H; rewrite H.
  - split; [kept Hst|]. split; kept Hst.
  - split; [kept Hst|].
    repeat (split; [vm_compute; reflexivity|]).
    vm_compute. discriminate.
Qed.

Lemma CreateInvoice_total_28_75_witness :
  exists invoice db',
    service.CreateInvoice repository.stable_engine sample.d_2024_01_15 sample.d_2024_01_15 1
                          (sample.request 1 28.75) sample.db = (Ok invoice, db') /\
    i_InvoiceAmount invoice = 30.01%float /\
    round_half_away (decimal_sum 2875) = 3002 /\
    round_half_even (decimal_sum 2875) = 3002.
Proof.
  destruct (CreateInvoice_total_28_75
              repository.stable_engine sample.d_2024_01_15 sample.d_2024_01_15 1
              (sample.request 1 28.75) sample.db sample.alice sample.supplier_a
              stable_engine_storing eq_refl eq_refl eq_refl eq_refl)
    as [invoice [db' [Hrun [_ H]]]].
  exists invoice, db'. split; [exact Hrun|].
  destruct (H eq_refl) as [H1 [_ [_ [H2 [H3 _]]]]].
  split; [exact H1|]. split; assumption.
Defined.

(** ** Invoice creation: the rounding rule *)

Lemma half_step (m d h : Z) :
  0 < h -> d = 2 * h -> m mod d = h -> (m + d / 2) / d = m / d + 1.
Proof.
  intros Hh -> Hm.
  replace (2 * h / 2) with h by (symmetry; rewrite Z.mul_comm; apply Z.div_mul; lia).
  rewrite (Z.div_mod m (2 * h)) at 1 by lia. rewrite Hm.
  replace (2 * h * (m / (2 * h)) + h + h) with ((m / (2 * h) + 1) * (2 * h)) by ring.
  apply Z.div_mul. lia.
Qed.

Lemma half_step_even (m d h : Z) :
  0 < h -> d = 2 * h -> m mod d = h -> (d <? 2 * (m mod d)) = false /\ (2 * (m mod d) =? d) = true.
Proof.
  intros Hh -> ->. split; [apply Z.ltb_ge; lia|apply Z.eqb_eq; lia].
Qed.

(** On a half-way value [math.Round] steps to the next integer away from
    zero. *)
Lemma Round_half_way (x : float64) :
  half_way x = true ->
  math.Round x = signed_integer (sign_bit x) (integer_part x + 1).
Proof.
  unfold half_way, math.Round, integer_part, sign_bit.
  destruct (Prim2SF x) as [| | |s m e]; try discriminate.
  intros H. apply andb_prop in H. destruct H as [He Hm].
  apply Z.ltb_lt in He. apply Z.eqb_eq in Hm.
  replace (0 <=? e) with false by (symmetry; apply Z.leb_gt; exact He).
  replace (e <? 0) with true by (symmetry; apply Z.ltb_lt; exact He).
  assert (Hpow : 2 ^ (- e) = 2 * 2 ^ (- e - 1)).
  { replace (- e) with (Z.succ (- e - 1)) at 1 by lia. apply Z.pow_succ_r. lia. }
  assert (Hh : 0 < 2 ^ (- e - 1)) by (apply Z.pow_pos_nonneg; lia).
  rewrite (half_step (Zpos m) (2 ^ (- e)) (2 ^ (- e - 1)) Hh Hpow Hm).
  reflexivity.
Qed.

(** On a half-way value above an even integer, banker's rounding would
    step down to that integer instead. *)
Lemma RoundToEven_half_way (x : float64) :
  half_way x = true ->
  Z.even (integer_part x) = true ->
  math.RoundToEven x = signed_integer (sign_bit x) (integer_part x).
Proof.
  unfold half_way, math.RoundToEven, integer_part, sign_bit.
  destruct (Prim2SF x) as [| | |s m e]; try discriminate.
  intros H. apply andb_prop in H. destruct H as [He Hm].
  apply Z.ltb_lt in He. apply Z.eqb_eq in Hm.
  replace (0 <=? e) with false by (symmetry; apply Z.leb_gt; exact He).
  replace (e <? 0) with true by (symmetry; apply Z.ltb_lt; exact He).
  assert (Hpow : 2 ^ (- e) = 2 * 2 ^ (- e - 1)).
  { replace (- e) with (Z.succ (- e - 1)) at 1 by lia. apply Z.pow_succ_r. lia. }
  assert (Hh : 0 < 2 ^ (- e - 1)) by (apply Z.pow_pos_nonneg; lia).
  destruct (half_step_even (Zpos m) _ _ Hh Hpow Hm) as [H1 H2].
  cbv zeta. rewrite H1, H2. intros ->. reflexivity.
Qed.

(** For a payment of 1 yen the service computes the tax 0.04 * 0.10, a
    float64 next to 0.004, and hands it to the INSERT; column
    [consumption_tax DECIMAL(15,2)] keeps 0.00 of it, and that is the tax of
    the invoice stored and returned. *)
Lemma CreateInvoice_tax_stored_rounded :
  exists invoice db',
    service.CreateInvoice repository.stable_engine sample.d_2024_01_15 sample.d_2024_01_15 1
                          (sample.request 1 1) sample.db = (Ok invoice, db') /\
    In (repository.with_joins None None invoice) (repository.invoices db') /\
    i_Fee (service.new_invoice sample.d_2024_01_15 sample.alice (sample.request 1 1))
    = (1 * 0.04)%float /\
    i_ConsumptionTax (service.new_invoice sample.d_2024_01_15 sample.alice (sample.request 1 1))
    = (1 * 0.04 * 0.10)%float /\
    (0.0039 <? 1 * 0.04 * 0.10)%float = true /\
    i_ConsumptionTax invoice = 0%float.
Proof.
  eexists. eexists. split; [vm_compute; reflexivity|].
  split; [right; right; right; left; reflexivity|].
  repeat split.
Qed.

(** C9, as the code has it.  For every payment amount, [math.Round] is
    applied to the total alone, scaled by 100: whenever that float64 product
    lies exactly half way between two integers, the invoice amount handed to
    the INSERT is the next whole cent away from zero, divided by 100.  The fee
    and the tax are handed to the INSERT as the unrounded float64 products
    (the tax computed from the unrounded fee), and the invoice stored and
    returned holds what the DECIMAL(15,2) columns keep of the three values:
    on a server that keeps the promises of its column types, numbers with two
    decimal places. *)
Theorem CreateInvoice_rounds_half_away_from_zero (E : repository.Engine)
        (now now' : Time) (userID : uint) (req : CreateInvoiceRequest)
        (db : repository.DB) (user : User) (partner : BusinessPartner) :
  repository.GetUserByID db userID = Ok user ->
  repository.GetBusinessPartnerByID db (BusinessPartnerID req) = Ok partner ->
  bp_CompanyID partner = u_CompanyID user ->
  fresh_invoice_id db = true ->
  exists invoice db',
    service.CreateInvoice E now now' userID req db = (Ok invoice, db') /\
    In (repository.with_joins None None invoice) (repository.invoices db') /\
    let fee := (PaymentAmount req * 0.04)%float in
    let tax := (fee * 0.10)%float in
    let scaled := ((PaymentAmount req + fee + tax) * 100)%float in
    let stored := repository.decimal E mysql.DECIMAL_15_2 in
    i_Fee invoice = stored fee /\
    i_ConsumptionTax invoice = stored tax /\
    i_InvoiceAmount invoice = stored (math.Round scaled / 100)%float /\
    (half_way scaled = true ->
     i_InvoiceAmount invoice
     = stored (signed_integer (sign_bit scaled) (integer_part scaled + 1) / 100)%float) /\
    (repository.storing E ->
     mysql.fixed mysql.DECIMAL_15_2 (i_Fee invoice) = true /\
     mysql.fixed mysql.DECIMAL_15_2 (i_ConsumptionTax invoice) = true /\
     mysql.fixed mysql.DECIMAL_15_2 (i_InvoiceAmount invoice) = true).
Proof.
  intros HU HP Heq Hfresh.
  eexists. eexists. split; [apply (CreateInvoice_ok E now now' _ _ _ _ _ HU HP Heq Hfresh)|].
  split; [cbn; apply in_or_app; right; left; reflexivity|].
  cbn [i_Fee i_ConsumptionTax i_InvoiceAmount repository.with_joins
       repository.invoice_columns repository.stamp_invoice service.new_invoice].
  cbv zeta.
  repeat (split; [reflexivity|]).
  split.
  - intros Hhalf. rewrite (Round_half_way _ Hhalf). reflexivity.
  - intros [_ [Hfixed _]]. repeat split; apply Hfixed.
Qed.

(** At 1.25 the scaled total is 130.5 and the invoice amount 1.31, where
    banker's rounding would have given 1.30; at -1.25 the scaled total is
    -130.5 and the invoice amount -1.31. *)
Lemma CreateInvoice_rounds_half_away_from_zero_witness :
  (exists invoice db',
      service.CreateInvoice repository.stable_engine 0 0 1 (sample.request 1 1.25) sample.db
      = (Ok invoice, db') /\
      ((1.25 + 1.25 * 0.04 + 1.25 * 0.04 * 0.10) * 100)%float = 130.5%float /\
      i_InvoiceAmount invoice = 1.31%float /\
      (math.RoundToEven 130.5 / 100)%float = 1.30%float) /\
  (exists invoice db',
      service.CreateInvoice repository.stable_engine 0 0 1 (sample.request 1 (-1.25)) sample.db
      = (Ok invoice, db') /\
      ((-1.25 + -1.25 * 0.04 + -1.25 * 0.04 * 0.10) * 100)%float = (-130.5)%float /\
      i_InvoiceAmount invoice = (-1.31)%float).
Proof.
  split.
  - destruct (CreateInvoice_rounds_half_away_from_zero
                repository.stable_engine 0 0 1 (sample.request 1 1.25)
                sample.db sample.alice sample.supplier_a eq_refl eq_refl eq_refl eq_refl)
      as [invoice [db' [Hrun [_ [_ [_ [_ [Hhalf _]]]]]]]].
    exists invoice, db'. split; [exact Hrun|].
    split; [vm_compute; reflexivity|].
    split; [|vm_compute; reflexivity].
    rewrite Hhalf; vm_compute; reflexivity.
  - destruct (CreateInvoice_rounds_half_away_from_zero
                repository.stable_engine 0 0 1 (sample.request 1 (-1.25))
                sample.db sample.alice sample.supplier_a eq_refl eq_refl eq_refl eq_refl)
      as [invoice [db' [Hrun [_ [_ [_ [_ [Hhalf _]]]]]]]].
    exists invoice, db'. split; [exact Hrun|].
    split; [vm_compute; reflexivity|].
    rewrite Hhalf; vm_compute; reflexivity.
Defined.

(** ** Validation of create-invoice requests *)

(** The service creates an invoice for a payment amount of 0 and for one of
    -1000: it does not look at the sign of the amount. *)
Lemma CreateInvoice_accepts_nonpositive_amount :
  (exists invoice db',
     service.CreateInvoice repository.stable_engine 0 0 1 (sample.request 1 0) sample.db
     = (Ok invoice, db') /\
     i_PaymentAmount invoice = 0%float /\
     List.length (repository.invoices db') = 4%nat) /\
  (exists invoice db',
     service.CreateInvoice repository.stable_engine 0 0 1 (sample.request 1 (-1000)) sample.db
     = (Ok invoice, db') /\
     i_PaymentAmount invoice = (-1000)%float /\
     List.length (repository.invoices db') = 4%nat).
Proof.
  split; eexists; eexists; (split; [vm_compute; reflexivity|split; reflexivity]).
Qed.

Lemma binding_rejects_nonpositive (req : CreateInvoiceRequest) :
  (0 <? PaymentAmount req)%float = false ->
  exists msg, api.ShouldBindJSON req = Some msg.
Proof.
  intros Hpos. unfold api.ShouldBindJSON, api.binding_CreateInvoiceRequest.
  rewrite Hpos.
  destruct (N.eqb (BusinessPartnerID req) 0); [cbn [app]; eauto|].
  destruct (PaymentAmount req =? 0)%float; cbn [app]; eauto.
Qed.

Lemma positive_not_zero (x : float64) :
  (0 <? x)%float = true -> (x =? 0)%float = false.
Proof.
  rewrite ltb_spec, eqb_spec.
  replace (Prim2SF 0) with (S754_zero false) by reflexivity.
  unfold SFltb, SFeqb, SFcompare.
  destruct (Prim2SF x) as [s|s| |s m e].
  - destruct s; discriminate.
  - destruct s; [discriminate|reflexivity].
  - discriminate.
  - destruct s; [discriminate|reflexivity].
Qed.

(** C5, as the code has it.  The check [paymentAmount > 0] is the [gt=0]
    binding of the request, applied by the HTTP handler before the service is
    called: for every request whose payment amount is not greater than 0
    (zero and every negative amount) the handler answers 400
    "validation_error" and leaves the store unchanged; a request with a
    payment amount greater than 0, such as 0.01, a business partner id and a
    due date passes the binding.  The service itself creates the invoice
    whatever the payment amount, and the invoice returned holds what column
    [payment_amount] keeps of it. *)
Theorem createInvoice_binding_validates_amount (E : repository.Engine) :
  (forall (now0 now now' : Time) (userID : uint) (req : CreateInvoiceRequest)
          (db : repository.DB),
      (0 <? PaymentAmount req)%float = false ->
      exists msg,
        api.createInvoice E now0 now now' userID req db
        = ({| api.StatusCode := 400;
              api.ResponseBody := api.ErrorResponse "validation_error" msg |}, db)) /\
  (forall req : CreateInvoiceRequest,
      (0 <? PaymentAmount req)%float = true ->
      BusinessPartnerID req <> 0%N ->
      PaymentDueDate req <> 0 ->
      api.ShouldBindJSON req = None) /\
  (0 <? 0.01)%float = true /\
  (forall (now now' : Time) (userID : uint) (req : CreateInvoiceRequest)
          (db : repository.DB) (user : User) (partner : BusinessPartner),
      repository.GetUserByID db userID = Ok user ->
      repository.GetBusinessPartnerByID db (BusinessPartnerID req) = Ok partner ->
      bp_CompanyID partner = u_CompanyID user ->
      fresh_invoice_id db = true ->
      exists invoice db',
        service.CreateInvoice E now now' userID req db = (Ok invoice, db') /\
        i_PaymentAmount invoice
        = repository.decimal E mysql.DECIMAL_15_2 (PaymentAmount req)).
Proof.
  split; [|split; [|split]].
  - intros now0 now now' userID req db Hpos.
    destruct (binding_rejects_nonpositive req Hpos) as [msg Hmsg].
    exists msg. unfold api.createInvoice. rewrite Hmsg. reflexivity.
  - intros req Hamount Hbp Hdue.
    unfold api.ShouldBindJSON, api.binding_CreateInvoiceRequest.
    apply N.eqb_neq in Hbp. apply Z.eqb_neq in Hdue.
    rewrite Hamount, (positive_not_zero _ Hamount), Hbp, Hdue. reflexivity.
  - reflexivity.
  - intros now now' userID req db user partner HU HP Heq Hfresh.
    eexists. eexists.
    split; [apply (CreateInvoice_ok E now now' _ _ _ _ _ HU HP Heq Hfresh)|reflexivity].
Qed.

Lemma createInvoice_binding_validates_amount_witness :
  (exists msg,
      api.createInvoice repository.stable_engine 0 0 0 1 (sample.request 1 0) sample.db
      = ({| api.StatusCode := 400;
            api.ResponseBody := api.ErrorResponse "validation_error" msg |}, sample.db)) /\
  (exists msg,
      api.createInvoice repository.stable_engine 0 0 0 1 (sample.request 1 (-1000)) sample.db
      = ({| api.StatusCode := 400;
            api.ResponseBody := api.ErrorResponse "validation_error" msg |}, sample.db)) /\
  api.ShouldBindJSON (sample.request 1 0.01) = None /\
  api.StatusCode (fst (api.createInvoice repository.stable_engine 0 0 0 1
                                         (sample.request 1 0.01) sample.db)) = 200 /\
  (exists invoice db',
      service.CreateInvoice repository.stable_engine 0 0 1 (sample.request 1 (-1000)) sample.db
     = (Ok invoice, db') /\
      i_PaymentAmount invoice = (-1000)%float).
Proof.
  destruct (createInvoice_binding_validates_amount repository.stable_engine)
    as [Hreject [Haccept [_ Hservice]]].
  split; [apply Hreject; reflexivity|].
  split; [apply Hreject; reflexivity|].
  split; [apply Haccept; [reflexivity|discriminate|discriminate]|].
  split; [vm_compute; reflexivity|].
  destruct (Hservice 0 0 1%N (sample.request 1 (-1000)) sample.db sample.alice
              sample.supplier_a eq_refl eq_refl eq_refl eq_refl)
    as [invoice [db' [Hrun Hamount]]].
  exists invoice, db'. split; [exact Hrun|].
  rewrite Hamount. vm_compute. reflexivity.
Defined.

(** A due date before [now] is refused. *)
Lemma ValidatePaymentDueDate_past (now dueDate : Time) :
  dueDate < now ->
  ValidatePaymentDueDate now dueDate = Some "payment due date must be in the future".
Proof.
  intros H. unfold ValidatePaymentDueDate, Before.
  apply Z.ltb_lt in H. rewrite H. reflexivity.
Qed.

(** A due date after [now], by a second or by any other amount, is accepted. *)
Lemma ValidatePaymentDueDate_future (now dueDate : Time) :
  now < dueDate -> ValidatePaymentDueDate now dueDate = None.
Proof.
  intros H. unfold ValidatePaymentDueDate, Before.
  replace (dueDate <? now) with false by (symmetry; apply Z.ltb_ge; lia).
  reflexivity.
Qed.

Lemma ValidatePaymentDueDate_one_second_ahead (now : Time) :
  ValidatePaymentDueDate now (now + Second) = None.
Proof. apply ValidatePaymentDueDate_future. unfold Second. lia. Qed.

(** C6. A due date equal to the instant [time.Now()] returns during the
    check is accepted: [Before] is strict.  In the sample database a request
    due at the very instant of its validation is bound, validated and
    answered 200. *)
Theorem ValidatePaymentDueDate_accepts_now :
  (forall now : Time, ValidatePaymentDueDate now now = None) /\
  (forall (now : Time) (req : CreateInvoiceRequest),
      PaymentDueDate req = now -> Validate now req = None) /\
  api.StatusCode
    (fst (api.createInvoice repository.stable_engine
                            sample.d_2024_02_25 sample.d_2024_02_25 sample.d_2024_02_25 1
            (sample.request 1 10000) sample.db)) = 200.
Proof.
  assert (H : forall now : Time, ValidatePaymentDueDate now now = None).
  { intros now. unfold ValidatePaymentDueDate, Before. rewrite Z.ltb_irrefl. reflexivity. }
  split; [exact H|]. split.
  - intros now req Hdue. unfold Validate. rewrite Hdue, H. reflexivity.
  - vm_compute. reflexivity.
Qed.

(** ** Listing of invoices *)

Lemma default_pagination_filters (req : GetInvoicesRequest) :
  StartDate (service.default_pagination req) = StartDate req /\
  EndDate (service.default_pagination req) = EndDate req /\
  Status (service.default_pagination req) = Status req.
Proof.
  unfold service.default_pagination.
  destruct (Page req <? 1); cbn;
    destruct (Limit req <? 1); cbn;
    try destruct (100 <? 20); try destruct (100 <? Limit req); cbn; auto.
Qed.

Lemma default_pagination_Page (req : GetInvoicesRequest) :
  Page (service.default_pagination req) = (if Page req <? 1 then 1 else Page req).
Proof.
  unfold service.default_pagination.
  destruct (Page req <? 1); cbn;
    destruct (Limit req <? 1); cbn;
    try destruct (100 <? 20); try destruct (100 <? Limit req); cbn; auto.
Qed.

Lemma default_pagination_Limit (req : GetInvoicesRequest) :
  Limit (service.default_pagination req)
  = (if Limit req <? 1 then 20 else if 100 <? Limit req then 100 else Limit req).
Proof.
  unfold service.default_pagination.
  destruct (Page req <? 1); cbn;
    destruct (Limit req <? 1); cbn;
    try change (100 <? 20) with false; cbn;
    try destruct (100 <? Limit req); cbn; auto.
Qed.

Lemma default_pagination_bounds (req : GetInvoicesRequest) :
  1 <= Page (service.default_pagination req) /\
  1 <= Limit (service.default_pagination req) <= 100.
Proof.
  rewrite default_pagination_Page, default_pagination_Limit.
  destruct (Page req <? 1) eqn:HP; destruct (Limit req <? 1) eqn:HL;
    try destruct (100 <? Limit req) eqn:HL';
    rewrite ?Z.ltb_lt, ?Z.ltb_ge in *; lia.
Qed.

(** What the service returns is what the query of the normalized request
    returns for the acting user's company. *)
Lemma GetInvoices_inv (E : repository.Engine) (userID : uint) (req : GetInvoicesRequest)
      (db : repository.DB) (res : list Invoice) :
  fst (service.GetInvoices E userID req db) = Ok res ->
  exists user,
    repository.GetUserByID db userID = Ok user /\
    repository.run_query E db
      (repository.invoices_query (u_CompanyID user) (service.default_pagination req))
    = Ok res.
Proof.
  unfold service.GetInvoices, repository.GetInvoicesByCompanyID. run_service.
  destruct (repository.GetUserByID db userID) as [user|e]; [|discriminate].
  cbn. destruct (repository.run_query _ _ _) as [l|e] eqn:Hq; [|discriminate].
  intros H. injection H as <-. exists user. split; [reflexivity|exact Hq].
Qed.

Lemma In_apply_limit (limit : option Z) (l : list Invoice) (i : Invoice) :
  In i (repository.apply_limit limit l) -> In i l.
Proof.
  destruct limit as [n|]; cbn; [|auto]. rewrite <- (firstn_skipn (Z.to_nat n) l) at 2.
  intros H. apply in_or_app. now left.
Qed.

Lemma In_skipn {A : Type} (n : nat) (l : list A) (a : A) : In a (skipn n l) -> In a l.
Proof.
  rewrite <- (firstn_skipn n l) at 2. intros H. apply in_or_app. now right.
Qed.

(** Every row a query returns is a joined row that passes its WHERE clause. *)
Lemma run_query_sound (E : repository.Engine) (db : repository.DB) (q : repository.Query)
      (res : list Invoice) (i : Invoice) :
  repository.conforming E ->
  repository.run_query E db q = Ok res ->
  In i res ->
  In i (repository.joined_invoices db) /\
  repository.eval_where (repository.collation E) q i = true.
Proof.
  unfold repository.run_query. cbv zeta. intros HE Hrun Hin.
  set (sorted := repository.order_by E _ _ _ _) in Hrun.
  assert (Hsorted : In i sorted).
  { destruct (repository.q_offset q) as [o|].
    - destruct (o <? 0); [discriminate|]. injection Hrun as <-.
      apply In_apply_limit in Hin. now apply In_skipn in Hin.
    - injection Hrun as <-. now apply In_apply_limit in Hin. }
  subst sorted.
  apply (Permutation_in _ (Permutation_sym (proj1 (HE _ _ _ _)))) in Hsorted.
  now apply filter_In in Hsorted.
Qed.

Lemma opt_clause_forallb {A : Type} (eq : repository.Collation)
      (f : A -> repository.Condition) (o : option A) (i : Invoice) :
  forallb (fun c => repository.eval_condition eq c i) (repository.opt_clause f o) = true ->
  forall a, o = Some a -> repository.eval_condition eq (f a) i = true.
Proof.
  intros H a ->. cbn in H. now rewrite andb_true_r in H.
Qed.

Lemma opt_clause_forallb_intro {A : Type} (eq : repository.Collation)
      (f : A -> repository.Condition) (o : option A) (i : Invoice) :
  (forall a, o = Some a -> repository.eval_condition eq (f a) i = true) ->
  forallb (fun c => repository.eval_condition eq c i) (repository.opt_clause f o) = true.
Proof.
  intros H. destruct o as [a|]; cbn; [|reflexivity]. now rewrite (H a eq_refl).
Qed.

(** The WHERE clause of [GetInvoicesByCompanyID], condition by condition. *)
Lemma invoices_query_where (eq : repository.Collation) (companyID : uint)
      (req : GetInvoicesRequest) (i : Invoice) :
  repository.eval_where eq (repository.invoices_query companyID req) i = true <->
  passes_filter eq companyID req i.
Proof.
  unfold repository.eval_where, repository.invoices_query, passes_filter.
  cbn [repository.q_where]. rewrite !forallb_app. split.
  - intros H.
    apply andb_prop in H. destruct H as [Hc H].
    apply andb_prop in H. destruct H as [Hs H].
    apply andb_prop in H. destruct H as [Hst Hst'].
    cbn in Hc. rewrite andb_true_r in Hc. apply N.eqb_eq in Hc.
    split; [exact Hc|]. repeat split; intros x Hx.
    + apply (opt_clause_forallb _ _ _ _ Hs) in Hx. cbn in Hx. now apply Z.leb_le.
    + apply (opt_clause_forallb _ _ _ _ Hst) in Hx. cbn in Hx. now apply Z.leb_le.
    + apply (opt_clause_forallb _ _ _ _ Hst') in Hx. exact Hx.
  - intros [Hc [Hs [He Hst]]].
    apply andb_true_intro. split; [|apply andb_true_intro; split;
                                     [|apply andb_true_intro; split]].
    + cbn. rewrite andb_true_r. now apply N.eqb_eq.
    + apply opt_clause_forallb_intro. intros d Hd. cbn. apply Z.leb_le. now apply Hs.
    + apply opt_clause_forallb_intro. intros d Hd. cbn. apply Z.leb_le. now apply He.
    + apply opt_clause_forallb_intro. intros x Hx. cbn. now apply Hst.
Qed.

Lemma passes_filter_default_pagination (eq : repository.Collation) (companyID : uint)
      (req : GetInvoicesRequest) (i : Invoice) :
  passes_filter eq companyID (service.default_pagination req) i <->
  passes_filter eq companyID req i.
Proof.
  unfold passes_filter.
  destruct (default_pagination_filters req) as [-> [-> ->]]. reflexivity.
Qed.


Lemma wrap_in_range (z : Z) : GoInt.in_range z -> GoInt.wrap z = z.
Proof.
  unfold GoInt.in_range, GoInt.min_int, GoInt.max_int, GoInt.wrap. intros H.
  rewrite Z.mod_small; lia.
Qed.

(** Without overflow the OFFSET is the exact product. *)
Lemma offset_exact (page limit : Z) :
  1 <= page -> 1 <= limit <= 100 -> (page - 1) * 100 <= GoInt.max_int ->
  GoInt.mul (GoInt.sub page 1) limit = (page - 1) * limit.
Proof.
  intros Hp Hl Hmax. unfold GoInt.mul, GoInt.sub.
  assert (Hprod : 0 <= (page - 1) * limit <= (page - 1) * 100).
  { split; [apply Z.mul_nonneg_nonneg; lia|].
    apply Z.mul_le_mono_nonneg_l; lia. }
  rewrite (wrap_in_range (page - 1)).
  - apply wrap_in_range. unfold GoInt.in_range, GoInt.min_int, GoInt.max_int in *. lia.
  - unfold GoInt.in_range, GoInt.min_int, GoInt.max_int in *. lia.
Qed.







Lemma run_query_offset_of (E : repository.Engine) (db : repository.DB) (q : repository.Query) :
  repository.run_query E db (set_offset q (offset_of q)) = repository.run_query E db q.
Proof.
  unfold repository.run_query, set_offset, offset_of, repository.eval_where.
  cbn [repository.q_where repository.q_order_by repository.q_limit repository.q_offset].
  destruct (repository.q_offset q); reflexivity.
Qed.

(** C7. [GetInvoices] replaces a page below 1 by 1, a limit below 1 by 20
    and a limit above 100 by 100, leaves the filters alone, and runs the
    query of the normalized request for the acting user's company.  That
    query has [LIMIT = limit] and starts at row [(page - 1) * limit], computed
    in Go's [int] (the exact product unless it overflows); the repository
    writes no LIMIT and no OFFSET clause exactly when it is given a limit
    that is not positive. *)
Theorem GetInvoices_pagination (companyID : uint) (req : GetInvoicesRequest) :
  let req' := service.default_pagination req in
  let q := repository.invoices_query companyID req' in
  Page req' = (if Page req <? 1 then 1 else Page req) /\
  Limit req' = (if Limit req <? 1 then 20 else if 100 <? Limit req then 100 else Limit req) /\
  (StartDate req' = StartDate req /\ EndDate req' = EndDate req /\ Status req' = Status req) /\
  repository.q_limit q = Some (Limit req') /\
  offset_of q = GoInt.mul (GoInt.sub (Page req') 1) (Limit req') /\
  ((Page req - 1) * 100 <= GoInt.max_int -> offset_of q = (Page req' - 1) * Limit req') /\
  (forall (E : repository.Engine) (db : repository.DB),
      repository.run_query E db (set_offset q (offset_of q)) = repository.run_query E db q) /\
  (forall (E : repository.Engine) (userID : uint) (db : repository.DB) (user : User),
      repository.GetUserByID db userID = Ok user ->
      u_CompanyID user = companyID ->
      service.GetInvoices E userID req db
      = (Errorf_w "failed to get invoices: "
           (Errorf_w "failed to get invoices: " (repository.run_query E db q)), db)) /\
  (Limit req <= 0 <->
   repository.q_limit (repository.invoices_query companyID req) = None /\
   repository.q_offset (repository.invoices_query companyID req) = None).
Proof.
  intros req' q.
  destruct (default_pagination_bounds req) as [HP HL].
  fold req' in HP, HL.
  assert (Hlimit : repository.q_limit q = Some (Limit req')).
  { unfold q, repository.invoices_query. cbn [repository.q_limit].
    replace (0 <? Limit req') with true by (symmetry; apply Z.ltb_lt; lia). reflexivity. }
  assert (Hoffset : offset_of q = GoInt.mul (GoInt.sub (Page req') 1) (Limit req')).
  { unfold offset_of, q, repository.invoices_query. cbn [repository.q_offset].
    replace (0 <? Limit req') with true by (symmetry; apply Z.ltb_lt; lia).
    destruct (1 <? Page req') eqn:Hpage; [reflexivity|].
    apply Z.ltb_ge in Hpage. replace (Page req') with 1 by lia. reflexivity. }
  split; [apply default_pagination_Page|].
  split; [apply default_pagination_Limit|].
  split; [apply default_pagination_filters|].
  split; [exact Hlimit|]. split; [exact Hoffset|]. split; [|split; [|split]].
  - intros Hmax. rewrite Hoffset. apply offset_exact; [exact HP|exact HL|].
    unfold req'. rewrite default_pagination_Page.
    destruct (Page req <? 1); [unfold GoInt.max_int; lia|exact Hmax].
  - intros E db. apply run_query_offset_of.
  - intros E userID db user HU <-.
    unfold service.GetInvoices, repository.GetInvoicesByCompanyID. run_service.
    rewrite HU. reflexivity.
  - unfold repository.invoices_query. cbn [repository.q_limit repository.q_offset].
    destruct (0 <? Limit req) eqn:Hpos.
    + apply Z.ltb_lt in Hpos. split; [lia|]. intros [H _]. discriminate.
    + apply Z.ltb_ge in Hpos. split; [auto|intros _; exact Hpos].
Qed.

Lemma GetInvoices_pagination_witness :
  Page (service.default_pagination (sample.listing 0 500)) = 1 /\
  Limit (service.default_pagination (sample.listing 0 500)) = 100 /\
  Limit (service.default_pagination (sample.listing 3 0)) = 20 /\
  offset_of (repository.invoices_query 1 (service.default_pagination (sample.listing 3 0)))
  = 40.
Proof.
  destruct (GetInvoices_pagination 1 (sample.listing 0 500)) as [HP [HL _]].
  destruct (GetInvoices_pagination 1 (sample.listing 3 0)) as [_ [HL' [_ [_ [_ [Hoff _]]]]]].
  split; [exact HP|]. split; [exact HL|]. split; [exact HL'|].
  rewrite Hoff; [reflexivity|]. vm_compute. discriminate.
Defined.

(** ** Order of a listing *)

Lemma row_leb_due_desc (a b : Invoice) :
  repository.row_leb [(repository.col_payment_due_date, repository.DESC)] a b = true ->
  i_PaymentDueDate b <= i_PaymentDueDate a.
Proof.
  unfold repository.row_leb. cbn [repository.compare_rows repository.column_value].
  destruct (i_PaymentDueDate a ?= i_PaymentDueDate b) eqn:Hcmp; cbn; intros H.
  - apply Z.compare_eq in Hcmp. lia.
  - discriminate.
  - apply Z.compare_gt_iff in Hcmp. lia.
Qed.

Lemma Sorted_weaken {A : Type} (R R' : A -> A -> Prop) (l : list A) :
  (forall a b, R a b -> R' a b) -> Sorted R l -> Sorted R' l.
Proof.
  intros Himp. induction 1 as [|a l Hl IH Hhd]; constructor; [exact IH|].
  destruct Hhd; constructor. now apply Himp.
Qed.

Lemma StronglySorted_skipn {A : Type} (R : A -> A -> Prop) (n : nat) (l : list A) :
  StronglySorted R l -> StronglySorted R (skipn n l).
Proof.
  revert l. induction n as [|n IH]; intros l H; [exact H|].
  destruct l as [|a l]; [exact H|]. cbn. apply IH. now inversion H.
Qed.

Lemma StronglySorted_firstn {A : Type} (R : A -> A -> Prop) (n : nat) (l : list A) :
  StronglySorted R l -> StronglySorted R (firstn n l).
Proof.
  revert l. induction n as [|n IH]; intros l H; [constructor|].
  destruct l as [|a l]; [constructor|]. cbn. inversion H as [|? ? Hl Ha]; subst.
  constructor; [now apply IH|].
  apply Forall_forall. intros x Hx. rewrite Forall_forall in Ha. apply Ha.
  rewrite <- (firstn_skipn n l). apply in_or_app. now left.
Qed.

(** The rows of a query that orders by [payment_due_date DESC] come with
    due dates that never increase. *)
Lemma run_query_descending (E : repository.Engine) (db : repository.DB)
      (q : repository.Query) (res : list Invoice) :
  repository.conforming E ->
  repository.q_order_by q = [(repository.col_payment_due_date, repository.DESC)] ->
  repository.run_query E db q = Ok res ->
  StronglySorted due_no_later res.
Proof.
  unfold repository.run_query. cbv zeta. intros HE Hkeys Hrun. rewrite Hkeys in Hrun.
  set (sorted := repository.order_by E _ _ _ _) in Hrun.
  assert (Hsorted : StronglySorted due_no_later sorted).
  { apply Sorted_StronglySorted.
    - intros a b c Hab Hbc. unfold due_no_later in *. lia.
    - eapply Sorted_weaken; [|apply (proj2 (HE _ _ _ _))].
      intros a b. apply row_leb_due_desc. }
  assert (Hlimit : forall l, StronglySorted due_no_later l ->
                             StronglySorted due_no_later
                               (repository.apply_limit (repository.q_limit q) l)).
  { intros l Hl. destruct (repository.q_limit q); cbn; [|exact Hl].
    now apply StronglySorted_firstn. }
  destruct (repository.q_offset q) as [o|].
  - destruct (o <? 0); [discriminate|]. injection Hrun as <-.
    apply Hlimit. now apply StronglySorted_skipn.
  - injection Hrun as <-. now apply Hlimit.
Qed.

(** With invoices 1 and 2 of company 1 due on the same day, the server that
    keeps equal rows in insertion order lists them 1, 2 and the server that
    reverses them lists them 2, 1: the query does not fix the order of
    ties. *)
Lemma GetInvoices_ties_not_ordered :
  repository.conforming repository.stable_engine /\
  repository.conforming repository.reversing_engine /\
  exists res res',
    fst (service.GetInvoices repository.stable_engine 1 (sample.listing 1 20)
                             sample.tied_db) = Ok res /\
    fst (service.GetInvoices repository.reversing_engine 1 (sample.listing 1 20)
                             sample.tied_db) = Ok res' /\
    map i_ID res = [1; 2]%N /\
    map i_ID res' = [2; 1]%N /\
    map i_PaymentDueDate res = [sample.d_2024_02_15; sample.d_2024_02_15] /\
    res <> res'.
Proof.
  split; [exact stable_engine_conforming|].
  split; [exact reversing_engine_conforming|].
  eexists. eexists.
  split; [vm_compute; reflexivity|].
  split; [vm_compute; reflexivity|].
  split; [reflexivity|]. split; [reflexivity|]. split; [reflexivity|].
  intros H. apply (f_equal (map i_ID)) in H. discriminate.
Qed.

Lemma row_leb_due_then_id (a b : Invoice) :
  repository.row_leb due_then_id a b = true <->
  i_PaymentDueDate b < i_PaymentDueDate a \/
  (i_PaymentDueDate a = i_PaymentDueDate b /\ (i_ID a <= i_ID b)%N).
Proof.
  unfold repository.row_leb, due_then_id.
  cbn [repository.compare_rows repository.column_value].
  destruct (Z.compare_spec (i_PaymentDueDate a) (i_PaymentDueDate b)) as [Hd|Hd|Hd];
    cbn [CompOpp].
  - destruct (Z.compare_spec (Z.of_N (i_ID a)) (Z.of_N (i_ID b))) as [Hi|Hi|Hi];
      split; intros H; try discriminate; try reflexivity; try lia.
  - split; [discriminate|lia].
  - split; [lia|reflexivity].
Qed.

Lemma NoDup_map_eq {A B : Type} (f : A -> B) (l : list A) (a b : A) :
  NoDup (map f l) -> In a l -> In b l -> f a = f b -> a = b.
Proof.
  induction l as [|x l IH]; cbn; intros Hnd Ha Hb Hf; [contradiction|].
  inversion Hnd as [|? ? Hx Hl]; subst.
  destruct Ha as [->|Ha], Hb as [->|Hb].
  - reflexivity.
  - exfalso. apply Hx. rewrite Hf. now apply in_map.
  - exfalso. apply Hx. rewrite <- Hf. now apply in_map.
  - now apply IH.
Qed.

(** Two sorted arrangements of the same rows under an antisymmetric order
    are one arrangement. *)
Lemma sorted_permutation_unique {A : Type} (R : A -> A -> Prop) (l1 l2 : list A) :
  StronglySorted R l1 ->
  StronglySorted R l2 ->
  Permutation l1 l2 ->
  (forall a b, In a l1 -> In b l1 -> R a b -> R b a -> a = b) ->
  l1 = l2.
Proof.
  revert l2. induction l1 as [|a l1 IH]; intros l2 H1 H2 Hperm Hanti.
  - symmetry. now apply Permutation_nil.
  - destruct l2 as [|b l2].
    + apply Permutation_sym, Permutation_nil in Hperm. discriminate.
    + inversion H1 as [|? ? Hs1 Hf1]; subst. inversion H2 as [|? ? Hs2 Hf2]; subst.
      rewrite Forall_forall in Hf1, Hf2.
      assert (Hb : In b (a :: l1))
        by (apply (Permutation_in _ (Permutation_sym Hperm)); now left).
      assert (Ha : In a (b :: l2)) by (apply (Permutation_in _ Hperm); now left).
      assert (Heq : a = b).
      { destruct Hb as [Hb|Hb]; [exact Hb|].
        destruct Ha as [Ha|Ha]; [now symmetry|].
        apply Hanti; [now left|now right|now apply Hf1|now apply Hf2]. }
      subst b. f_equal. apply IH; try assumption.
      * now apply Permutation_cons_inv in Hperm.
      * intros x y Hx Hy. apply Hanti; now right.
Qed.

(** Had the query named the identifier as a second key, the order would be
    the same on every conforming server. *)
Lemma order_by_due_then_id_deterministic (E1 E2 : repository.Engine)
      (limit1 limit2 : option Z) (offset1 offset2 : Z) (l : list Invoice) :
  repository.conforming E1 ->
  repository.conforming E2 ->
  NoDup (map i_ID l) ->
  repository.order_by E1 due_then_id limit1 offset1 l
  = repository.order_by E2 due_then_id limit2 offset2 l.
Proof.
  intros H1 H2 Hnd.
  destruct (H1 due_then_id limit1 offset1 l) as [Hp1 Hs1].
  destruct (H2 due_then_id limit2 offset2 l) as [Hp2 Hs2].
  assert (Htrans : Relations_1.Transitive
                     (fun a b : Invoice => repository.row_leb due_then_id a b = true)).
  { intros a b c Hab Hbc. rewrite row_leb_due_then_id in *. lia. }
  apply (sorted_permutation_unique
           (fun a b => repository.row_leb due_then_id a b = true)).
  - now apply Sorted_StronglySorted.
  - now apply Sorted_StronglySorted.
  - eapply perm_trans; [apply Permutation_sym, Hp1|exact Hp2].
  - intros a b Ha Hb Hab Hba.
    apply (Permutation_in _ (Permutation_sym Hp1)) in Ha, Hb.
    rewrite row_leb_due_then_id in Hab, Hba.
    apply (NoDup_map_eq i_ID l a b Hnd Ha Hb). lia.
Qed.

(** C8, as the code has it.  Every listing is ordered by
    [payment_due_date] descending: each invoice is due no earlier than all
    the invoices after it.  The query orders by that column alone, so the
    order among invoices due at the same instant is left to the server. *)
Theorem GetInvoices_descending_due_date
        (E : repository.Engine) (userID : uint) (req : GetInvoicesRequest)
        (db : repository.DB) (res : list Invoice) :
  repository.conforming E ->
  fst (service.GetInvoices E userID req db) = Ok res ->
  StronglySorted due_no_later res /\
  forall companyID : uint,
    repository.q_order_by (repository.invoices_query companyID req)
    = [(repository.col_payment_due_date, repository.DESC)].
Proof.
  intros HE Hrun. split; [|reflexivity].
  destruct (GetInvoices_inv _ _ _ _ _ Hrun) as [user [_ Hq]].
  apply (run_query_descending E db _ res HE) in Hq; [exact Hq|reflexivity].
Qed.

Lemma GetInvoices_descending_due_date_witness :
  StronglySorted due_no_later
    [repository.with_joins (Some sample.tech_solutions) (Some sample.vendor_b)
                           sample.invoice_2;
     repository.with_joins (Some sample.tech_solutions) (Some sample.supplier_a)
                           sample.invoice_1].
Proof.
  apply (GetInvoices_descending_due_date repository.stable_engine 1
           (sample.listing 1 20) sample.db _ stable_engine_conforming eq_refl).
Defined.

(** ** The language of the two patterns *)

Section regexp_language.

Import Ascii regexp.
Local Open Scope string_scope.

Lemma append_nil_r (s : string) : s ++ "" = s.
Proof. induction s as [|c s IH]; cbn; [reflexivity|now rewrite IH]. Qed.

Lemma append_assoc (s1 s2 s3 : string) : (s1 ++ s2) ++ s3 = s1 ++ (s2 ++ s3).
Proof. induction s1 as [|c s1 IH]; cbn; [reflexivity|now rewrite IH]. Qed.

Lemma length_append (s1 s2 : string) :
  String.length (s1 ++ s2) = (String.length s1 + String.length s2)%nat.
Proof. induction s1 as [|c s1 IH]; cbn; [reflexivity|now rewrite IH]. Qed.

Lemma consumes_ext (r : Regexp) (L L' : string -> Prop) :
  (forall p, L p <-> L' p) -> consumes r L -> consumes r L'.
Proof.
  intros HL Hr b s t. rewrite (Hr b s t).
  split; intros [p [Hp Hs]]; exists p; split; auto; now apply HL.
Qed.

Lemma consumes_EmptyMatch : consumes EmptyMatch (fun p => p = "").
Proof.
  intros b s t. cbn. split.
  - intros [<-|[]]. exists "". auto.
  - intros [p [-> ->]]. now left.
Qed.

Lemma consumes_Literal (c : Ascii.ascii) : consumes (Literal c) (fun p => p = String c "").
Proof.
  intros b s t. cbn. split.
  - destruct s as [|c' s']; [contradiction|].
    destruct (Ascii.eqb_spec c' c) as [->|]; [|contradiction].
    intros [<-|[]]. exists (String c ""). auto.
  - intros [p [-> ->]]. cbn. rewrite Ascii.eqb_refl. now left.
Qed.

Lemma consumes_Digit :
  consumes Digit (fun p => exists c, is_digit c = true /\ p = String c "").
Proof.
  intros b s t. cbn. split.
  - destruct s as [|c' s']; [contradiction|].
    destruct (is_digit c') eqn:Hd; [|contradiction].
    intros [<-|[]]. exists (String c' ""). eauto.
  - intros [p [[c [Hd ->]] ->]]. cbn. rewrite Hd. now left.
Qed.

Lemma consumes_Concat (r1 r2 : Regexp) (L1 L2 : string -> Prop) :
  consumes r1 L1 -> consumes r2 L2 ->
  consumes (Concat r1 r2) (fun p => exists p1 p2, L1 p1 /\ L2 p2 /\ p = p1 ++ p2).
Proof.
  intros H1 H2 b s t. cbn. rewrite in_flat_map. split.
  - intros [m [Hm Ht]]. apply H1 in Hm. apply H2 in Ht.
    destruct Hm as [p1 [Hp1 ->]]. destruct Ht as [p2 [Hp2 ->]].
    exists (p1 ++ p2). split; [eauto|]. now rewrite append_assoc.
  - intros [p [[p1 [p2 [Hp1 [Hp2 ->]]]] ->]].
    exists (p2 ++ t). split.
    + apply H1. exists p1. split; [assumption|]. now rewrite append_assoc.
    + apply H2. eauto.
Qed.

Lemma consumes_Quest (r : Regexp) (L : string -> Prop) :
  consumes r L -> consumes (Quest r) (fun p => L p \/ p = "").
Proof.
  intros Hr b s t. cbn. rewrite in_app_iff, (Hr b s t). cbn. split.
  - intros [[p [Hp ->]]|[<-|[]]]; [exists p; auto|exists ""; auto].
  - intros [p [[Hp| ->] ->]]; [left; eauto|right; left; reflexivity].
Qed.

Lemma ends_EndText : ends EndText (fun s => s = "").
Proof.
  intros b s t. cbn. destruct s; cbn; split.
  - intros [<-|[]]. auto.
  - intros [_ ->]. now left.
  - contradiction.
  - intros [H _]. discriminate.
Qed.

Lemma ends_Concat (r1 r2 : Regexp) (L1 L2 : string -> Prop) :
  consumes r1 L1 -> ends r2 L2 ->
  ends (Concat r1 r2) (fun s => exists p1 p2, L1 p1 /\ L2 p2 /\ s = p1 ++ p2).
Proof.
  intros H1 H2 b s t. cbn. rewrite in_flat_map. split.
  - intros [m [Hm Ht]]. apply H1 in Hm. apply H2 in Ht.
    destruct Hm as [p1 [Hp1 ->]]. destruct Ht as [Hm ->]. eauto 6.
  - intros [[p1 [p2 [Hp1 [Hp2 ->]]]] ->].
    exists p2. split; [apply H1; eauto|apply H2; auto].
Qed.

Lemma search_BeginText_later (r : Regexp) (s : string) :
  search (Concat BeginText r) false s = false.
Proof. induction s as [|c s IH]; cbn; [reflexivity|exact IH]. Qed.

Lemma search_anchored (r : Regexp) (s : string) :
  search (Concat BeginText r) true s =
  match run r true s with [] => false | _ :: _ => true end.
Proof.
  assert (Hrun : run (Concat BeginText r) true s = run r true s).
  { cbn. rewrite Nat.eqb_refl. cbn. apply app_nil_r. }
  destruct s as [|c s]; cbn [search]; rewrite Hrun;
    destruct (run r true _); try reflexivity.
  apply search_BeginText_later.
Qed.

(** A pattern of the form [^r$] matches a text as a whole or not at all. *)
Lemma MatchString_anchored (r : Regexp) (L : string -> Prop) (s : string) :
  ends r L -> (MatchString (Concat BeginText r) s = true <-> L s).
Proof.
  intros Hr. unfold MatchString. rewrite search_anchored. split.
  - destruct (run r true s) as [|t l] eqn:Ht; [discriminate|]. intros _.
    apply (Hr true s t). rewrite Ht. now left.
  - intros HL. assert (Hin : In "" (run r true s)) by (apply Hr; auto).
    destruct (run r true s); [contradiction|reflexivity].
Qed.

Lemma consumes_AtMost_Digit (n : nat) :
  consumes (AtMost Digit n) (fun p => all_digits p = true /\ (String.length p <= n)%nat).
Proof.
  induction n as [|n IH]; cbn [AtMost].
  - eapply consumes_ext; [|apply consumes_EmptyMatch].
    intros p. split; [intros ->; cbn; auto|].
    intros [_ Hl]. destruct p; [reflexivity|cbn in Hl; lia].
  - eapply consumes_ext; [|apply consumes_Quest, consumes_Concat; [apply consumes_Digit|apply IH]].
    intros p. split.
    + intros [[p1 [p2 [[c [Hc ->]] [[Hd Hl] ->]]]]| ->]; cbn.
      * rewrite Hc, Hd. split; [reflexivity|lia].
      * split; [reflexivity|lia].
    + intros [Hd Hl]. destruct p as [|c p]; [now right|left].
      cbn in Hd, Hl. apply andb_prop in Hd. destruct Hd as [Hc Hd].
      exists (String c ""), p. repeat split; eauto. lia.
Qed.

Lemma consumes_Times_Digit (n : nat) (rest : Regexp) (L : string -> Prop) :
  consumes rest L ->
  consumes (Times Digit n rest)
           (fun p => exists p1 p2,
                all_digits p1 = true /\ String.length p1 = n /\ L p2 /\ p = p1 ++ p2).
Proof.
  intros Hrest. induction n as [|n IH]; cbn [Times].
  - eapply consumes_ext; [|exact Hrest].
    intros p. split.
    + intros Hp. exists "", p. auto.
    + intros [p1 [p2 [_ [Hl [Hp ->]]]]]. destruct p1; [exact Hp|discriminate].
  - eapply consumes_ext; [|apply consumes_Concat; [apply consumes_Digit|apply IH]].
    intros p. split.
    + intros [q1 [q2 [[c [Hc ->]] [[p1 [p2 [Hd [Hl [Hp ->]]]]] ->]]]].
      exists (String c p1), p2. cbn. rewrite Hc, Hd, Hl. auto.
    + intros [p1 [p2 [Hd [Hl [Hp ->]]]]]. destruct p1 as [|c p1]; [discriminate|].
      cbn in Hd, Hl. apply andb_prop in Hd. destruct Hd as [Hc Hd].
      exists (String c ""), (p1 ++ p2). split; [eauto|]. split; [|reflexivity].
      exists p1, p2. repeat split; auto.
Qed.

Lemma all_digits_append (s1 s2 : string) :
  all_digits (s1 ++ s2) = all_digits s1 && all_digits s2.
Proof.
  induction s1 as [|c s1 IH]; cbn; [reflexivity|].
  now rewrite IH, andb_assoc.
Qed.

Lemma split_at (n : nat) (p : string) :
  (n <= String.length p)%nat ->
  exists p1 p2, p = p1 ++ p2 /\ String.length p1 = n.
Proof.
  revert p. induction n as [|n IH]; intros p Hl.
  - exists "", p. auto.
  - destruct p as [|c p]; [cbn in Hl; lia|].
    destruct (IH p) as [p1 [p2 [-> Hn]]]; [cbn in Hl; lia|].
    exists (String c p1), p2. cbn. auto.
Qed.

(** [\d{min,max}]: between [min] and [max] digits. *)
Lemma consumes_Repeat_Digit (min max : nat) :
  (min <= max)%nat -> consumes (Repeat Digit min max) (digits min max).
Proof.
  intros Hle. unfold Repeat.
  eapply consumes_ext; [|apply consumes_Times_Digit, consumes_AtMost_Digit].
  intros p. unfold digits. split.
  - intros [p1 [p2 [Hd1 [Hl1 [[Hd2 Hl2] ->]]]]].
    rewrite all_digits_append, length_append, Hd1, Hd2. split; [reflexivity|lia].
  - intros [Hd [Hlo Hhi]]. destruct (split_at min p Hlo) as [p1 [p2 [-> Hl1]]].
    rewrite all_digits_append in Hd. apply andb_prop in Hd. destruct Hd as [Hd1 Hd2].
    rewrite length_append in Hhi.
    exists p1, p2. repeat split; auto. lia.
Qed.


Lemma phoneRegex_parses :
  models.phoneRegex =
  Sequence [BeginText; Literal "0"; Repeat Digit 1 4; Literal "-";
            Repeat Digit 1 4; Literal "-"; Repeat Digit 4 4; EndText].
Proof. reflexivity. Qed.

Lemma postalCodeRegex_parses :
  models.postalCodeRegex =
  Sequence [BeginText; Repeat Digit 3 3; Literal "-"; Repeat Digit 4 4; EndText].
Proof. reflexivity. Qed.

Lemma MatchString_phoneRegex (s : string) :
  MatchString models.phoneRegex s = true <-> phone_number_shape s.
Proof.
  rewrite phoneRegex_parses. cbn [Sequence].
  rewrite MatchString_anchored.
  2:{ repeat (apply ends_Concat;
              [first [apply consumes_Literal | apply consumes_Repeat_Digit; lia]|]).
      apply ends_EndText. }
  unfold phone_number_shape. split.
  - intros [z [r1 [-> [[a [r2 [Ha [[d1 [r3 [-> [[b [r4 [Hb [[d2 [r5 [-> [[c [e [Hc [-> ->]]]] ->]]]] ->]]]] ->]]]] ->]]]] ->]]]].
    exists a, b, c. rewrite append_nil_r. auto.
  - intros [a [b [c [-> [Ha [Hb Hc]]]]]].
    exists "0", (a ++ "-" ++ b ++ "-" ++ c). split; [reflexivity|]. split; [|reflexivity].
    exists a, ("-" ++ b ++ "-" ++ c). split; [assumption|]. split; [|reflexivity].
    exists "-", (b ++ "-" ++ c). split; [reflexivity|]. split; [|reflexivity].
    exists b, ("-" ++ c). split; [assumption|]. split; [|reflexivity].
    exists "-", c. split; [reflexivity|]. split; [|reflexivity].
    exists c, "". split; [assumption|]. split; [reflexivity|]. now rewrite append_nil_r.
Qed.

Lemma MatchString_postalCodeRegex (s : string) :
  MatchString models.postalCodeRegex s = true <-> postal_code_shape s.
Proof.
  rewrite postalCodeRegex_parses. cbn [Sequence].
  rewrite MatchString_anchored.
  2:{ repeat (apply ends_Concat;
              [first [apply consumes_Literal | apply consumes_Repeat_Digit; lia]|]).
      apply ends_EndText. }
  unfold postal_code_shape. split.
  - intros [a [r1 [Ha [[d1 [r2 [-> [[b [e [Hb [-> ->]]]] ->]]]] ->]]]].
    exists a, b. rewrite append_nil_r. auto.
  - intros [a [b [-> [Ha Hb]]]].
    exists a, ("-" ++ b). split; [assumption|]. split; [|reflexivity].
    exists "-", b. split; [reflexivity|]. split; [|reflexivity].
    exists b, "". split; [assumption|]. split; [reflexivity|]. now rewrite append_nil_r.
Qed.

End regexp_language.

(** ** Validation of business partner requests *)

(** X1.  [ValidatePhoneNumber] returns [nil] exactly on the texts made of
    [0], one to four digits, a hyphen, one to four digits, a hyphen and four
    digits, with nothing before or after; on every other text it returns the
    format error. *)
Theorem ValidatePhoneNumber_accepts_iff (phone : string) :
  (models.ValidatePhoneNumber phone = None <-> phone_number_shape phone) /\
  (models.ValidatePhoneNumber phone = None \/
   models.ValidatePhoneNumber phone =
   Some "invalid phone number format. Expected format: XXX-XXXX-XXXX").
Proof.
  unfold models.ValidatePhoneNumber.
  generalize (MatchString_phoneRegex phone).
  destruct (regexp.MatchString models.phoneRegex phone); cbn; intros [H1 H2].
  - split; [|now left]. split; auto.
  - split; [|now right]. split; [discriminate|]. intros H. now apply H2 in H.
Qed.

(** X2.  [ValidatePostalCode] returns [nil] exactly on the texts made of
    three digits, a hyphen and four digits, with nothing before or after; on
    every other text it returns the format error. *)
Theorem ValidatePostalCode_accepts_iff (postalCode : string) :
  (models.ValidatePostalCode postalCode = None <-> postal_code_shape postalCode) /\
  (models.ValidatePostalCode postalCode = None \/
   models.ValidatePostalCode postalCode =
   Some "invalid postal code format. Expected format: XXX-XXXX").
Proof.
  unfold models.ValidatePostalCode.
  generalize (MatchString_postalCodeRegex postalCode).
  destruct (regexp.MatchString models.postalCodeRegex postalCode); cbn; intros [H1 H2].
  - split; [|now left]. split; auto.
  - split; [|now right]. split; [discriminate|]. intros H. now apply H2 in H.
Qed.

Lemma Validate_shapes (req : BusinessPartnerCreateRequest) :
  BusinessPartnerCreateRequest_Validate req = None <->
  phone_number_shape (req_PhoneNumber req) /\ postal_code_shape (req_PostalCode req).
Proof.
  unfold BusinessPartnerCreateRequest_Validate, ValidatePhoneNumber, ValidatePostalCode.
  pose proof (MatchString_phoneRegex (req_PhoneNumber req)) as Hphone.
  pose proof (MatchString_postalCodeRegex (req_PostalCode req)) as Hpostal.
  destruct (regexp.MatchString phoneRegex _); cbn [negb];
    [destruct (regexp.MatchString postalCodeRegex _); cbn [negb]|].
  - split; [intros _|reflexivity]. split; [now apply Hphone|now apply Hpostal].
  - split; [discriminate|]. intros [_ H]. apply Hpostal in H. discriminate.
  - split; [discriminate|]. intros [H _]. apply Hphone in H. discriminate.
Qed.

(** X3.  [Validate] of a business partner request returns [nil] exactly
    when the phone number and the postal code both have their shape.  The
    phone number is checked first: an ill-formed phone number gives the phone
    error whatever the postal code is, and the postal error is given only
    for a well-formed phone number.  An accepted phone number has 9 to 15
    bytes and an accepted postal code 8, within the VARCHAR(20) and
    VARCHAR(10) columns of the schema. *)
Theorem Validate_business_partner_request (req : BusinessPartnerCreateRequest) :
  (BusinessPartnerCreateRequest_Validate req = None <->
   phone_number_shape (req_PhoneNumber req) /\ postal_code_shape (req_PostalCode req)) /\
  (~ phone_number_shape (req_PhoneNumber req) ->
   BusinessPartnerCreateRequest_Validate req
   = Some "invalid phone number format. Expected format: XXX-XXXX-XXXX") /\
  (phone_number_shape (req_PhoneNumber req) ->
   ~ postal_code_shape (req_PostalCode req) ->
   BusinessPartnerCreateRequest_Validate req
   = Some "invalid postal code format. Expected format: XXX-XXXX") /\
  (BusinessPartnerCreateRequest_Validate req = None ->
   (9 <= String.length (req_PhoneNumber req) <= 15)%nat /\
   String.length (req_PostalCode req) = 8%nat).
Proof.
  unfold BusinessPartnerCreateRequest_Validate, ValidatePhoneNumber, ValidatePostalCode.
  pose proof (MatchString_phoneRegex (req_PhoneNumber req)) as Hphone.
  pose proof (MatchString_postalCodeRegex (req_PostalCode req)) as Hpostal.
  destruct (regexp.MatchString phoneRegex _); cbn [negb];
    [destruct (regexp.MatchString postalCodeRegex _); cbn [negb]|].
  - assert (Hp : phone_number_shape (req_PhoneNumber req)) by now apply Hphone.
    assert (Hq : postal_code_shape (req_PostalCode req)) by now apply Hpostal.
    repeat split; auto; try contradiction.
    + destruct Hp as [a [b [c [-> [[_ Ha] [[_ Hb] [_ Hc]]]]]]].
      rewrite !length_append. cbn. lia.
    + destruct Hp as [a [b [c [-> [[_ Ha] [[_ Hb] [_ Hc]]]]]]].
      rewrite !length_append. cbn. lia.
    + destruct Hq as [a [b [-> [[_ Ha] [_ Hb]]]]].
      rewrite !length_append. cbn. lia.
  - assert (Hq : ~ postal_code_shape (req_PostalCode req)).
    { intros H. apply Hpostal in H. discriminate. }
    repeat split; try discriminate; try tauto.
  - assert (Hp : ~ phone_number_shape (req_PhoneNumber req)).
    { intros H. apply Hphone in H. discriminate. }
    repeat split; try discriminate; try tauto.
Qed.

Lemma Validate_business_partner_request_witness :
  BusinessPartnerCreateRequest_Validate
    {| req_CorporateName := "Supplier Corp."; req_Representative := "Jane Smith";
       req_PhoneNumber := "0-1-2345"; req_PostalCode := "101-0001";
       req_Address := "Tokyo" |}
  = Some "invalid phone number format. Expected format: XXX-XXXX-XXXX" /\
  BusinessPartnerCreateRequest_Validate
    {| req_CorporateName := "Supplier Corp."; req_Representative := "Jane Smith";
       req_PhoneNumber := "03-9876-5432"; req_PostalCode := "1010001";
       req_Address := "Tokyo" |}
  = Some "invalid postal code format. Expected format: XXX-XXXX".
Proof.
  split.
  - apply Validate_business_partner_request. cbn.
    intros [a [b [c [H [[Hd Ha] _]]]]].
    destruct a as [|x a]; cbn in Ha; [lia|].
    cbn in H. inversion H; subst. discriminate.
  - apply Validate_business_partner_request; cbn.
    + exists "3", "9876", "5432". repeat split; cbn; lia.
    + intros [a [b [H [[_ Ha] _]]]].
      do 4 (destruct a as [|? a]; cbn in Ha; try lia).
      cbn in H. congruence.
Defined.

(** ** The business partner handlers *)

Lemma GetUserByID_insert_business_partner (row : BusinessPartner) (db : repository.DB)
      (id : uint) :
  repository.GetUserByID (insert_business_partner row db) id = repository.GetUserByID db id.
Proof. reflexivity. Qed.

Lemma GetUserByID_insert_invoice (row : Invoice) (db : repository.DB) (id : uint) :
  repository.GetUserByID (insert_invoice row db) id = repository.GetUserByID db id.
Proof. reflexivity. Qed.

(** What a call of [CreateBusinessPartner] does to the store. *)
Lemma CreateBusinessPartner_inv (now : Time) (userID : uint) (partner : BusinessPartner)
      (db : repository.DB) (r : result BusinessPartner) (db' : repository.DB) :
  service.CreateBusinessPartner now userID partner db = (r, db') ->
  match r with
  | Err _ => db' = db
  | Ok created =>
      exists user,
        repository.GetUserByID db userID = Ok user /\
        created = repository.stamp_business_partner
                    (repository.next_business_partner_id db) now
                    (service.set_CompanyID partner (u_CompanyID user)) /\
        db' = insert_business_partner created db
  end.
Proof.
  unfold service.CreateBusinessPartner. run_service.
  destruct (repository.GetUserByID db userID) as [user|e] eqn:HU.
  - unfold repository.CreateBusinessPartner.
    destruct (repository.find_company db _).
    + intros H. injection H as <- <-. exists user. repeat split.
    + intros H. injection H as <- <-. reflexivity.
  - intros H. injection H as <- <-. reflexivity.
Qed.

Lemma binding_BusinessPartnerCreateRequest_nil (req : BusinessPartnerCreateRequest) :
  api.ShouldBindJSON_BusinessPartnerCreateRequest req = None <-> all_present req.
Proof.
  unfold api.ShouldBindJSON_BusinessPartnerCreateRequest,
    api.binding_BusinessPartnerCreateRequest, all_present.
  destruct (String.eqb_spec (req_CorporateName req) "") as [H1|H1];
    destruct (String.eqb_spec (req_Representative req) "") as [H2|H2];
    destruct (String.eqb_spec (req_PhoneNumber req) "") as [H3|H3];
    destruct (String.eqb_spec (req_PostalCode req) "") as [H4|H4];
    destruct (String.eqb_spec (req_Address req) "") as [H5|H5];
    cbn [app]; split; try discriminate; try tauto.
Qed.

(** X4.  When the handler of [POST /api/business-partners] answers 201,
    the request had its five texts present and a phone number and postal code
    of the right shape; exactly one row was appended to [business_partners]
    and nothing else changed; that row is the [Data] of the response, holds the
    texts of the request, the next identifier and the time of the call, and
    belongs to the company of the authenticated user. *)
Theorem createBusinessPartner_created (now : Time) (userID : uint)
        (req : BusinessPartnerCreateRequest) (db db' : repository.DB)
        (resp : api.JSON BusinessPartner) :
  api.createBusinessPartner now userID req db = (resp, db') ->
  api.Code resp = 201 ->
  exists user,
    repository.GetUserByID db userID = Ok user /\
    let created :=
      {| bp_ID := repository.next_business_partner_id db;
         bp_CompanyID := u_CompanyID user;
         bp_CorporateName := req_CorporateName req;
         bp_Representative := req_Representative req;
         bp_PhoneNumber := req_PhoneNumber req;
         bp_PostalCode := req_PostalCode req;
         bp_Address := req_Address req;
         bp_CreatedAt := now; bp_UpdatedAt := now |} in
    api.Content resp
    = api.SuccessResponseOf "Business partner created successfully" created /\
    db' = insert_business_partner created db /\
    all_present req /\
    phone_number_shape (req_PhoneNumber req) /\
    postal_code_shape (req_PostalCode req).
Proof.
  unfold api.createBusinessPartner.
  destruct (api.ShouldBindJSON_BusinessPartnerCreateRequest req) eqn:Hbind.
  { intros H. injection H as <- _. discriminate. }
  destruct (BusinessPartnerCreateRequest_Validate req) eqn:Hval.
  { intros H. injection H as <- _. discriminate. }
  destruct (service.CreateBusinessPartner now userID _ db) as [[created|e] db1] eqn:Hsvc.
  2:{ intros H. injection H as <- _. discriminate. }
  intros H _. injection H as <- <-.
  apply CreateBusinessPartner_inv in Hsvc. destruct Hsvc as [user [HU [-> ->]]].
  exists user. split; [exact HU|].
  apply binding_BusinessPartnerCreateRequest_nil in Hbind.
  apply Validate_shapes in Hval. destruct Hval as [Hp Hq].
  cbn. auto.
Qed.

Lemma createBusinessPartner_created_witness :
  exists user,
    repository.GetUserByID sample.db 1 = Ok user /\
    u_CompanyID user = 1%N /\
    snd (api.createBusinessPartner sample.d_2024_01_15 1 sample.partner_request sample.db)
    = insert_business_partner
        {| bp_ID := 4; bp_CompanyID := u_CompanyID user;
           bp_CorporateName := "Supplier Corp."; bp_Representative := "Jane Smith";
           bp_PhoneNumber := "03-9876-5432"; bp_PostalCode := "101-0001";
           bp_Address := "Tokyo, Chiyoda-ku, Supplier 2-2-2";
           bp_CreatedAt := sample.d_2024_01_15; bp_UpdatedAt := sample.d_2024_01_15 |}
        sample.db.
Proof.
  destruct (createBusinessPartner_created sample.d_2024_01_15 1 sample.partner_request
              sample.db _ _ eq_refl eq_refl) as [user [HU [_ [Hdb _]]]].
  exists user. split; [exact HU|]. split; [|exact Hdb].
  vm_compute in HU. injection HU as <-. reflexivity.
Defined.

(** X5.  Every other answer of the handler is a 400 or a 500 and leaves
    the store as it was.  The answer is 400 exactly when one of the five texts
    is empty or the phone number or the postal code is ill-formed; the
    service is not called then. *)
Theorem createBusinessPartner_rejected (now : Time) (userID : uint)
        (req : BusinessPartnerCreateRequest) (db db' : repository.DB)
        (resp : api.JSON BusinessPartner) :
  api.createBusinessPartner now userID req db = (resp, db') ->
  api.Code resp <> 201 ->
  db' = db /\
  (api.Code resp = 400 \/ api.Code resp = 500) /\
  (api.Code resp = 400 <->
   ~ (all_present req /\ phone_number_shape (req_PhoneNumber req) /\
      postal_code_shape (req_PostalCode req))).
Proof.
  unfold api.createBusinessPartner.
  pose proof (binding_BusinessPartnerCreateRequest_nil req) as Hbind.
  pose proof (Validate_shapes req) as Hval.
  destruct (api.ShouldBindJSON_BusinessPartnerCreateRequest req).
  { intros H _. injection H as <- <-. cbn.
    split; [reflexivity|]. split; [now left|]. split; [intros _|reflexivity].
    intros [Hp _]. apply Hbind in Hp. discriminate. }
  destruct (BusinessPartnerCreateRequest_Validate req).
  { intros H _. injection H as <- <-. cbn.
    split; [reflexivity|]. split; [now left|]. split; [intros _|reflexivity].
    intros [_ Hs]. apply Hval in Hs. discriminate. }
  destruct (service.CreateBusinessPartner now userID _ db) as [[created|e] db1] eqn:Hsvc.
  { intros H Hne. injection H as <- <-. now contradiction Hne. }
  intros H _. injection H as <- <-. cbn.
  pose proof (CreateBusinessPartner_inv _ _ _ _ _ _ Hsvc) as Hdb. cbn in Hdb.
  split; [exact Hdb|]. split; [now right|].
  split; [discriminate|]. intros Hn. contradiction Hn.
  split; [now apply Hbind|now apply Hval].
Qed.

Lemma createBusinessPartner_rejected_witness :
  snd (api.createBusinessPartner sample.d_2024_01_15 9 sample.partner_request sample.db)
  = sample.db /\
  api.Code (fst (api.createBusinessPartner sample.d_2024_01_15 9 sample.partner_request
                                           sample.db)) = 500.
Proof.
  destruct (createBusinessPartner_rejected sample.d_2024_01_15 9 sample.partner_request
              sample.db _ _ eq_refl) as [Hdb _].
  - cbn. discriminate.
  - split; [exact Hdb|reflexivity].
Defined.

Lemma GetBusinessPartners_inv (S : repository.Scan) (userID : uint) (db : repository.DB)
      (r : result (list BusinessPartner)) (db' : repository.DB) :
  service.GetBusinessPartners S userID db = (r, db') ->
  db' = db /\
  match r with
  | Err _ => repository.GetUserByID db userID = Err "user not found"
  | Ok res =>
      exists user,
        repository.GetUserByID db userID = Ok user /\
        res = S (partners_of (u_CompanyID user) db)
  end.
Proof.
  unfold service.GetBusinessPartners, repository.GetBusinessPartnersByCompanyID.
  run_service.
  destruct (repository.GetUserByID db userID) as [user|e] eqn:HU.
  - intros H. injection H as <- <-. split; [reflexivity|]. exists user. auto.
  - intros H. injection H as <- <-. split; [reflexivity|].
    unfold repository.GetUserByID in *. destruct (find _ _); congruence.
Qed.

(** X6.  When the handler of [GET /api/business-partners] answers 200,
    the partners it lists are the rows of [business_partners] whose company
    is the company of the authenticated user: each such row once, in the
    order the server chose, and no row of another company. *)
Theorem getBusinessPartners_scoped (S : repository.Scan) (userID : uint)
        (db : repository.DB) :
  repository.scanning S ->
  api.Code (api.getBusinessPartners S userID db) = 200 ->
  exists user partners,
    repository.GetUserByID db userID = Ok user /\
    api.Content (api.getBusinessPartners S userID db)
    = api.SuccessResponseOf "Business partners retrieved successfully" partners /\
    Permutation (partners_of (u_CompanyID user) db) partners /\
    (forall p, In p partners <->
               In p (repository.business_partners db) /\ bp_CompanyID p = u_CompanyID user).
Proof.
  intros HS. unfold api.getBusinessPartners.
  destruct (service.GetBusinessPartners S userID db) as [[res|e] db'] eqn:Hsvc;
    [|discriminate].
  intros _. apply GetBusinessPartners_inv in Hsvc.
  destruct Hsvc as [_ [user [HU ->]]].
  exists user, (S (partners_of (u_CompanyID user) db)).
  split; [exact HU|]. split; [reflexivity|]. split; [apply HS|].
  intros p. split.
  - intros Hin. apply (Permutation_in p (Permutation_sym (HS _))) in Hin.
    unfold partners_of in Hin. apply filter_In in Hin.
    destruct Hin as [Hin Heq]. apply N.eqb_eq in Heq. auto.
  - intros [Hin Heq]. apply (Permutation_in p (HS _)).
    unfold partners_of. apply filter_In. split; [exact Hin|now apply N.eqb_eq].
Qed.

Lemma getBusinessPartners_scoped_witness :
  exists partners,
    api.Content (api.getBusinessPartners (fun l => rev l) 1 sample.db)
    = api.SuccessResponseOf "Business partners retrieved successfully" partners /\
    Permutation [sample.supplier_a; sample.vendor_b] partners.
Proof.
  destruct (getBusinessPartners_scoped (fun l => rev l) 1 sample.db)
    as [user [partners [HU [Hresp [Hperm _]]]]].
  - intros l. apply Permutation_rev.
  - reflexivity.
  - exists partners. split; [exact Hresp|].
    vm_compute in HU. injection HU as <-. exact Hperm.
Defined.

(** X7.  After a successful [CreateBusinessPartner] the new partner is
    listed for the users of its company and for no other user: for every
    user, [GetBusinessPartners] returns what it returned before the call,
    with the new partner added exactly when the user's company is the
    partner's. *)
Theorem created_partner_listed (S : repository.Scan) (now : Time) (userID : uint)
        (partner created : BusinessPartner) (db db' : repository.DB)
        (reader : uint) (user : User) :
  repository.scanning S ->
  service.CreateBusinessPartner now userID partner db = (Ok created, db') ->
  repository.GetUserByID db reader = Ok user ->
  exists before after,
    service.GetBusinessPartners S reader db = (Ok before, db) /\
    service.GetBusinessPartners S reader db' = (Ok after, db') /\
    Permutation after
      (if N.eqb (bp_CompanyID created) (u_CompanyID user)
       then created :: before else before) /\
    (In created after <-> bp_CompanyID created = u_CompanyID user \/ In created before).
Proof.
  intros HS Hcreate HU.
  apply CreateBusinessPartner_inv in Hcreate. destruct Hcreate as [author [_ [Hrow ->]]].
  exists (S (partners_of (u_CompanyID user) db)),
         (S (partners_of (u_CompanyID user) (insert_business_partner created db))).
  assert (Hperm : Permutation
            (S (partners_of (u_CompanyID user) (insert_business_partner created db)))
            (if N.eqb (bp_CompanyID created) (u_CompanyID user)
             then created :: S (partners_of (u_CompanyID user) db)
             else S (partners_of (u_CompanyID user) db))).
  { eapply Permutation_trans; [apply Permutation_sym, HS|].
    unfold partners_of, insert_business_partner. cbn [repository.business_partners].
    rewrite filter_app. cbn [filter].
    destruct (N.eqb (bp_CompanyID created) (u_CompanyID user)).
    - eapply Permutation_trans; [apply Permutation_app_comm|].
      cbn. apply perm_skip, HS.
    - rewrite app_nil_r. apply HS. }
  split; [|split; [|split]].
  - unfold service.GetBusinessPartners, repository.GetBusinessPartnersByCompanyID.
    run_service. rewrite HU. reflexivity.
  - unfold service.GetBusinessPartners, repository.GetBusinessPartnersByCompanyID.
    run_service. rewrite GetUserByID_insert_business_partner, HU. reflexivity.
  - exact Hperm.
  - split.
    + intros Hin. apply (Permutation_in _ Hperm) in Hin.
      destruct (N.eqb_spec (bp_CompanyID created) (u_CompanyID user)) as [Heq|Hne];
        [now left|now right].
    + intros H. apply (Permutation_in _ (Permutation_sym Hperm)).
      destruct (N.eqb_spec (bp_CompanyID created) (u_CompanyID user)) as [Heq|Hne].
      * now left.
      * destruct H as [H|H]; [contradiction|exact H].
Qed.

Lemma created_partner_listed_witness :
  let created :=
    repository.stamp_business_partner 4 sample.d_2024_01_15
      (service.set_CompanyID sample.supplier_corp 1) in
  let db' := insert_business_partner created sample.db in
  service.CreateBusinessPartner sample.d_2024_01_15 1 sample.supplier_corp sample.db
  = (Ok created, db') /\
  exists after,
    service.GetBusinessPartners (fun l => l) 1 db' = (Ok after, db') /\
    Permutation after [created; sample.supplier_a; sample.vendor_b].
Proof.
  intros created db'. split; [reflexivity|].
  destruct (created_partner_listed (fun l => l) sample.d_2024_01_15 1 sample.supplier_corp
              created sample.db db' 1 sample.alice
              (fun l => Permutation_refl l) eq_refl eq_refl)
    as [before [after [Hbefore [Hafter [Hperm _]]]]].
  exists after. split; [exact Hafter|].
  vm_compute in Hbefore. injection Hbefore as <-. exact Hperm.
Defined.

(** ** A new partner and the invoices on it *)

Lemma find_app_some {A : Type} (p : A -> bool) (l1 l2 : list A) (x : A) :
  find p l1 = Some x -> find p (l1 ++ l2) = Some x.
Proof.
  induction l1 as [|a l1 IH]; simpl; [discriminate|].
  destruct (p a); [auto|exact IH].
Qed.

(** Reading back the partner that was just inserted under a fresh
    identifier. *)
Lemma GetBusinessPartnerByID_inserted (db : repository.DB) (row : BusinessPartner) :
  fresh_business_partner_id db = true ->
  bp_ID row = repository.next_business_partner_id db ->
  repository.GetBusinessPartnerByID (insert_business_partner row db) (bp_ID row) = Ok row.
Proof.
  intros Hfresh Hid.
  unfold repository.GetBusinessPartnerByID, repository.find_business_partner,
    insert_business_partner.
  cbn [repository.business_partners]. rewrite find_app_none.
  - cbn. now rewrite N.eqb_refl.
  - apply find_none_of_all_false. intros p Hp.
    unfold fresh_business_partner_id in Hfresh. rewrite forallb_forall in Hfresh.
    specialize (Hfresh p Hp). apply N.ltb_lt in Hfresh.
    apply N.eqb_neq. rewrite Hid. lia.
Qed.

(** X8.  A partner created by [CreateBusinessPartner], in a store whose
    partner counter is above the partner identifiers, can be invoiced by the
    users of its company and by nobody else: for a request that names the new
    partner, [CreateInvoice] by a user of another company fails with
    "business partner does not belong to your company" and writes nothing,
    and, the invoice counter being above the invoice identifiers as well,
    [CreateInvoice] by a user of the partner's company succeeds with the
    new partner joined to the invoice. *)
Theorem created_partner_invoiced (E : repository.Engine) (now now1 now2 : Time) (userID : uint)
        (partner created : BusinessPartner) (db db' : repository.DB)
        (buyer : uint) (user : User) (req : CreateInvoiceRequest) :
  fresh_business_partner_id db = true ->
  service.CreateBusinessPartner now userID partner db = (Ok created, db') ->
  repository.GetUserByID db buyer = Ok user ->
  BusinessPartnerID req = bp_ID created ->
  (u_CompanyID user <> bp_CompanyID created ->
   service.CreateInvoice E now1 now2 buyer req db'
   = (Err "business partner does not belong to your company", db')) /\
  (u_CompanyID user = bp_CompanyID created ->
   fresh_invoice_id db = true ->
   exists invoice db'',
     service.CreateInvoice E now1 now2 buyer req db' = (Ok invoice, db'') /\
     i_BusinessPartner invoice = Some created /\
     i_CompanyID invoice = bp_CompanyID created /\
     In (repository.with_joins None None invoice) (repository.invoices db'')).
Proof.
  intros Hfresh Hcreate HU Hreq.
  apply CreateBusinessPartner_inv in Hcreate. destruct Hcreate as [author [_ [Hrow ->]]].
  assert (Hid : bp_ID created = repository.next_business_partner_id db)
    by (rewrite Hrow; reflexivity).
  pose proof (GetBusinessPartnerByID_inserted db created Hfresh Hid) as Hget.
  split.
  - intros Hne. unfold service.CreateInvoice. run_service.
    rewrite GetUserByID_insert_business_partner, HU, Hreq, Hget.
    replace (N.eqb (bp_CompanyID created) (u_CompanyID user)) with false; [reflexivity|].
    symmetry. apply N.eqb_neq. congruence.
  - intros Heq Hfresh'.
    rewrite <- Hreq in Hget.
    pose proof (CreateInvoice_ok E now1 now2 buyer req (insert_business_partner created db)
                  user created HU Hget (eq_sym Heq) Hfresh') as Hok.
    cbv zeta in Hok. eexists. eexists. split; [exact Hok|].
    split; [reflexivity|]. split; [exact Heq|].
    cbn. apply in_or_app. right. left. reflexivity.
Qed.

Lemma created_partner_invoiced_witness :
  let created :=
    repository.stamp_business_partner 4 sample.d_2024_01_15
      (service.set_CompanyID sample.supplier_corp 1) in
  let db' := insert_business_partner created sample.db in
  service.CreateInvoice repository.stable_engine sample.d_2024_01_20 sample.d_2024_01_20 2
                        (sample.request 4 1000) db'
  = (Err "business partner does not belong to your company", db') /\
  exists invoice db'',
    service.CreateInvoice repository.stable_engine sample.d_2024_01_20 sample.d_2024_01_20 1
                          (sample.request 4 1000) db'
    = (Ok invoice, db'') /\
    i_BusinessPartner invoice = Some created.
Proof.
  intros created db'. split.
  - apply (created_partner_invoiced repository.stable_engine
             sample.d_2024_01_15 sample.d_2024_01_20
             sample.d_2024_01_20 1 sample.supplier_corp created sample.db db' 2 sample.bob
             (sample.request 4 1000) eq_refl eq_refl eq_refl eq_refl).
    cbn. discriminate.
  - destruct (created_partner_invoiced repository.stable_engine
                sample.d_2024_01_15 sample.d_2024_01_20
                sample.d_2024_01_20 1 sample.supplier_corp created sample.db db' 1
                sample.alice (sample.request 4 1000) eq_refl eq_refl eq_refl eq_refl)
      as [_ H].
    destruct (H eq_refl eq_refl) as [invoice [db'' [Hrun [Hp _]]]].
    exists invoice, db''. auto.
Defined.

(** ** The effect of invoice creation on the store *)

(** What a call of [CreateInvoice] does to the store, whatever the
    identifiers in it: a call that succeeds has appended the row, and a call
    that fails has left the store as it was unless it failed reading the
    invoice back, after the INSERT. *)
Lemma CreateInvoice_inv (E : repository.Engine) (now now' : Time) (userID : uint)
      (req : CreateInvoiceRequest) (db : repository.DB) (r : result Invoice)
      (db' : repository.DB) :
  service.CreateInvoice E now now' userID req db = (r, db') ->
  match r with
  | Ok _ => invoice_inserted E now now' userID req db db'
  | Err e =>
      db' = db \/
      (invoice_inserted E now now' userID req db db' /\
       exists e', e = ("failed to get created invoice: " ++ e')%string)
  end.
Proof.
  unfold service.CreateInvoice. run_service.
  destruct (repository.GetUserByID db userID) as [user|e] eqn:HU.
  2:{ intros H. injection H as <- <-. now left. }
  destruct (repository.GetBusinessPartnerByID db _) as [partner|e] eqn:HP.
  2:{ intros H. injection H as <- <-. now left. }
  destruct (N.eqb_spec (bp_CompanyID partner) (u_CompanyID user)) as [Heq|Hne]; cbn [negb].
  2:{ intros H. injection H as <- <-. now left. }
  destruct (GetUserByID_inv _ _ _ HU) as [_ [c [Hc _]]].
  destruct (GetBusinessPartnerByID_inv _ _ _ HP) as [Hp _].
  unfold repository.CreateInvoice.
  cbn [service.new_invoice i_CompanyID i_BusinessPartnerID].
  rewrite Hc, Hp.
  assert (Hins : forall d,
             d = insert_invoice (invoice_row E now now' user req db) db ->
             invoice_inserted E now now' userID req db d).
  { intros d ->. exists user, partner. repeat split; assumption. }
  match goal with
  | |- context [repository.GetInvoiceByID ?d ?i] =>
      destruct (repository.GetInvoiceByID d i) as [inv|e] eqn:Hget
  end.
  - intros H. injection H as <- <-. apply Hins. reflexivity.
  - intros H. injection H as <- <-. right. split; [apply Hins; reflexivity|].
    exists e. reflexivity.
Qed.

(** A call that succeeds finds the acting user and a partner of that
    user's company. *)
Lemma CreateInvoice_Ok_inv (E : repository.Engine) (now now' : Time) (userID : uint)
      (req : CreateInvoiceRequest) (db db' : repository.DB) (invoice : Invoice) :
  service.CreateInvoice E now now' userID req db = (Ok invoice, db') ->
  exists user partner,
    repository.GetUserByID db userID = Ok user /\
    repository.GetBusinessPartnerByID db (BusinessPartnerID req) = Ok partner /\
    bp_CompanyID partner = u_CompanyID user /\
    db' = insert_invoice (invoice_row E now now' user req db) db.
Proof. intros H. exact (CreateInvoice_inv _ _ _ _ _ _ _ _ H). Qed.

Lemma ShouldBindJSON_nil (req : CreateInvoiceRequest) :
  api.ShouldBindJSON req = None <->
  BusinessPartnerID req <> 0%N /\ (0 <? PaymentAmount req)%float = true /\
  PaymentDueDate req <> 0.
Proof.
  unfold api.ShouldBindJSON, api.binding_CreateInvoiceRequest.
  destruct (N.eqb_spec (BusinessPartnerID req) 0) as [Hb|Hb]; cbn [app].
  { split; [discriminate|]. intros [H _]. contradiction. }
  destruct (0 <? PaymentAmount req)%float eqn:Hpos.
  - rewrite (positive_not_zero _ Hpos). cbn [app].
    destruct (Z.eqb_spec (PaymentDueDate req) 0) as [Hd|Hd].
    + split; [discriminate|]. intros [_ [_ H]]. contradiction.
    + split; auto.
  - split; [|intros [_ [H _]]; discriminate].
    destruct (PaymentAmount req =? 0)%float; discriminate.
Qed.

Lemma Validate_nil (now0 : Time) (req : CreateInvoiceRequest) :
  Validate now0 req = None <-> now0 <= PaymentDueDate req.
Proof.
  unfold Validate, ValidatePaymentDueDate, Before.
  destruct (Z.ltb_spec (PaymentDueDate req) now0); split;
    try discriminate; try reflexivity; lia.
Qed.

(** X9.  When the handler of [POST /api/invoices] answers 200, exactly
    one row was appended to [invoices] and nothing else changed.  The row
    belongs to the company of the authenticated user, names a business
    partner of that company and has status [unprocessed].  The payment amount
    of the request is greater than 0 and its due date is not before the time
    of the check; the row holds what columns [payment_amount DECIMAL(15,2)]
    and [payment_due_date DATE] keep of the two: on a server that keeps the
    promises of its column types, an amount with two decimal places and a due
    date not before the date of the check. *)
Theorem createInvoice_created (E : repository.Engine) (now0 now now' : Time) (userID : uint)
        (req : CreateInvoiceRequest) (db db' : repository.DB) (resp : api.Response) :
  api.createInvoice E now0 now now' userID req db = (resp, db') ->
  api.StatusCode resp = 200 ->
  exists user partner,
    repository.GetUserByID db userID = Ok user /\
    repository.GetBusinessPartnerByID db (BusinessPartnerID req) = Ok partner /\
    bp_CompanyID partner = u_CompanyID user /\
    db' = insert_invoice (invoice_row E now now' user req db) db /\
    i_ID (invoice_row E now now' user req db) = repository.next_invoice_id db /\
    i_CompanyID (invoice_row E now now' user req db) = u_CompanyID user /\
    i_BusinessPartnerID (invoice_row E now now' user req db) = bp_ID partner /\
    i_Status (invoice_row E now now' user req db) = InvoiceStatusUnprocessed /\
    (0 <? PaymentAmount req)%float = true /\
    i_PaymentAmount (invoice_row E now now' user req db)
    = repository.decimal E mysql.DECIMAL_15_2 (PaymentAmount req) /\
    now0 <= PaymentDueDate req /\
    i_PaymentDueDate (invoice_row E now now' user req db)
    = repository.date E (PaymentDueDate req) /\
    (repository.storing E ->
     mysql.fixed mysql.DECIMAL_15_2 (i_PaymentAmount (invoice_row E now now' user req db))
     = true /\
     repository.date E now0 <= i_PaymentDueDate (invoice_row E now now' user req db)).
Proof.
  unfold api.createInvoice.
  destruct (api.ShouldBindJSON req) eqn:Hbind.
  { intros H. injection H as <- _. discriminate. }
  destruct (Validate now0 req) eqn:Hval.
  { intros H. injection H as <- _. discriminate. }
  destruct (service.CreateInvoice E now now' userID req db) as [[invoice|e] db1] eqn:Hsvc.
  2:{ intros H. injection H as <- _. discriminate. }
  intros H _. injection H as _ <-.
  apply CreateInvoice_Ok_inv in Hsvc. destruct Hsvc as [user [partner [HU [HP [Heq ->]]]]].
  apply ShouldBindJSON_nil in Hbind. destruct Hbind as [_ [Hpos _]].
  apply Validate_nil in Hval.
  destruct (GetBusinessPartnerByID_inv _ _ _ HP) as [_ Hid].
  exists user, partner. cbn.
  repeat (split; [auto; fail|]).
  intros [_ [Hfixed Hmono]]. split; [apply Hfixed|apply Hmono; exact Hval].
Qed.

(** A request for 0.001 yen due at 15:00 on 2024-02-25 and checked at 10:00
    of that day is answered 200; the row holds the amount 0 and the due date
    2024-02-25, 00:00. *)
Lemma createInvoice_created_witness :
  let req := {| BusinessPartnerID := 1; PaymentAmount := 0.001;
                PaymentDueDate := sample.d_2024_02_25 + 15 * 3600 * Second |} in
  let now0 := sample.d_2024_02_25 + 10 * 3600 * Second in
  exists user,
    repository.GetUserByID sample.db 1 = Ok user /\
    snd (api.createInvoice repository.stable_engine now0 now0 now0 1 req sample.db)
    = insert_invoice (invoice_row repository.stable_engine now0 now0 user req sample.db)
                     sample.db /\
    i_PaymentAmount (invoice_row repository.stable_engine now0 now0 user req sample.db)
    = 0%float /\
    i_PaymentDueDate (invoice_row repository.stable_engine now0 now0 user req sample.db)
    = sample.d_2024_02_25 /\
    repository.date repository.stable_engine now0
    <= i_PaymentDueDate (invoice_row repository.stable_engine now0 now0 user req sample.db).
Proof.
  intros req now0.
  destruct (createInvoice_created repository.stable_engine now0 now0 now0 1 req
              sample.db _ _ eq_refl eq_refl)
    as [user [partner [HU [_ [_ [Hdb [_ [_ [_ [_ [_ [Hamount [_ [Hdue Hst]]]]]]]]]]]]]].
  exists user. split; [exact HU|]. split; [exact Hdb|].
  split; [rewrite Hamount; vm_compute; reflexivity|].
  split; [rewrite Hdue; vm_compute; reflexivity|].
  exact (proj2 (Hst stable_engine_storing)).
Defined.

(** X10.  Every other answer of the handler is a 400 or a 500.  With the
    check made after the zero time, the answer is 400 exactly when the
    request lacks a business partner id or a payment amount greater than 0,
    or has a due date before the time of the check.  A 400 leaves the store
    as it was, and so does a 500 with any message but that of a failed read
    of the invoice created ("failed to get created invoice: ..."), which
    comes after the INSERT. *)
Theorem createInvoice_rejected (E : repository.Engine) (now0 now now' : Time) (userID : uint)
        (req : CreateInvoiceRequest) (db db' : repository.DB) (resp : api.Response) :
  0 < now0 ->
  api.createInvoice E now0 now now' userID req db = (resp, db') ->
  api.StatusCode resp <> 200 ->
  (api.StatusCode resp = 400 \/ api.StatusCode resp = 500) /\
  (api.StatusCode resp = 400 <->
   ~ (BusinessPartnerID req <> 0%N /\ (0 <? PaymentAmount req)%float = true /\
      now0 <= PaymentDueDate req)) /\
  (api.StatusCode resp = 400 -> db' = db) /\
  (api.StatusCode resp = 500 ->
   (forall e : string,
       api.ResponseBody resp
       <> api.ErrorResponse "invoice_creation_failed"
                            ("failed to get created invoice: " ++ e)) ->
   db' = db).
Proof.
  intros Hnow0. unfold api.createInvoice.
  pose proof (ShouldBindJSON_nil req) as Hbind.
  pose proof (Validate_nil now0 req) as Hval.
  destruct (api.ShouldBindJSON req).
  { intros H _. injection H as <- <-. cbn.
    split; [now left|]. split; [|split; [reflexivity|discriminate]].
    split; [intros _|reflexivity].
    intros [H1 [H2 H3]]. assert (Some s = None); [|discriminate].
    apply Hbind. repeat split; auto. lia. }
  destruct (Validate now0 req).
  { intros H _. injection H as <- <-. cbn.
    split; [now left|]. split; [|split; [reflexivity|discriminate]].
    split; [intros _|reflexivity].
    intros [_ [_ H4]]. apply Hval in H4. discriminate. }
  destruct (service.CreateInvoice E now now' userID req db) as [[invoice|e] db1] eqn:Hsvc.
  { intros H Hne. injection H as <- <-. now contradiction Hne. }
  intros H _. injection H as <- <-. cbn.
  pose proof (CreateInvoice_inv _ _ _ _ _ _ _ _ Hsvc) as Hdb. cbn in Hdb.
  split; [now right|]. split; [|split; [discriminate|]].
  - split; [discriminate|]. intros Hn. contradiction Hn.
    destruct (proj1 Hbind eq_refl) as [H1 [H2 H3]].
    repeat split; auto. now apply Hval.
  - intros _ Hmsg. destruct Hdb as [Hdb|[_ [e' He']]]; [exact Hdb|].
    exfalso. apply (Hmsg e'). rewrite He'. reflexivity.
Qed.

(** Alice's request against partner 3, of company 2, is answered 500 with
    the store as it was; a request without a payment amount is answered
    400. *)
Lemma createInvoice_rejected_witness :
  snd (api.createInvoice repository.stable_engine sample.d_2024_01_15 sample.d_2024_01_15
                         sample.d_2024_01_15 1 (sample.request 3 12345) sample.db)
  = sample.db /\
  api.StatusCode
    (fst (api.createInvoice repository.stable_engine sample.d_2024_01_15 sample.d_2024_01_15
                            sample.d_2024_01_15 1 (sample.request 3 12345) sample.db)) = 500 /\
  api.StatusCode
    (fst (api.createInvoice repository.stable_engine sample.d_2024_01_15 sample.d_2024_01_15
                            sample.d_2024_01_15 1 (sample.request 1 0) sample.db)) = 400.
Proof.
  split; [|split].
  - destruct (createInvoice_rejected repository.stable_engine
                sample.d_2024_01_15 sample.d_2024_01_15
                sample.d_2024_01_15 1 (sample.request 3 12345) sample.db _ _
                eq_refl eq_refl)
      as [_ [_ [_ Hdb]]].
    + cbn. discriminate.
    + apply Hdb; [reflexivity|]. intros e H. cbn in H. discriminate.
  - reflexivity.
  - destruct (createInvoice_rejected repository.stable_engine
                sample.d_2024_01_15 sample.d_2024_01_15
                sample.d_2024_01_15 1 (sample.request 1 0) sample.db _ _
                eq_refl eq_refl)
      as [_ [H400 _]].
    + cbn. discriminate.
    + apply H400. intros [_ [H _]]. discriminate.
Defined.

(** The invoice a successful [CreateInvoice] returns can be read back
    under its identifier. *)
Lemma CreateInvoice_read_back (E : repository.Engine) (now now' : Time) (userID : uint)
      (req : CreateInvoiceRequest)
      (db db' : repository.DB) (invoice : Invoice) :
  fresh_invoice_id db = true ->
  service.CreateInvoice E now now' userID req db = (Ok invoice, db') ->
  exists user,
    repository.GetUserByID db userID = Ok user /\
    i_CompanyID invoice = u_CompanyID user /\
    db' = insert_invoice (invoice_row E now now' user req db) db /\
    repository.GetInvoiceByID db' (i_ID invoice) = Ok invoice.
Proof.
  intros Hfresh Hrun.
  pose proof (CreateInvoice_inv _ _ _ _ _ _ _ _ Hrun) as Hinv. cbn in Hinv.
  destruct Hinv as [user [partner [HU [HP [Heq Hdb]]]]].
  pose proof (CreateInvoice_ok E now now' userID req db user partner HU HP Heq Hfresh) as Hok.
  cbv zeta in Hok. rewrite Hrun in Hok. injection Hok as Hinv _.
  destruct (GetUserByID_inv _ _ _ HU) as [_ [c [Hc HuC]]].
  destruct (GetBusinessPartnerByID_inv _ _ _ HP) as [Hp _].
  exists user. split; [exact HU|]. split; [rewrite Hinv; reflexivity|].
  split; [exact Hdb|].
  rewrite Hdb, Hinv, HuC.
  exact (GetInvoiceByID_inserted db (invoice_row E now now' user req db) c partner
           Hfresh eq_refl Hc Hp).
Qed.

(** X11.  An invoice created by [CreateInvoice] can be retrieved under
    its identifier by the users of its company, who get the invoice the
    creation returned, and by nobody else: [GetInvoiceByID] by a user of
    another company fails with "invoice not found". *)
Theorem created_invoice_retrieved (E : repository.Engine) (now now' : Time) (userID : uint)
        (req : CreateInvoiceRequest) (db db' : repository.DB) (invoice : Invoice) :
  fresh_invoice_id db = true ->
  service.CreateInvoice E now now' userID req db = (Ok invoice, db') ->
  service.GetInvoiceByID userID (i_ID invoice) db' = (Ok invoice, db') /\
  (forall (reader : uint) (user : User),
      repository.GetUserByID db reader = Ok user ->
      service.GetInvoiceByID reader (i_ID invoice) db'
      = (if N.eqb (u_CompanyID user) (i_CompanyID invoice)
         then Ok invoice else Err "invoice not found", db')).
Proof.
  intros Hfresh Hrun.
  destruct (CreateInvoice_read_back _ _ _ _ _ _ _ _ Hfresh Hrun)
    as [author [HA [Hcompany [Hdb Hget]]]].
  assert (Hread : forall (reader : uint) (user : User),
             repository.GetUserByID db reader = Ok user ->
             service.GetInvoiceByID reader (i_ID invoice) db'
             = (if N.eqb (u_CompanyID user) (i_CompanyID invoice)
                then Ok invoice else Err "invoice not found", db')).
  { intros reader user HU. unfold service.GetInvoiceByID. run_service.
    rewrite Hget. rewrite Hdb at 1. rewrite GetUserByID_insert_invoice, HU.
    rewrite (N.eqb_sym (u_CompanyID user)).
    destruct (N.eqb (i_CompanyID invoice) (u_CompanyID user)); reflexivity. }
  split; [|exact Hread].
  rewrite (Hread userID author HA), Hcompany, N.eqb_refl. reflexivity.
Qed.

Lemma created_invoice_retrieved_witness :
  exists invoice db',
    service.CreateInvoice repository.stable_engine sample.d_2024_01_15 sample.d_2024_01_15 1
                          (sample.request 1 12345) sample.db = (Ok invoice, db') /\
    service.GetInvoiceByID 1 (i_ID invoice) db' = (Ok invoice, db') /\
    service.GetInvoiceByID 2 (i_ID invoice) db' = (Err "invoice not found", db').
Proof.
  eexists. eexists. split; [reflexivity|].
  match goal with
  | |- service.GetInvoiceByID 1 (i_ID ?inv) ?d = _ /\ _ =>
      destruct (created_invoice_retrieved repository.stable_engine
                  sample.d_2024_01_15 sample.d_2024_01_15 1
                  (sample.request 1 12345) sample.db d inv eq_refl eq_refl)
        as [Hown Hother]
  end.
  split; [exact Hown|]. exact (Hother 2%N sample.bob eq_refl).
Defined.

(** ** The condition the writing calls keep *)

Lemma linked_insert_invoice (row : Invoice) (db : repository.DB)
      (c : Company) (p : BusinessPartner) :
  linked db ->
  repository.find_company db (i_CompanyID row) = Some c ->
  repository.find_business_partner db (i_BusinessPartnerID row) = Some p ->
  bp_CompanyID p = i_CompanyID row ->
  linked (insert_invoice row db).
Proof.
  intros Hl Hc Hp Heq i Hi. unfold insert_invoice in Hi. cbn [repository.invoices] in Hi.
  apply in_app_or in Hi. destruct Hi as [Hi|[<-|[]]].
  - exact (Hl i Hi).
  - exists c, p. auto.
Qed.

Lemma linked_insert_business_partner (row : BusinessPartner) (db : repository.DB) :
  linked db -> linked (insert_business_partner row db).
Proof.
  intros Hl i Hi. destruct (Hl i Hi) as [c [p [Hc [Hp Heq]]]].
  exists c, p. split; [exact Hc|]. split; [|exact Heq].
  unfold repository.find_business_partner, insert_business_partner in *.
  cbn [repository.business_partners]. now apply find_app_some.
Qed.

Lemma linked_UpdateInvoiceStatus (now : Time) (id : uint) (status : InvoiceStatus)
      (db db' : repository.DB) :
  linked db ->
  repository.UpdateInvoiceStatus now id status db = Ok (tt, db') ->
  linked db'.
Proof.
  intros Hl H. injection H as <-. intros i Hi. cbn [repository.invoices] in Hi.
  apply in_map_iff in Hi. destruct Hi as [i0 [<- Hi0]].
  destruct (Hl i0 Hi0) as [c [p [Hc [Hp Heq]]]].
  exists c, p. destruct (N.eqb (i_ID i0) id); auto.
Qed.

Lemma fresh_business_partner_id_insert (row : BusinessPartner) (db : repository.DB) :
  fresh_business_partner_id db = true ->
  bp_ID row = repository.next_business_partner_id db ->
  fresh_business_partner_id (insert_business_partner row db) = true.
Proof.
  unfold fresh_business_partner_id, insert_business_partner.
  cbn [repository.business_partners repository.next_business_partner_id].
  intros Hfresh Hid. rewrite forallb_app. apply andb_true_intro. split.
  - rewrite forallb_forall in *. intros p Hp. specialize (Hfresh p Hp).
    apply N.ltb_lt in Hfresh. apply N.ltb_lt. lia.
  - cbn. rewrite Hid, andb_true_r. apply N.ltb_lt. lia.
Qed.

Lemma fresh_invoice_id_UpdateInvoiceStatus (now : Time) (id : uint)
      (status : InvoiceStatus) (db db' : repository.DB) :
  fresh_invoice_id db = true ->
  repository.UpdateInvoiceStatus now id status db = Ok (tt, db') ->
  fresh_invoice_id db' = true.
Proof.
  intros Hfresh H. injection H as <-. unfold fresh_invoice_id in *.
  cbn [repository.invoices repository.next_invoice_id].
  rewrite forallb_forall in *. intros i Hi.
  apply in_map_iff in Hi. destruct Hi as [i0 [<- Hi0]].
  specialize (Hfresh i0 Hi0). destruct (N.eqb (i_ID i0) id); exact Hfresh.
Qed.

Lemma after_call_consistent (E : repository.Engine) (db : repository.DB) (c : Call) :
  consistent db -> consistent (after_call E db c).
Proof.
  intros [Hfi [Hfp Hl]]. destruct c as [now now' userID req|now userID partner|now id status];
    cbn [after_call].
  - destruct (service.CreateInvoice E now now' userID req db) as [r db'] eqn:Hrun.
    pose proof (CreateInvoice_preserves_fresh E now now' userID req db Hfi) as Hfi'.
    rewrite Hrun in Hfi'. cbn [snd] in *.
    apply CreateInvoice_inv in Hrun.
    assert (Hins : invoice_inserted E now now' userID req db db' -> consistent db').
    { intros [user [partner [HU [HP [Heq ->]]]]].
      destruct (GetUserByID_inv _ _ _ HU) as [_ [c [Hc _]]].
      destruct (GetBusinessPartnerByID_inv _ _ _ HP) as [Hp _].
      split; [exact Hfi'|]. split; [exact Hfp|].
      exact (linked_insert_invoice (invoice_row E now now' user req db) db c partner
               Hl Hc Hp Heq). }
    destruct r as [invoice|e]; [exact (Hins Hrun)|].
    destruct Hrun as [->|[Hrun _]]; [repeat split; assumption|exact (Hins Hrun)].
  - destruct (service.CreateBusinessPartner now userID partner db) as [r db'] eqn:Hrun.
    cbn [snd]. apply CreateBusinessPartner_inv in Hrun. destruct r as [created|e].
    + destruct Hrun as [user [_ [Hrow ->]]].
      split; [exact Hfi|]. split.
      * apply fresh_business_partner_id_insert; [exact Hfp|]. rewrite Hrow. reflexivity.
      * now apply linked_insert_business_partner.
    + subst db'. repeat split; assumption.
  - destruct (repository.UpdateInvoiceStatus now id status db) as [[[] db']|e] eqn:Hrun.
    + split; [exact (fresh_invoice_id_UpdateInvoiceStatus _ _ _ _ _ Hfi Hrun)|].
      split; [|exact (linked_UpdateInvoiceStatus _ _ _ _ _ Hl Hrun)].
      injection Hrun as <-. exact Hfp.
    + repeat split; assumption.
Qed.

Lemma after_calls_consistent (E : repository.Engine) (cs : list Call) (db : repository.DB) :
  consistent db -> consistent (after_calls E db cs).
Proof.
  unfold after_calls. revert db. induction cs as [|c cs IH]; intros db H; cbn [fold_left].
  - exact H.
  - apply IH. now apply after_call_consistent.
Qed.

(** An invoice as a SELECT with the two joins returns it. *)
Lemma joined_invoices_linked (db : repository.DB) (invoice : Invoice) :
  linked db ->
  In invoice (repository.joined_invoices db) ->
  exists p,
    i_BusinessPartner invoice = Some p /\
    bp_ID p = i_BusinessPartnerID invoice /\
    bp_CompanyID p = i_CompanyID invoice.
Proof.
  intros Hl Hin. unfold repository.joined_invoices in Hin.
  apply in_flat_map in Hin. destruct Hin as [row [Hrow Hj]].
  destruct (Hl row Hrow) as [c [p [Hc [Hp Heq]]]].
  unfold repository.join_invoice in Hj. rewrite Hc, Hp in Hj.
  destruct Hj as [<-|[]]. exists p. cbn. split; [reflexivity|]. split; [|exact Heq].
  unfold repository.find_business_partner in Hp. apply find_some in Hp.
  now apply N.eqb_eq.
Qed.

Lemma sample_db_consistent : consistent sample.db.
Proof.
  split; [reflexivity|]. split; [reflexivity|].
  intros i [<-|[<-|[<-|[]]]]; eexists; eexists; repeat split.
Qed.

(** X12.  The calls that write to the store ([CreateInvoice] and
    [CreateBusinessPartner] of the service, [UpdateInvoiceStatus] of the
    repository), in any number and order and whether they fail or not, keep
    the store consistent: the AUTO_INCREMENT counters stay above the
    identifiers and every invoice row points to a business partner of the
    invoice's own company.  Hence every invoice a query with the joins
    returns carries a partner of its own company, and an invoice that
    [GetInvoiceByID] returns to a user carries a partner of that user's
    company. *)
Theorem invoices_stay_within_company (E : repository.Engine) (cs : list Call) (db : repository.DB) :
  consistent db ->
  consistent (after_calls E db cs) /\
  (forall invoice,
      In invoice (repository.joined_invoices (after_calls E db cs)) ->
      exists p,
        i_BusinessPartner invoice = Some p /\
        bp_ID p = i_BusinessPartnerID invoice /\
        bp_CompanyID p = i_CompanyID invoice) /\
  (forall (userID id : uint) (invoice : Invoice),
      fst (service.GetInvoiceByID userID id (after_calls E db cs)) = Ok invoice ->
      exists user p,
        repository.GetUserByID (after_calls E db cs) userID = Ok user /\
        i_CompanyID invoice = u_CompanyID user /\
        i_BusinessPartner invoice = Some p /\
        bp_CompanyID p = u_CompanyID user).
Proof.
  intros Hc. pose proof (after_calls_consistent E cs db Hc) as Hc'.
  destruct Hc' as [Hfi [Hfp Hl]].
  split; [repeat split; assumption|]. split.
  - intros invoice Hin. exact (joined_invoices_linked _ _ Hl Hin).
  - intros userID id invoice. unfold service.GetInvoiceByID. run_service.
    destruct (repository.GetUserByID _ userID) as [user|e]; [|discriminate].
    destruct (repository.GetInvoiceByID _ id) as [inv|e] eqn:Hget; [|discriminate].
    destruct (N.eqb_spec (i_CompanyID inv) (u_CompanyID user)) as [Heq|Hne];
      cbn [negb fst]; [|discriminate].
    intros H. injection H as <-.
    unfold repository.GetInvoiceByID in Hget.
    destruct (find _ _) as [j|] eqn:Hf; [|discriminate]. injection Hget as ->.
    apply find_some in Hf. destruct Hf as [Hin _].
    destruct (joined_invoices_linked _ _ Hl Hin) as [p [Hp [_ Hpc]]].
    exists user, p. repeat split; congruence.
Qed.

Lemma invoices_stay_within_company_witness :
  consistent
    (after_calls repository.stable_engine sample.db
       [call_CreateBusinessPartner sample.d_2024_01_15 1 sample.supplier_corp;
        call_CreateInvoice sample.d_2024_01_20 sample.d_2024_01_20 1 (sample.request 4 1000);
        call_CreateInvoice sample.d_2024_01_20 sample.d_2024_01_20 2 (sample.request 4 1000);
        call_UpdateInvoiceStatus sample.d_2024_01_25 4 InvoiceStatusPaid]).
Proof.
  apply invoices_stay_within_company. exact sample_db_consistent.
Defined.

(** ** The status of an invoice *)

Lemma flat_map_map {A B C : Type} (f : A -> B) (g : B -> list C) (l : list A) :
  flat_map g (map f l) = flat_map (fun a => g (f a)) l.
Proof. induction l as [|a l IH]; cbn; [reflexivity|now rewrite IH]. Qed.

Lemma map_flat_map {A B C : Type} (f : B -> C) (g : A -> list B) (l : list A) :
  map f (flat_map g l) = flat_map (fun a => map f (g a)) l.
Proof. induction l as [|a l IH]; cbn; [reflexivity|now rewrite map_app, IH]. Qed.

Lemma find_map_same {A : Type} (p : A -> bool) (f : A -> A) (l : list A) :
  (forall a, p (f a) = p a) ->
  find p (map f l) = option_map f (find p l).
Proof.
  intros Hp. induction l as [|a l IH]; cbn; [reflexivity|].
  rewrite Hp. destruct (p a); [reflexivity|exact IH].
Qed.

Lemma update_status_ID (id : uint) (status : InvoiceStatus) (now : Time) (i : Invoice) :
  i_ID (update_status id status now i) = i_ID i.
Proof. unfold update_status. destruct (N.eqb (i_ID i) id); reflexivity. Qed.

(** The joined rows after [UpdateInvoiceStatus]. *)
Lemma joined_invoices_UpdateInvoiceStatus (now : Time) (id : uint)
      (status : InvoiceStatus) (db db' : repository.DB) :
  repository.UpdateInvoiceStatus now id status db = Ok (tt, db') ->
  repository.joined_invoices db'
  = map (update_status id status now) (repository.joined_invoices db).
Proof.
  intros H. injection H as <-. unfold repository.joined_invoices.
  cbn [repository.invoices]. rewrite flat_map_map, map_flat_map.
  apply flat_map_ext. intros row.
  unfold repository.join_invoice, repository.find_company,
    repository.find_business_partner.
  cbn [repository.companies repository.business_partners].
  replace (i_CompanyID (if N.eqb (i_ID row) id
                        then repository.set_status status now row else row))
    with (i_CompanyID row) by (destruct (N.eqb (i_ID row) id); reflexivity).
  replace (i_BusinessPartnerID (if N.eqb (i_ID row) id
                                then repository.set_status status now row else row))
    with (i_BusinessPartnerID row) by (destruct (N.eqb (i_ID row) id); reflexivity).
  destruct (find _ (repository.companies db)) as [c|]; [|reflexivity].
  destruct (find _ (repository.business_partners db)) as [p|]; [|reflexivity].
  cbn [map]. unfold update_status. cbn [repository.with_joins i_ID].
  destruct (N.eqb (i_ID row) id); reflexivity.
Qed.

(** X13.  [UpdateInvoiceStatus] returns [nil] whether or not an invoice
    has the identifier: when none has, the store is unchanged.  Otherwise the
    invoices read back afterwards, one by one or as joined rows, are those
    read before with the status and [UpdatedAt] of the invoice of that
    identifier replaced; identifiers, companies, partners, dates and amounts
    are as they were, and so are the other tables. *)
Theorem UpdateInvoiceStatus_effect (now : Time) (id : uint) (status : InvoiceStatus)
        (db : repository.DB) :
  exists db',
    repository.UpdateInvoiceStatus now id status db = Ok (tt, db') /\
    repository.joined_invoices db'
    = map (update_status id status now) (repository.joined_invoices db) /\
    (forall id0,
        repository.GetInvoiceByID db' id0
        = match repository.GetInvoiceByID db id0 with
          | Ok invoice => Ok (update_status id status now invoice)
          | Err e => Err e
          end) /\
    (forall invoice,
        repository.GetInvoiceByID db id = Ok invoice ->
        exists invoice',
          repository.GetInvoiceByID db' id = Ok invoice' /\
          i_Status invoice' = status /\ i_UpdatedAt invoice' = now /\
          i_PaymentAmount invoice' = i_PaymentAmount invoice /\
          i_Fee invoice' = i_Fee invoice /\
          i_ConsumptionTax invoice' = i_ConsumptionTax invoice /\
          i_InvoiceAmount invoice' = i_InvoiceAmount invoice /\
          i_PaymentDueDate invoice' = i_PaymentDueDate invoice /\
          i_CompanyID invoice' = i_CompanyID invoice /\
          i_BusinessPartner invoice' = i_BusinessPartner invoice) /\
    ((forall row, In row (repository.invoices db) -> i_ID row <> id) -> db' = db) /\
    repository.companies db' = repository.companies db /\
    repository.users db' = repository.users db /\
    repository.business_partners db' = repository.business_partners db.
Proof.
  eexists. split; [reflexivity|].
  pose proof (joined_invoices_UpdateInvoiceStatus now id status db _ eq_refl) as Hj.
  assert (Hget : forall id0,
             repository.GetInvoiceByID
               {| repository.companies := repository.companies db;
                  repository.users := repository.users db;
                  repository.business_partners := repository.business_partners db;
                  repository.invoices :=
                    map (fun i => if N.eqb (i_ID i) id
                                  then repository.set_status status now i else i)
                        (repository.invoices db);
                  repository.next_business_partner_id :=
                    repository.next_business_partner_id db;
                  repository.next_invoice_id := repository.next_invoice_id db |} id0
             = match repository.GetInvoiceByID db id0 with
               | Ok invoice => Ok (update_status id status now invoice)
               | Err e => Err e
               end).
  { intros id0. unfold repository.GetInvoiceByID. rewrite Hj, find_map_same.
    - destruct (find _ (repository.joined_invoices db)); reflexivity.
    - intros a. now rewrite update_status_ID. }
  split; [exact Hj|]. split; [exact Hget|]. split; [|split; [|repeat split]].
  - intros invoice Hinv. rewrite Hget, Hinv.
    destruct (GetInvoiceByID_inv _ _ _ Hinv) as [Hid _].
    eexists. split; [reflexivity|]. unfold update_status.
    rewrite Hid, N.eqb_refl. cbn. repeat split.
  - intros Hnone. destruct db as [cs us ps rows nb ni]. cbn in *. f_equal.
    rewrite <- (map_id rows) at 2. apply map_ext_in. intros row Hrow.
    specialize (Hnone row Hrow). apply N.eqb_neq in Hnone. now rewrite Hnone.
Qed.

(** ** The handler of the invoice listing *)

Lemma run_query_length (E : repository.Engine) (db : repository.DB) (q : repository.Query)
      (res : list Invoice) (n : Z) :
  repository.run_query E db q = Ok res ->
  repository.q_limit q = Some n ->
  (List.length res <= Z.to_nat n)%nat.
Proof.
  unfold repository.run_query. intros Hrun Hlimit. rewrite Hlimit in Hrun.
  cbn [repository.apply_limit] in Hrun.
  destruct (repository.q_offset q) as [o|].
  - destruct (o <? 0); [discriminate|]. injection Hrun as <-.
    rewrite length_firstn. lia.
  - injection Hrun as <-. rewrite length_firstn. lia.
Qed.

(** X14.  When the handler of [GET /api/invoices] answers 200, the query
    parameters parsed to a request, and the response lists at most 100
    invoices, each of the company of the authenticated user and each
    passing the filters of that request, its status being equal to the one
    asked for under the collation of the database; this holds whatever [page]
    and [limit] the client sent. *)
Theorem getInvoices_bounded_and_scoped (Parse : string -> result Time)
        (E : repository.Engine) (userID : uint) (Query : string -> string)
        (db : repository.DB) :
  repository.conforming E ->
  api.Code (api.getInvoices Parse E userID Query db) = 200 ->
  exists req user invoices,
    api.parse_GetInvoicesRequest Parse Query = Ok req /\
    repository.GetUserByID db userID = Ok user /\
    api.Content (api.getInvoices Parse E userID Query db)
    = api.SuccessResponseOf "Invoices retrieved successfully" invoices /\
    (List.length invoices <= 100)%nat /\
    Forall (passes_filter (repository.collation E) (u_CompanyID user) req) invoices.
Proof.
  intros HE. unfold api.getInvoices.
  destruct (api.parse_GetInvoicesRequest Parse Query) as [req|msg]; [|discriminate].
  destruct (service.GetInvoices E userID req db) as [[res|e] db'] eqn:Hsvc; [|discriminate].
  intros _.
  assert (Hfst : fst (service.GetInvoices E userID req db) = Ok res) by now rewrite Hsvc.
  destruct (GetInvoices_inv _ _ _ _ _ Hfst) as [user [HU Hrun]].
  exists req, user, res. split; [reflexivity|]. split; [exact HU|].
  split; [reflexivity|]. split.
  - destruct (default_pagination_bounds req) as [_ HL].
    assert (Hlen : (List.length res
                    <= Z.to_nat (Limit (service.default_pagination req)))%nat).
    { apply (run_query_length _ _ _ _ _ Hrun).
      unfold repository.invoices_query. cbn [repository.q_limit].
      replace (0 <? Limit (service.default_pagination req)) with true; [reflexivity|].
      symmetry. apply Z.ltb_lt. lia. }
    lia.
  - apply Forall_forall. intros i Hi.
    destruct (run_query_sound _ _ _ _ _ HE Hrun Hi) as [_ Hwhere].
    exact (proj1 (passes_filter_default_pagination _ _ _ _)
                 (proj1 (invoices_query_where _ _ _ _) Hwhere)).
Qed.

(** Alice asks for 5000 invoices of status "Unprocessed" and gets invoice
    1, whose status is "unprocessed". *)
Lemma getInvoices_bounded_and_scoped_witness :
  exists invoices,
    api.Content
      (api.getInvoices sample.parse_one_date repository.stable_engine 1
         (sample.query_of [("limit", "5000"); ("status", "Unprocessed")]) sample.db)
    = api.SuccessResponseOf "Invoices retrieved successfully" invoices /\
    (List.length invoices <= 100)%nat /\
    map i_ID invoices = [1%N] /\
    Forall (fun i => mysql.unicode_ci (InvoiceStatus_string (i_Status i)) "Unprocessed"
                     = true) invoices.
Proof.
  destruct (getInvoices_bounded_and_scoped sample.parse_one_date repository.stable_engine 1
              (sample.query_of [("limit", "5000"); ("status", "Unprocessed")]) sample.db
              stable_engine_conforming eq_refl)
    as [req [user [invoices [Hreq [_ [Hresp [Hlen Hpass]]]]]]].
  exists invoices. split; [exact Hresp|]. split; [exact Hlen|].
  injection Hresp as <-. split; [reflexivity|].
  injection Hreq as <-.
  eapply Forall_impl; [|exact Hpass].
  intros i [_ [_ [_ Hst]]]. exact (Hst _ eq_refl).
Defined.

Lemma default_pagination_eq (req : GetInvoicesRequest) :
  service.default_pagination req
  = {| StartDate := StartDate req; EndDate := EndDate req; Status := Status req;
       Page := if Page req <? 1 then 1 else Page req;
       Limit := if Limit req <? 1 then 20
                else if 100 <? Limit req then 100 else Limit req |}.
Proof.
  destruct req as [sd ed st page limit]. unfold service.default_pagination.
  cbn [Page Limit service.set_Page service.set_Limit StartDate EndDate Status].
  destruct (page <? 1); cbn [Page Limit service.set_Page service.set_Limit
                              StartDate EndDate Status];
    destruct (limit <? 1) eqn:Hl; cbn [Page Limit service.set_Page service.set_Limit
                                       StartDate EndDate Status];
    try (destruct (100 <? limit)); try reflexivity.
Qed.

Lemma effective_page_eq (s : string) :
  (let page := if String.eqb s "" then 1
               else match strconv.Atoi s with
                    | Some page => if 0 <? page then page else 0
                    | None => 0
                    end in
   if page <? 1 then 1 else page) = effective_page s.
Proof.
  unfold effective_page. destruct (String.eqb_spec s "") as [->|_]; [reflexivity|].
  cbv zeta. destruct (strconv.Atoi s) as [n|]; [|reflexivity].
  destruct (Z.ltb_spec 0 n); [|reflexivity].
  destruct (Z.ltb_spec n 1); [lia|reflexivity].
Qed.

Lemma effective_limit_eq (s : string) :
  (let limit := if String.eqb s "" then 20
                else match strconv.Atoi s with
                     | Some limit => if 0 <? limit then limit else 0
                     | None => 0
                     end in
   if limit <? 1 then 20 else if 100 <? limit then 100 else limit) = effective_limit s.
Proof.
  unfold effective_limit. destruct (String.eqb_spec s "") as [->|_]; [reflexivity|].
  cbv zeta. destruct (strconv.Atoi s) as [n|]; [|reflexivity].
  destruct (Z.ltb_spec 0 n); [|reflexivity].
  destruct (Z.ltb_spec n 1); [lia|].
  destruct (Z.ltb_spec 100 n); lia.
Qed.

Lemma GetInvoices_normalized (E : repository.Engine) (userID : uint)
      (req req' : GetInvoicesRequest) (db : repository.DB) :
  service.default_pagination req = service.default_pagination req' ->
  service.GetInvoices E userID req db = service.GetInvoices E userID req' db.
Proof. intros H. unfold service.GetInvoices. now rewrite H. Qed.

(** The request after the handler's parsing and the service's defaults. *)
Lemma parse_GetInvoicesRequest_effective (Parse : string -> result Time)
      (Query : string -> string) (req : GetInvoicesRequest) :
  api.parse_GetInvoicesRequest Parse Query = Ok req ->
  service.default_pagination req
  = {| StartDate := StartDate req; EndDate := EndDate req; Status := Status req;
       Page := effective_page (Query "page");
       Limit := effective_limit (Query "limit") |}.
Proof.
  intros H. rewrite default_pagination_eq.
  rewrite <- (effective_page_eq (Query "page")), <- (effective_limit_eq (Query "limit")).
  revert H. unfold api.parse_GetInvoicesRequest.
  destruct (if String.eqb (Query "start_date") "" then _ else _) as [sd|e]; [|discriminate].
  destruct (if String.eqb (Query "end_date") "" then _ else _) as [ed|e]; [|discriminate].
  intros H. injection H as <-. reflexivity.
Qed.

(** X15.  The answer of the handler depends on the [page] and [limit]
    parameters only through the page and the limit they stand for: a
    [page] that is absent, is not a decimal integer of Go's [int] or is not
    positive stands for page 1, and such a [limit] for 20; a limit above 100
    stands for 100.  Two sets of query parameters with the same filters that
    stand for the same page and limit get the same answer. *)
Theorem getInvoices_page_and_limit (Parse : string -> result Time)
        (E : repository.Engine) (userID : uint) (Query Query' : string -> string)
        (db : repository.DB) :
  Query' "start_date" = Query "start_date" ->
  Query' "end_date" = Query "end_date" ->
  Query' "status" = Query "status" ->
  effective_page (Query' "page") = effective_page (Query "page") ->
  effective_limit (Query' "limit") = effective_limit (Query "limit") ->
  api.getInvoices Parse E userID Query' db = api.getInvoices Parse E userID Query db /\
  (forall req,
      api.parse_GetInvoicesRequest Parse Query = Ok req ->
      Page (service.default_pagination req) = effective_page (Query "page") /\
      Limit (service.default_pagination req) = effective_limit (Query "limit")).
Proof.
  intros Hsd Hed Hst Hpage Hlimit. split.
  - unfold api.getInvoices.
    destruct (api.parse_GetInvoicesRequest Parse Query) as [req|msg] eqn:Hq;
      destruct (api.parse_GetInvoicesRequest Parse Query') as [req'|msg'] eqn:Hq'.
    + rewrite (GetInvoices_normalized E userID req' req db); [reflexivity|].
      rewrite (parse_GetInvoicesRequest_effective _ _ _ Hq),
        (parse_GetInvoicesRequest_effective _ _ _ Hq'), Hpage, Hlimit.
      revert Hq Hq'. unfold api.parse_GetInvoicesRequest. rewrite Hsd, Hed, Hst.
      destruct (if String.eqb (Query "start_date") "" then _ else _) as [sd|e];
        [|discriminate].
      destruct (if String.eqb (Query "end_date") "" then _ else _) as [ed|e];
        [|discriminate].
      intros H H'. injection H as <-. injection H' as <-. reflexivity.
    + exfalso. revert Hq Hq'. unfold api.parse_GetInvoicesRequest. rewrite Hsd, Hed.
      destruct (if String.eqb (Query "start_date") "" then _ else _) as [sd|e];
        [|discriminate].
      destruct (if String.eqb (Query "end_date") "" then _ else _) as [ed|e];
        discriminate.
    + exfalso. revert Hq Hq'. unfold api.parse_GetInvoicesRequest. rewrite Hsd, Hed.
      destruct (if String.eqb (Query "start_date") "" then _ else _) as [sd|e];
        [|discriminate].
      destruct (if String.eqb (Query "end_date") "" then _ else _) as [ed|e];
        discriminate.
    + revert Hq Hq'. unfold api.parse_GetInvoicesRequest. rewrite Hsd, Hed.
      destruct (if String.eqb (Query "start_date") "" then _ else _) as [sd|e].
      * destruct (if String.eqb (Query "end_date") "" then _ else _) as [ed|e];
          [discriminate|]. intros H H'. congruence.
      * intros H H'. congruence.
  - intros req Hq. rewrite (parse_GetInvoicesRequest_effective _ _ _ Hq). auto.
Qed.

Lemma getInvoices_page_and_limit_witness :
  api.getInvoices sample.parse_one_date repository.stable_engine 1
    (sample.query_of [("status", "unprocessed")]) sample.db
  = api.getInvoices sample.parse_one_date repository.stable_engine 1
      (sample.query_of [("page", "-3"); ("limit", "2e1"); ("status", "unprocessed")])
      sample.db.
Proof.
  apply getInvoices_page_and_limit; reflexivity.
Defined.

(** X16.  The offset of a listing is computed in Go's [int]: when the
    page and the limit the parameters stand for have a product
    [(page - 1) * limit] that wraps around to a negative number, the query is
    rejected by the server and the handler answers 500
    "invoice_retrieval_failed" for a user who exists. *)
Theorem getInvoices_offset_overflow (Parse : string -> result Time)
        (E : repository.Engine) (userID : uint) (Query : string -> string)
        (db : repository.DB) (req : GetInvoicesRequest) (user : User) :
  api.parse_GetInvoicesRequest Parse Query = Ok req ->
  repository.GetUserByID db userID = Ok user ->
  GoInt.mul (GoInt.sub (effective_page (Query "page")) 1)
            (effective_limit (Query "limit")) < 0 ->
  api.getInvoices Parse E userID Query db
  = {| api.Code := 500;
       api.Content :=
         api.ErrorResponseOf "invoice_retrieval_failed"
           ("failed to get invoices: failed to get invoices: "
            ++ repository.ErrNegativeOffset) |}.
Proof.
  intros Hq HU Hneg. unfold api.getInvoices. rewrite Hq.
  unfold service.GetInvoices, repository.GetInvoicesByCompanyID. run_service.
  rewrite HU. rewrite (parse_GetInvoicesRequest_effective _ _ _ Hq).
  unfold repository.run_query, repository.invoices_query.
  cbn [repository.q_offset repository.q_limit repository.q_where repository.q_order_by
       Page Limit].
  assert (HL : 1 <= effective_limit (Query "limit")).
  { unfold effective_limit. destruct (strconv.Atoi _) as [n|]; [|lia].
    destruct (Z.ltb_spec 0 n); lia. }
  assert (HP : 1 <= effective_page (Query "page")).
  { unfold effective_page. destruct (strconv.Atoi _) as [n|]; [|lia].
    destruct (Z.ltb_spec 0 n); lia. }
  replace (0 <? effective_limit (Query "limit")) with true
    by (symmetry; apply Z.ltb_lt; lia).
  destruct (Z.ltb_spec 1 (effective_page (Query "page"))) as [Hp|Hp].
  - replace (GoInt.mul (GoInt.sub (effective_page (Query "page")) 1)
                       (effective_limit (Query "limit")) <? 0) with true
      by (symmetry; apply Z.ltb_lt; exact Hneg).
    reflexivity.
  - exfalso. replace (effective_page (Query "page")) with 1 in Hneg by lia.
    vm_compute in Hneg. destruct (effective_limit (Query "limit")); discriminate.
Qed.

Lemma getInvoices_offset_overflow_witness :
  api.Code
    (api.getInvoices sample.parse_one_date repository.stable_engine 1
       (sample.query_of [("page", "4611686018427387906"); ("limit", "2")]) sample.db)
  = 500.
Proof.
  rewrite (getInvoices_offset_overflow sample.parse_one_date repository.stable_engine 1
             (sample.query_of [("page", "4611686018427387906"); ("limit", "2")])
             sample.db _ sample.alice eq_refl eq_refl).
  - reflexivity.
  - vm_compute. reflexivity.
Defined.

Lemma firstn_add {A : Type} (a b : nat) (l : list A) :
  firstn (a + b) l = firstn a l ++ firstn b (skipn a l).
Proof.
  revert l. induction a as [|a IH]; intros l; [reflexivity|].
  destruct l as [|x l]; cbn; [now rewrite firstn_nil|]. now rewrite IH.
Qed.

Lemma default_pagination_set_Page (req : GetInvoicesRequest) (page : Z) :
  1 <= page ->
  service.default_pagination (service.set_Page req page)
  = service.set_Page (service.default_pagination req) page.
Proof.
  intros Hp. rewrite !default_pagination_eq.
  cbn [service.set_Page Page Limit StartDate EndDate Status].
  destruct (Z.ltb_spec page 1); [lia|reflexivity].
Qed.

Lemma row_leb_due_desc_iff (a b : Invoice) :
  repository.row_leb [(repository.col_payment_due_date, repository.DESC)] a b = true <->
  i_PaymentDueDate b <= i_PaymentDueDate a.
Proof.
  split; [apply row_leb_due_desc|].
  unfold repository.row_leb. cbn [repository.compare_rows repository.column_value].
  destruct (Z.compare_spec (i_PaymentDueDate a) (i_PaymentDueDate b)) as [Hc|Hc|Hc];
    cbn; intros Hle; try reflexivity; lia.
Qed.

(** Rows due on days that all differ come in one order on every conforming
    server, whatever the LIMIT and the OFFSET of the statement. *)
Lemma order_by_due_deterministic (E : repository.Engine) (limit : option Z) (offset : Z)
      (l : list Invoice) :
  repository.conforming E ->
  NoDup (map i_PaymentDueDate l) ->
  repository.order_by E [(repository.col_payment_due_date, repository.DESC)] limit offset l
  = repository.isort
      (repository.row_leb [(repository.col_payment_due_date, repository.DESC)]) l.
Proof.
  intros HE Hnd.
  destruct (HE [(repository.col_payment_due_date, repository.DESC)] limit offset l)
    as [Hp Hs].
  assert (Htrans : Relations_1.Transitive
                     (fun a b : Invoice =>
                        repository.row_leb
                          [(repository.col_payment_due_date, repository.DESC)] a b = true)).
  { intros a b c Hab Hbc. rewrite row_leb_due_desc_iff in *. lia. }
  apply (sorted_permutation_unique
           (fun a b => repository.row_leb
                         [(repository.col_payment_due_date, repository.DESC)] a b = true)).
  - now apply Sorted_StronglySorted.
  - apply Sorted_StronglySorted; [exact Htrans|apply isort_sorted].
  - eapply perm_trans; [apply Permutation_sym, Hp|apply isort_perm].
  - intros a b Ha Hb Hab Hba.
    apply (Permutation_in _ (Permutation_sym Hp)) in Ha, Hb.
    rewrite row_leb_due_desc_iff in Hab, Hba.
    apply (NoDup_map_eq i_PaymentDueDate l a b Hnd Ha Hb). lia.
Qed.

(** One page of a listing whose rows are due on days that all differ, as
    a slice of the rows the listing pages through. *)
Lemma page_of_slice (E : repository.Engine) (userID : uint) (req : GetInvoicesRequest)
      (db : repository.DB) (user : User) (page : Z) :
  repository.conforming E ->
  repository.GetUserByID db userID = Ok user ->
  NoDup (map i_PaymentDueDate (selected E db (u_CompanyID user) req)) ->
  1 <= page -> (page - 1) * 100 <= GoInt.max_int ->
  let limit := Limit (service.default_pagination req) in
  page_of E userID req db page
  = firstn (Z.to_nat limit)
           (skipn (Z.to_nat ((page - 1) * limit)) (listed E db (u_CompanyID user) req)).
Proof.
  intros HE HU Hnd Hp Hmax limit. unfold page_of, service.GetInvoices,
    repository.GetInvoicesByCompanyID. run_service. rewrite HU.
  rewrite default_pagination_set_Page by exact Hp.
  destruct (default_pagination_bounds req) as [_ HL]. fold limit in HL.
  assert (Hrows : forall q,
             repository.q_where q
             = repository.q_where (repository.invoices_query (u_CompanyID user) req) ->
             filter (repository.eval_where (repository.collation E) q)
                    (repository.joined_invoices db)
             = selected E db (u_CompanyID user) req).
  { intros q Hq. unfold selected, repository.eval_where. rewrite Hq. reflexivity. }
  unfold repository.run_query. cbv zeta. rewrite Hrows.
  2:{ unfold repository.invoices_query. cbn [repository.q_where].
      destruct (default_pagination_filters req) as [Hs [He Hst]].
      cbn [service.set_Page StartDate EndDate Status]. rewrite Hs, He, Hst. reflexivity. }
  unfold repository.invoices_query, listed.
  cbn [repository.q_offset repository.q_limit repository.q_where repository.q_order_by
       service.set_Page Page Limit StartDate EndDate Status].
  fold limit.
  rewrite (order_by_due_deterministic E _ _ _ HE Hnd).
  replace (0 <? limit) with true by (symmetry; apply Z.ltb_lt; lia).
  destruct (Z.ltb_spec 1 page) as [H1|H1].
  - rewrite (offset_exact page limit Hp HL Hmax).
    replace ((page - 1) * limit <? 0) with false; [reflexivity|].
    symmetry. apply Z.ltb_ge. apply Z.mul_nonneg_nonneg; lia.
  - replace page with 1 by lia. reflexivity.
Qed.

(** With invoices 1 and 2 of company 1 due on the same day, a conforming
    server may order the two one way in the statement of page 1 and the other
    way in that of page 2: with one invoice to the page, both pages then show
    invoice 1 and neither shows invoice 2. *)
Lemma GetInvoices_pages_may_repeat :
  repository.conforming repository.paging_engine /\
  map i_ID (page_of repository.paging_engine 1 (sample.listing 1 1) sample.tied_db 1)
  = [1%N] /\
  map i_ID (page_of repository.paging_engine 1 (sample.listing 1 1) sample.tied_db 2)
  = [1%N].
Proof.
  split; [exact paging_engine_conforming|]. split; vm_compute; reflexivity.
Qed.

(** X17.  The pages of a listing tile it when no two of the invoices
    listed are due on the same day: on every conforming server, pages 1 to
    [n] of a request, one after the other, are the first [n] times [limit] of
    the rows of the user's company that pass the filters, by descending due
    date, with no row left out and none repeated ([limit] being the limit
    after the defaults, [n] small enough for the offsets not to overflow). *)
Theorem GetInvoices_pages_tile (E : repository.Engine) (userID : uint)
        (req : GetInvoicesRequest) (db : repository.DB) (user : User) (n : nat) :
  repository.conforming E ->
  repository.GetUserByID db userID = Ok user ->
  NoDup (map i_PaymentDueDate (selected E db (u_CompanyID user) req)) ->
  Z.of_nat n * 100 <= GoInt.max_int ->
  List.concat (map (fun k => page_of E userID req db (Z.of_nat k)) (seq 1 n))
  = firstn (n * Z.to_nat (Limit (service.default_pagination req)))
           (listed E db (u_CompanyID user) req).
Proof.
  intros HE HU Hnd. induction n as [|n IH]; intros Hmax; [reflexivity|].
  rewrite seq_S, map_app, concat_app, IH by lia.
  cbn [map List.concat]. rewrite app_nil_r.
  rewrite (page_of_slice E userID req db user (Z.of_nat (1 + n)) HE HU Hnd) by lia.
  destruct (default_pagination_bounds req) as [_ HL].
  replace (Z.to_nat ((Z.of_nat (1 + n) - 1) * Limit (service.default_pagination req)))
    with (n * Z.to_nat (Limit (service.default_pagination req)))%nat by nia.
  rewrite <- firstn_add. f_equal. lia.
Qed.

(** Alice's two invoices, due on 2024-02-15 and 2024-02-20, one to the
    page, on the server that orders page 2 the other way round: page 1 is
    invoice 2, page 2 invoice 1. *)
Lemma GetInvoices_pages_tile_witness :
  page_of repository.paging_engine 1 (sample.listing 1 1) sample.db 1
  ++ page_of repository.paging_engine 1 (sample.listing 1 1) sample.db 2
  = firstn 2 (listed repository.paging_engine sample.db 1 (sample.listing 1 1)) /\
  map i_ID (firstn 2 (listed repository.paging_engine sample.db 1 (sample.listing 1 1)))
  = [2%N; 1%N].
Proof.
  split; [|reflexivity].
  assert (Hnd : NoDup (map i_PaymentDueDate
                         (selected repository.paging_engine sample.db
                                   (u_CompanyID sample.alice) (sample.listing 1 1)))).
  { repeat constructor; [intros [H|[]]; discriminate|intros []]. }
  pose proof (GetInvoices_pages_tile repository.paging_engine 1 (sample.listing 1 1)
                sample.db sample.alice 2 paging_engine_conforming eq_refl Hnd) as H.
  cbn [seq map List.concat] in H. rewrite app_nil_r in H. apply H.
  vm_compute. discriminate.
Defined.

(** ** Registration and login *)

(** What the [register] handler does after a body has bound. *)
Lemma register_inv (Bind : api.RegisterRequest -> option string) (B : bcrypt.API)
      (eq : repository.Collation) (GenerateJWT : User -> result string)
      (now now' : Time) (req : api.RegisterRequest) (st st' : repository.Store)
      (resp : api.AuthReply) :
  api.register Bind B eq GenerateJWT now now' req st = (resp, st') ->
  Bind req = None ->
  let company := company_row now (api.rr_Company req) st in
  let with_company :=
    repository.set_companies (repository.tables st)
      (repository.companies (repository.tables st) ++ [company]) in
  match bcrypt.GenerateFromPassword B (reg_Password (api.rr_User req)) with
  | Err err =>
      resp = {| api.AuthCode := 500;
                api.AuthContent :=
                  api.AuthError "user_registration_failed"
                                ("failed to hash password: " ++ err) |} /\
      repository.tables st' = with_company
  | Ok hash =>
      if existsb (fun u => eq (u_Email u) (reg_Email (api.rr_User req)))
                 (repository.users (repository.tables st))
      then
        resp = {| api.AuthCode := 500;
                  api.AuthContent :=
                    api.AuthError "user_registration_failed"
                      ("failed to create user: failed to create user: "
                       ++ repository.ErrDuplicateEntry) |} /\
        repository.tables st' = with_company
      else
        let user := registered_user now now' req hash st in
        repository.tables st'
        = repository.set_users with_company
            (repository.users (repository.tables st) ++ [repository.user_row user]) /\
        match GenerateJWT user with
        | Err err =>
            resp = {| api.AuthCode := 500;
                      api.AuthContent := api.AuthError "token_generation_failed" err |}
        | Ok token =>
            resp = {| api.AuthCode := 201;
                      api.AuthContent :=
                        api.AuthOk {| Token := token; AuthUser := user |} |}
        end
  end.
Proof.
  unfold api.register. intros H Hbind. rewrite Hbind in H.
  unfold service.CreateCompany, repository.CreateCompany in H.
  unfold service.RegisterUser in H. cbn [u_Password service.set_Password] in H.
  cbv zeta.
  destruct (bcrypt.GenerateFromPassword B (reg_Password (api.rr_User req))) as [hash|err].
  2:{ injection H as <- <-. split; reflexivity. }
  unfold repository.CreateUser, repository.find_company in H.
  cbn [repository.tables repository.set_companies repository.companies repository.users
       u_CompanyID u_Email repository.stamp_company c_ID service.set_Password
       repository.next_user_id repository.next_company_id] in H.
  assert (Hfk : exists c,
             find (fun c => N.eqb (c_ID c) (repository.next_company_id st))
                  (repository.companies (repository.tables st)
                   ++ [repository.stamp_company (repository.next_company_id st) now
                         (api.rr_Company req)])
             = Some c).
  { destruct (find (fun c => N.eqb (c_ID c) (repository.next_company_id st))
                   (repository.companies (repository.tables st))) as [c|] eqn:Hf.
    - exists c. now apply find_app_some.
    - eexists. rewrite find_app_none by exact Hf. cbn. rewrite N.eqb_refl. reflexivity. }
  destruct Hfk as [c Hfk]. rewrite Hfk in H.
  destruct (existsb _ (repository.users (repository.tables st))).
  - injection H as <- <-. split; reflexivity.
  - match type of H with
    | context [GenerateJWT ?u] =>
        change u with (registered_user now now' req hash st) in H
    end.
    destruct (GenerateJWT (registered_user now now' req hash st)) as [token|err];
      injection H as <- <-; split; reflexivity.
Qed.

Lemma register_201_bound (Bind : api.RegisterRequest -> option string) (B : bcrypt.API)
      (eq : repository.Collation) (GenerateJWT : User -> result string)
      (now now' : Time) (req : api.RegisterRequest) (st st' : repository.Store)
      (resp : api.AuthReply) :
  api.register Bind B eq GenerateJWT now now' req st = (resp, st') ->
  api.AuthCode resp <> 400 ->
  Bind req = None.
Proof.
  unfold api.register. destruct (Bind req); [|reflexivity].
  intros H Hne. injection H as <- _. now contradiction Hne.
Qed.

(** X18.  When the [register] handler answers 201, the body had bound and
    the password had hashed; one company row and one user row were appended
    and nothing else changed.  The user row belongs to the new company,
    carries the hash in place of the password, and its email was equal, as
    the server compares, to the email of no earlier user.  The response
    carries the token generated for that user. *)
Theorem register_created (Bind : api.RegisterRequest -> option string) (B : bcrypt.API)
        (eq : repository.Collation) (GenerateJWT : User -> result string)
        (now now' : Time) (req : api.RegisterRequest) (st st' : repository.Store)
        (resp : api.AuthReply) :
  api.register Bind B eq GenerateJWT now now' req st = (resp, st') ->
  api.AuthCode resp = 201 ->
  exists hash token,
    Bind req = None /\
    bcrypt.GenerateFromPassword B (reg_Password (api.rr_User req)) = Ok hash /\
    GenerateJWT (registered_user now now' req hash st) = Ok token /\
    api.AuthContent resp
    = api.AuthOk {| Token := token; AuthUser := registered_user now now' req hash st |} /\
    repository.companies (repository.tables st')
    = repository.companies (repository.tables st)
      ++ [company_row now (api.rr_Company req) st] /\
    repository.users (repository.tables st')
    = repository.users (repository.tables st)
      ++ [repository.user_row (registered_user now now' req hash st)] /\
    repository.business_partners (repository.tables st')
    = repository.business_partners (repository.tables st) /\
    repository.invoices (repository.tables st')
    = repository.invoices (repository.tables st) /\
    (forall u, In u (repository.users (repository.tables st)) ->
               eq (u_Email u) (reg_Email (api.rr_User req)) = false).
Proof.
  intros Hrun Hcode.
  assert (Hbind : Bind req = None).
  { apply (register_201_bound _ _ _ _ _ _ _ _ _ _ Hrun). rewrite Hcode. discriminate. }
  pose proof (register_inv _ _ _ _ _ _ _ _ _ _ Hrun Hbind) as H. cbv zeta in H.
  destruct (bcrypt.GenerateFromPassword B _) as [hash|err] eqn:Hhash.
  2:{ destruct H as [-> _]. discriminate. }
  destruct (existsb _ _) eqn:Hex.
  { destruct H as [-> _]. discriminate. }
  destruct H as [Htables H].
  destruct (GenerateJWT _) as [token|err] eqn:Hjwt; [|subst resp; discriminate].
  exists hash, token. subst resp. rewrite Htables. cbn.
  split; [exact Hbind|]. split; [reflexivity|]. split; [exact Hjwt|].
  do 5 (split; [reflexivity|]).
  intros u Hu. destruct (eq (u_Email u) _) eqn:He; [|reflexivity].
  assert (existsb (fun u => eq (u_Email u) (reg_Email (api.rr_User req)))
                  (repository.users (repository.tables st)) = true)
    by (apply existsb_exists; eauto).
  congruence.
Qed.

Lemma register_created_witness :
  exists token,
    api.AuthContent
      (fst (api.register (fun _ => None) sample.toy_bcrypt String.eqb sample.toy_jwt
              sample.d_2024_01_15 sample.d_2024_01_15
              (sample.registration "carol@newcompany.com") sample.store))
    = api.AuthOk
        {| Token := token;
           AuthUser := registered_user sample.d_2024_01_15 sample.d_2024_01_15
                         (sample.registration "carol@newcompany.com")
                         "$toy$correct horse" sample.store |}.
Proof.
  destruct (register_created (fun _ => None) sample.toy_bcrypt String.eqb sample.toy_jwt
              sample.d_2024_01_15 sample.d_2024_01_15
              (sample.registration "carol@newcompany.com") sample.store _ _
              eq_refl eq_refl)
    as [hash [token [_ [Hhash [_ [Hresp _]]]]]].
  exists token. cbn in Hhash. injection Hhash as <-. exact Hresp.
Defined.

(** X19.  The [register] handler does not undo the company it created:
    when it answers "user_registration_failed" (the password did not hash or
    the INSERT of the user failed, as it does for an email that is taken),
    the new company row is in the store without a user, and when it answers
    "token_generation_failed" both new rows are in the store.  A 400 leaves
    the store as it was. *)
Theorem register_keeps_company (Bind : api.RegisterRequest -> option string)
        (B : bcrypt.API) (eq : repository.Collation)
        (GenerateJWT : User -> result string)
        (now now' : Time) (req : api.RegisterRequest) (st st' : repository.Store)
        (resp : api.AuthReply) :
  api.register Bind B eq GenerateJWT now now' req st = (resp, st') ->
  (api.AuthCode resp = 400 -> st' = st) /\
  (forall msg,
      api.AuthContent resp = api.AuthError "user_registration_failed" msg ->
      repository.companies (repository.tables st')
      = repository.companies (repository.tables st)
        ++ [company_row now (api.rr_Company req) st] /\
      repository.users (repository.tables st') = repository.users (repository.tables st)) /\
  (forall msg,
      api.AuthContent resp = api.AuthError "token_generation_failed" msg ->
      repository.companies (repository.tables st')
      = repository.companies (repository.tables st)
        ++ [company_row now (api.rr_Company req) st] /\
      exists hash,
        repository.users (repository.tables st')
        = repository.users (repository.tables st)
          ++ [repository.user_row (registered_user now now' req hash st)]) /\
  (Bind req = None ->
   existsb (fun u => eq (u_Email u) (reg_Email (api.rr_User req)))
           (repository.users (repository.tables st)) = true ->
   api.AuthCode resp = 500 /\
   repository.companies (repository.tables st')
   = repository.companies (repository.tables st)
     ++ [company_row now (api.rr_Company req) st]).
Proof.
  intros Hrun. destruct (Bind req) as [err|] eqn:Hbind.
  { unfold api.register in Hrun. rewrite Hbind in Hrun. injection Hrun as <- <-.
    cbn. repeat split; try discriminate. }
  pose proof (register_inv _ _ _ _ _ _ _ _ _ _ Hrun Hbind) as H. cbv zeta in H.
  destruct (bcrypt.GenerateFromPassword B _) as [hash|err].
  2:{ destruct H as [-> Htables]. rewrite Htables. cbn.
      repeat split; try discriminate. }
  destruct (existsb _ _) eqn:Hex.
  { destruct H as [-> Htables]. rewrite Htables. cbn.
    repeat split; try discriminate. }
  destruct H as [Htables H]. rewrite Htables.
  destruct (GenerateJWT _) as [token|err]; subst resp; cbn;
    repeat split; try discriminate.
  exists hash. reflexivity.
Qed.

Lemma register_keeps_company_witness :
  let run :=
    api.register (fun _ => None) sample.toy_bcrypt String.eqb sample.toy_jwt
      sample.d_2024_01_15 sample.d_2024_01_15
      (sample.registration "alice@techsolutions.com") sample.store in
  api.AuthCode (fst run) = 500 /\
  repository.companies (repository.tables (snd run))
  = [sample.tech_solutions; sample.digital_services;
     company_row sample.d_2024_01_15 sample.new_company sample.store].
Proof.
  intros run.
  destruct (register_keeps_company (fun _ => None) sample.toy_bcrypt String.eqb
              sample.toy_jwt sample.d_2024_01_15 sample.d_2024_01_15
              (sample.registration "alice@techsolutions.com") sample.store
              (snd run) (fst run) eq_refl) as [_ [_ [_ H]]].
  exact (H eq_refl eq_refl).
Defined.

Lemma join_user_Email (db : repository.DB) (u j : User) :
  repository.join_user db u = Some j ->
  u_ID j = u_ID u /\ u_Email j = u_Email u /\ u_Password j = u_Password u /\
  u_CompanyID j = u_CompanyID u /\ u_FullName j = u_FullName u.
Proof.
  unfold repository.join_user. destruct (repository.find_company db _); [|discriminate].
  intros H. injection H as <-. cbn. auto.
Qed.

(** The user a successful [LoginUser] returns. *)
Lemma LoginUser_inv (B : bcrypt.API) (eq : repository.Collation) (email password : string)
      (db db' : repository.DB) (r : result User) :
  service.LoginUser B eq email password db = (r, db') ->
  db' = db /\
  match r with
  | Err msg => msg = "invalid credentials"
  | Ok user =>
      u_Password user = "" /\
      exists row,
        In row (repository.users db) /\
        eq (u_Email row) email = true /\
        bcrypt.CompareHashAndPassword B (u_Password row) password = None /\
        u_ID user = u_ID row /\ u_Email user = u_Email row /\
        u_CompanyID user = u_CompanyID row
  end.
Proof.
  unfold service.LoginUser, repository.GetUserByEmail.
  destruct (find _ (repository.joined_users db)) as [j|] eqn:Hf.
  2:{ intros H. injection H as <- <-. auto. }
  destruct (bcrypt.CompareHashAndPassword B (u_Password j) password) eqn:Hcmp.
  { intros H. injection H as <- <-. auto. }
  intros H. injection H as <- <-. split; [reflexivity|]. split; [reflexivity|].
  apply find_flat_map_opt in Hf. destruct Hf as [row [Hin [Hj He]]].
  destruct (join_user_Email _ _ _ Hj) as [Hid [Hemail [Hpw [Hc _]]]].
  rewrite Hemail in He. rewrite Hpw in Hcmp.
  exists row. cbn. repeat split; assumption.
Qed.

(** X20.  A user who registered can log in: after a 201 from [register],
    [LoginUser] with the email and the password of the registration returns
    the registered user with the password cleared, and [LoginUser] with a
    password the hash does not compare equal to fails with "invalid
    credentials".  This holds for a bcrypt whose hashes compare equal to
    their passwords and a collation under which a text equals itself. *)
Theorem registered_user_logs_in (Bind : api.RegisterRequest -> option string)
        (B : bcrypt.API) (eq : repository.Collation)
        (GenerateJWT : User -> result string)
        (now now' : Time) (req : api.RegisterRequest) (st st' : repository.Store)
        (resp : api.AuthReply) :
  bcrypt.sound B ->
  (forall s, eq s s = true) ->
  api.register Bind B eq GenerateJWT now now' req st = (resp, st') ->
  api.AuthCode resp = 201 ->
  exists hash user,
    bcrypt.GenerateFromPassword B (reg_Password (api.rr_User req)) = Ok hash /\
    service.LoginUser B eq (reg_Email (api.rr_User req)) (reg_Password (api.rr_User req))
                      (repository.tables st')
    = (Ok user, repository.tables st') /\
    u_ID user = repository.next_user_id st /\
    u_CompanyID user = repository.next_company_id st /\
    u_Email user = reg_Email (api.rr_User req) /\
    u_FullName user = reg_FullName (api.rr_User req) /\
    u_Password user = "" /\
    (fresh_company_id st = true ->
     user = service.set_Password (registered_user now now' req hash st) "") /\
    (forall other,
        bcrypt.CompareHashAndPassword B hash other <> None ->
        service.LoginUser B eq (reg_Email (api.rr_User req)) other (repository.tables st')
        = (Err "invalid credentials", repository.tables st')).
Proof.
  intros Hsound Hrefl Hrun Hcode.
  assert (Hbind : Bind req = None).
  { apply (register_201_bound _ _ _ _ _ _ _ _ _ _ Hrun). rewrite Hcode. discriminate. }
  pose proof (register_inv _ _ _ _ _ _ _ _ _ _ Hrun Hbind) as H. cbv zeta in H.
  destruct (bcrypt.GenerateFromPassword B _) as [hash|err] eqn:Hhash.
  2:{ destruct H as [-> _]. discriminate. }
  destruct (existsb _ _) eqn:Hex.
  { destruct H as [-> _]. discriminate. }
  destruct H as [Htables _]. clear Hrun Hcode.
  set (email := reg_Email (api.rr_User req)) in *.
  set (row := repository.user_row (registered_user now now' req hash st)) in *.
  (* the company the new row joins *)
  assert (Hfk : exists c,
             repository.find_company (repository.tables st') (u_CompanyID row) = Some c /\
             (fresh_company_id st = true -> c = company_row now (api.rr_Company req) st)).
  { rewrite Htables. unfold repository.find_company. cbn.
    destruct (find (fun c => N.eqb (c_ID c) (repository.next_company_id st))
                   (repository.companies (repository.tables st))) as [c|] eqn:Hf.
    - exists c. split; [now apply find_app_some|].
      intros Hfresh. unfold fresh_company_id in Hfresh. rewrite forallb_forall in Hfresh.
      apply find_some in Hf. destruct Hf as [Hin Hid].
      specialize (Hfresh c Hin). apply N.eqb_eq in Hid. apply N.ltb_lt in Hfresh. lia.
    - eexists. rewrite find_app_none by exact Hf. cbn. rewrite N.eqb_refl.
      split; reflexivity. }
  destruct Hfk as [c [Hc Hfresh]].
  (* the lookup by email finds the new row *)
  assert (Hfind : repository.GetUserByEmail eq (repository.tables st') email
                  = Ok {| u_ID := repository.next_user_id st;
                          u_CompanyID := repository.next_company_id st;
                          u_FullName := reg_FullName (api.rr_User req);
                          u_Email := email; u_Password := hash;
                          u_CreatedAt := now'; u_UpdatedAt := now';
                          u_Company := Some c |}).
  { unfold repository.GetUserByEmail, repository.joined_users.
    replace (repository.users (repository.tables st'))
      with (repository.users (repository.tables st) ++ [row])
      by (rewrite Htables; reflexivity).
    rewrite flat_map_app, find_app_none.
    - cbn [flat_map]. unfold repository.join_user at 1. rewrite Hc.
      cbn. unfold email. rewrite Hrefl. reflexivity.
    - apply find_none_of_all_false. intros j Hj.
      apply in_flat_map in Hj. destruct Hj as [u [Hu Hj]].
      destruct (repository.join_user _ u) as [j'|] eqn:Hjoin; [|contradiction].
      destruct Hj as [<-|[]].
      destruct (join_user_Email _ _ _ Hjoin) as [_ [-> _]].
      destruct (eq (u_Email u) email) eqn:He; [|reflexivity].
      assert (existsb (fun u => eq (u_Email u) email)
                      (repository.users (repository.tables st)) = true)
        by (apply existsb_exists; eauto).
      congruence. }
  exists hash. eexists. split; [reflexivity|].
  unfold service.LoginUser. rewrite Hfind. cbn [u_Password].
  rewrite (Hsound _ _ Hhash).
  split; [reflexivity|]. cbn. do 5 (split; [reflexivity|]). split.
  - intros Hf. rewrite (Hfresh Hf). reflexivity.
  - intros other Hother.
    destruct (bcrypt.CompareHashAndPassword B hash other); [reflexivity|].
    now contradiction Hother.
Qed.

Lemma registered_user_logs_in_witness :
  let run :=
    api.register (fun _ => None) sample.toy_bcrypt String.eqb sample.toy_jwt
      sample.d_2024_01_15 sample.d_2024_01_15
      (sample.registration "carol@newcompany.com") sample.store in
  exists user,
    service.LoginUser sample.toy_bcrypt String.eqb "carol@newcompany.com" "correct horse"
                      (repository.tables (snd run))
    = (Ok user, repository.tables (snd run)) /\
    u_ID user = 3%N /\ u_Password user = "".
Proof.
  intros run.
  destruct (registered_user_logs_in (fun _ => None) sample.toy_bcrypt String.eqb
              sample.toy_jwt sample.d_2024_01_15 sample.d_2024_01_15
              (sample.registration "carol@newcompany.com") sample.store
              (snd run) (fst run))
    as [hash [user [_ [Hlogin [Hid [_ [_ [_ [Hpw _]]]]]]]]].
  - intros password hash H. cbn in H. injection H as <-. cbn.
    now rewrite String.eqb_refl.
  - apply String.eqb_refl.
  - reflexivity.
  - reflexivity.
  - exists user. auto.
Defined.

(** X21.  The [login] handler gives a failed login one answer: a 401 with
    the same body whether no user has the email or the password does not
    match.  When it answers 200, some row of [users] has an email equal, as
    the server compares, to the one given and a hash that compares equal to
    the password given; the user in the response is that of the row, with
    the password cleared.  No answer changes the store. *)
Theorem login_answers (Bind : LoginRequest -> option string) (B : bcrypt.API)
        (eq : repository.Collation) (GenerateJWT : User -> result string)
        (req : LoginRequest) (db : repository.DB) :
  let resp := api.login Bind B eq GenerateJWT req db in
  (api.AuthCode resp = 401 ->
   api.AuthContent resp
   = api.AuthError "authentication_failed" "Invalid email or password") /\
  (Bind req = None ->
   (forall row, In row (repository.users db) ->
                eq (u_Email row) (login_Email req) = true ->
                bcrypt.CompareHashAndPassword B (u_Password row) (login_Password req)
                <> None) ->
   api.AuthCode resp = 401) /\
  (api.AuthCode resp = 200 ->
   exists token user row,
     api.AuthContent resp = api.AuthOk {| Token := token; AuthUser := user |} /\
     GenerateJWT user = Ok token /\
     u_Password user = "" /\
     In row (repository.users db) /\
     eq (u_Email row) (login_Email req) = true /\
     bcrypt.CompareHashAndPassword B (u_Password row) (login_Password req) = None /\
     u_ID user = u_ID row /\ u_CompanyID user = u_CompanyID row).
Proof.
  cbv zeta. unfold api.login.
  destruct (Bind req) as [err|].
  { cbn. repeat split; discriminate. }
  destruct (service.LoginUser B eq (login_Email req) (login_Password req) db)
    as [[user|e] db'] eqn:Hlogin.
  - apply LoginUser_inv in Hlogin.
    destruct Hlogin as [_ [Hpw [row [Hin [He [Hcmp [Hid [_ Hc]]]]]]]].
    destruct (GenerateJWT user) as [token|err] eqn:Hjwt; cbn.
    + split; [discriminate|]. split.
      * intros _ Hnone. exfalso. exact (Hnone row Hin He Hcmp).
      * intros _. exists token, user, row. repeat split; assumption.
    + split; [discriminate|]. split; [|discriminate].
      intros _ Hnone. exfalso. exact (Hnone row Hin He Hcmp).
  - cbn. repeat split; try discriminate.
Qed.

Lemma login_answers_witness :
  api.AuthCode
    (api.login (fun _ => None) sample.toy_bcrypt String.eqb sample.toy_jwt
       {| login_Email := "alice@techsolutions.com"; login_Password := "guess" |}
       sample.db) = 401.
Proof.
  apply (login_answers (fun _ => None) sample.toy_bcrypt String.eqb sample.toy_jwt
           {| login_Email := "alice@techsolutions.com"; login_Password := "guess" |}
           sample.db).
  - reflexivity.
  - intros row [<-|[<-|[]]] He; cbn in *; discriminate.
Defined.

(** ** Creation of companies *)

Lemma binding_Company_nil (company : Company) :
  api.binding_Company company = [] <-> company_present company.
Proof.
  unfold api.binding_Company, company_present.
  destruct (String.eqb_spec (c_CorporateName company) "") as [H1|H1];
    destruct (String.eqb_spec (c_Representative company) "") as [H2|H2];
    destruct (String.eqb_spec (c_PhoneNumber company) "") as [H3|H3];
    destruct (String.eqb_spec (c_PostalCode company) "") as [H4|H4];
    destruct (String.eqb_spec (c_Address company) "") as [H5|H5];
    cbn [app]; split; try discriminate; try tauto.
Qed.

(** X22.  The handler of [POST /api/companies] answers 400 exactly when
    one of the five texts of the company is empty, and then leaves the store
    as it was; the phone number and the postal code are not checked against
    the patterns.  When it answers 201, one company row was appended under
    the next identifier and nothing else changed, the response carries that
    row, and, the counter being above the identifiers in the table,
    [GetCompanyByID] returns the row under its identifier. *)
Theorem createCompany_created (now : Time) (company : Company)
        (st st' : repository.Store) (resp : api.JSON Company) :
  api.createCompany now company st = (resp, st') ->
  (api.Code resp = 400 <-> ~ company_present company) /\
  (api.Code resp = 400 -> st' = st) /\
  (api.Code resp = 201 ->
   api.Content resp
   = api.SuccessResponseOf "Company created successfully" (company_row now company st) /\
   repository.tables st'
   = repository.set_companies (repository.tables st)
       (repository.companies (repository.tables st) ++ [company_row now company st]) /\
   (fresh_company_id st = true ->
    repository.GetCompanyByID (repository.tables st') (repository.next_company_id st)
    = Ok (company_row now company st))).
Proof.
  unfold api.createCompany. pose proof (binding_Company_nil company) as Hbind.
  destruct (api.binding_Company company) as [|e errs].
  - unfold service.CreateCompany, repository.CreateCompany.
    intros H. injection H as <- <-. cbn [api.Code api.Content repository.tables].
    split; [split; [discriminate|]|split; [discriminate|]].
    + intros Hn. contradiction Hn. now apply Hbind.
    + intros _. split; [reflexivity|]. split; [reflexivity|].
      intros Hfresh. unfold repository.GetCompanyByID, repository.find_company.
      cbn [repository.set_companies repository.companies].
      rewrite find_app_none.
      * cbn. now rewrite N.eqb_refl.
      * apply find_none_of_all_false. intros c Hc.
        unfold fresh_company_id in Hfresh. rewrite forallb_forall in Hfresh.
        specialize (Hfresh c Hc). apply N.ltb_lt in Hfresh. apply N.eqb_neq. lia.
  - intros H. injection H as <- <-. cbn [api.Code].
    split; [split; [intros _|reflexivity]|split; [reflexivity|discriminate]].
    intros Hp. apply Hbind in Hp. discriminate.
Qed.

Lemma createCompany_created_witness :
  let run := api.createCompany sample.d_2024_01_15 sample.new_company sample.store in
  ValidatePhoneNumber (c_PhoneNumber sample.new_company)
  = Some "invalid phone number format. Expected format: XXX-XXXX-XXXX" /\
  api.Code (fst run) = 201 /\
  repository.GetCompanyByID (repository.tables (snd run)) 3
  = Ok (company_row sample.d_2024_01_15 sample.new_company sample.store).
Proof.
  intros run.
  destruct (createCompany_created sample.d_2024_01_15 sample.new_company sample.store
              (snd run) (fst run) eq_refl) as [_ [_ H]].
  destruct (H eq_refl) as [_ [_ Hget]].
  split; [reflexivity|]. split; [reflexivity|]. exact (Hget eq_refl).
Defined.

(** ** Whole amounts of yen *)

Lemma all_from_spec (f : Z -> bool) (n : nat) (p q : Z) :
  all_from f n p = true -> p <= q < p + Z.of_nat n -> f q = true.
Proof.
  revert p. induction n as [|n IH]; intros p H Hq; [lia|].
  cbn [all_from] in H. apply andb_prop in H. destruct H as [Hp H].
  destruct (Z.eq_dec q p) as [->|Hne]; [exact Hp|].
  apply (IH (p + 1) H). lia.
Qed.

Lemma total_exact_to_50000 : all_from total_exact (Z.to_nat 50000) 1 = true.
Proof. vm_cast_no_check (eq_refl true). Qed.

Lemma whole_yen_fixed_to_50000 : all_from whole_yen_fixed (Z.to_nat 50000) 1 = true.
Proof. vm_cast_no_check (eq_refl true). Qed.

(** X23.  For a payment of a whole number of yen from 1 to 50000 the
    binary arithmetic of [CreateInvoice] loses nothing: the invoice amount is
    the float64 of the exact total 1.044 times the payment, rounded half up to
    the hundredth of a yen, although the fee and the tax are products of
    floats and not exact.  The payment and the total are numbers of two
    decimal places, so that a server that keeps the promises of its column
    types stores and returns them as they are. *)
Theorem CreateInvoice_whole_yen_exact (E : repository.Engine)
        (now now' : Time) (userID : uint) (req : CreateInvoiceRequest)
        (db : repository.DB) (user : User) (partner : BusinessPartner) (p : Z) :
  repository.storing E ->
  repository.GetUserByID db userID = Ok user ->
  repository.GetBusinessPartnerByID db (BusinessPartnerID req) = Ok partner ->
  bp_CompanyID partner = u_CompanyID user ->
  fresh_invoice_id db = true ->
  1 <= p <= 50000 ->
  PaymentAmount req = yen p ->
  exists invoice db',
    service.CreateInvoice E now now' userID req db = (Ok invoice, db') /\
    i_PaymentAmount invoice = yen p /\
    i_InvoiceAmount invoice = (yen (total_cents p) / 100)%float /\
    i_InvoiceAmount (service.new_invoice now user req) = (yen (total_cents p) / 100)%float.
Proof.
  intros Hst HU HP Heq Hfresh Hp Hamount.
  eexists. eexists. split; [apply (CreateInvoice_ok E now now' _ _ _ _ _ HU HP Heq Hfresh)|].
  cbn [i_PaymentAmount i_InvoiceAmount repository.with_joins repository.stamp_invoice
       repository.invoice_columns service.new_invoice].
  rewrite Hamount.
  assert (Htotal : (math.Round ((yen p + yen p * 0.04 + yen p * 0.04 * 0.10) * 100) / 100
                    = yen (total_cents p) / 100)%float).
  { apply FloatAxioms.Leibniz.eqb_spec.
    apply (all_from_spec total_exact _ 1 p total_exact_to_50000). lia. }
  assert (Hfixed : whole_yen_fixed p = true).
  { apply (all_from_spec whole_yen_fixed _ 1 p whole_yen_fixed_to_50000). lia. }
  apply andb_prop in Hfixed. destruct Hfixed as [Hf1 Hf2].
  rewrite Htotal.
  split; [exact (proj1 Hst _ _ Hf1)|]. split; [exact (proj1 Hst _ _ Hf2)|reflexivity].
Qed.

Lemma CreateInvoice_whole_yen_exact_witness :
  exists invoice db',
    service.CreateInvoice repository.stable_engine sample.d_2024_01_15 sample.d_2024_01_15 1
                          (sample.request 1 12345) sample.db = (Ok invoice, db') /\
    i_InvoiceAmount invoice = 12888.18%float.
Proof.
  destruct (CreateInvoice_whole_yen_exact repository.stable_engine
              sample.d_2024_01_15 sample.d_2024_01_15 1
              (sample.request 1 12345) sample.db sample.alice sample.supplier_a 12345
              stable_engine_storing eq_refl eq_refl eq_refl eq_refl)
    as [invoice [db' [Hrun [_ [Htotal _]]]]].
  - lia.
  - reflexivity.
  - exists invoice, db'. split; [exact Hrun|]. rewrite Htotal. reflexivity.
Defined.
